(** * ERA5-Land polygon worker: a shallow embedding of
      [worker/era5_polygon_worker.py] and the properties of its pipeline.

    The model starts where [main] has opened the downloaded dataset: the
    command line is parsed, the polygons are read in EPSG:4326 and the
    provider has answered.

    - Coordinates and data values are IEEE doubles in the program; they are
      modelled by exact rationals ([Q], compared with [==]), a data cell
      being either a rational or NaN. The cast to [numpy.float32] of a
      written band is modelled as it rounds ([Float32.of_Q]).
    - The geometry engine (shapely, and GDAL's rasterizer behind rasterio)
      is an interface, [Geometry], with a rectilinear instance on which the
      model runs. Which pixels GDAL burns for a shape, and what the
      installed rasterio does when it is given no shape at all, are
      operations of that interface.
    - Printing and the calls to the output libraries are events of a small
      writer-and-exception monad; the failures that the worker catches
      itself ([build_overviews], the GDAL pass, the temporary file) are
      read from an environment, the other library calls succeed. *)

From Stdlib Require Import String Ascii.
From Stdlib Require Import List Bool Arith Lia ZArith QArith Qabs Qround Lqa.
From Stdlib Require Import Sorted Permutation DecimalString.
Import ListNotations.

Set Implicit Arguments.
Local Open Scope nat_scope.

(** ** numpy-style helpers on one- and two-dimensional arrays *)

Module NP.

Definition array2 (A : Type) : Type := list (list A).

(** [a.shape == (h, w)] *)
Definition has_shape {A} (h w : nat) (a : array2 A) : Prop :=
  length a = h /\ Forall (fun row => length row = w) a.

(** [a[r, c]] on a boolean array, [false] outside. *)
Definition cell (a : array2 bool) (r c : nat) : bool :=
  nth c (nth r a []) false.

(** [np.any(v)] *)
Definition any (v : list bool) : bool := existsb (fun b => b) v.

(** [np.any(a, axis=1)]: one flag per row. *)
Definition any_axis1 (a : array2 bool) : list bool := map any a.

(** Second component of [a.shape]; the rows of an array have one length.
    (For an array without rows numpy still knows the width; every flag of
    [np.any(a, axis=0)] is then False, and so is [np.any] of the flags.) *)
Definition ncols {A} (a : array2 A) : nat :=
  match a with
  | [] => 0
  | row :: _ => length row
  end.

(** [np.any(a, axis=0)]: one flag per column. *)
Definition any_axis0 (a : array2 bool) : list bool :=
  map (fun c => existsb (fun row => nth c row false) a) (seq 0 (ncols a)).

(** [np.argmax(v)] on a boolean vector: the first index holding True, and 0
    when there is none. *)
Fixpoint argmax (v : list bool) : nat :=
  match v with
  | [] => 0
  | b :: t => if b then 0 else if any t then S (argmax t) else 0
  end.

(** [v[s:e]] for [0 <= s], [0 <= e]. *)
Definition slice {A} (s e : nat) (v : list A) : list A :=
  firstn (e - s) (skipn s v).

(** [a[rs:re, cs:ce]] *)
Definition slice2 {A} (rs re cs ce : nat) (a : array2 A) : array2 A :=
  map (slice cs ce) (slice rs re a).

Fixpoint map2 {A B C} (f : A -> B -> C) (u : list A) (v : list B) : list C :=
  match u, v with
  | x :: u', y :: v' => f x y :: map2 f u' v'
  | _, _ => []
  end.

(** [np.where(cond, a, other)] with a scalar [other], on arrays of one shape. *)
Definition np_where {A} (cond : array2 bool) (a : array2 A) (other : A) : array2 A :=
  map2 (map2 (fun (b : bool) x => if b then x else other)) cond a.

End NP.

Import NP.

(** ** [clip_to_polygon_bounds] *)

Definition clip_to_polygon_bounds {V C : Type}
    (data : array2 V) (mask : array2 bool) (lons lats : list C)
  : array2 V * array2 bool * list C * list C :=
  let rows_with_data := any_axis1 mask in
  let cols_with_data := any_axis0 mask in
  if negb (any rows_with_data) || negb (any cols_with_data) then
    (data, mask, lons, lats)
  else
    let row_start := argmax rows_with_data in
    let row_end := length rows_with_data - argmax (rev rows_with_data) in
    let col_start := argmax cols_with_data in
    let col_end := length cols_with_data - argmax (rev cols_with_data) in
    let clipped_data := slice2 row_start row_end col_start col_end data in
    let clipped_mask := slice2 row_start row_end col_start col_end mask in
    let clipped_lats := slice row_start row_end lats in
    let clipped_lons := slice col_start col_end lons in
    (clipped_data, clipped_mask, clipped_lons, clipped_lats).

(** ** Python values, errors and effects *)

(** A cell of a data array: a float, possibly NaN. *)
Inductive fval : Type :=
| NaN
| Num (q : Q).

(** A cell of a written band, a [numpy.float32] that is not NaN: a number
    or an infinity. *)
Inductive float32 : Type :=
| F32 (q : Q)
| F32_inf (negative : bool).

(** [x.astype(np.float32)] on a double that is not NaN. *)
Module Float32.

Local Open Scope Q_scope.

(** The nearest integer, the even one of two that are equally near. *)
Definition round_half_even (q : Q) : Z :=
  let f := Qfloor q in
  match Qcompare (q - inject_Z f) (1 # 2) with
  | Lt => f
  | Gt => (f + 1)%Z
  | Eq => if Z.even f then f else (f + 1)%Z
  end.

(** The exponent of [q], [0 < q]: the [e] with [2 ^ e <= q < 2 ^ (e + 1)]. *)
Definition exponent (q : Q) : Z :=
  let e := (Z.log2 (Qnum q) - Z.log2 (Zpos (Qden q)))%Z in
  if Qle_bool (2 ^ e) q then e else (e - 1)%Z.

(** The nearest number with 24 significant bits and an exponent of -126 at
    the least, for [0 < q]: the spacing of such numbers around [q] is
    [2 ^ (e - 23)]. *)
Definition round_positive (q : Q) : Q :=
  let e := Z.max (exponent q) (-126) in
  let spacing := 2 ^ (e - 23) in
  Qred (inject_Z (round_half_even (q / spacing)) * spacing).

(** Round to nearest, ties to even; what rounds to [2 ^ 128] or beyond is
    an infinity. *)
Definition of_Q (q : Q) : float32 :=
  if Qeq_bool q 0 then F32 0
  else
    let r := round_positive (Qabs q) in
    let negative := negb (Qle_bool 0 q) in
    if Qle_bool (2 ^ 128) r then F32_inf negative
    else F32 (if negative then - r else r).

End Float32.

(** The exceptions the modelled code can raise by itself; [GDALError] is
    the exception by which rasterio hands on a failure of GDAL. *)
Inductive PyError : Type :=
| ValueError
| KeyError
| IndexError
| GDALError.

(** Computations that print lines, call the output libraries and may raise:
    the events so far, then an exception or a value. *)
Definition M (E A : Type) : Type := list E * (PyError + A).

Definition ret {E A} (a : A) : M E A := ([], inr a).

Definition raise {E A} (e : PyError) : M E A := ([], inl e).

Definition emit {E} (e : E) : M E unit := ([e], inr tt).

Definition bind {E A B} (m : M E A) (k : A -> M E B) : M E B :=
  match m with
  | (es, inl e) => (es, inl e)
  | (es, inr a) => let (es', r) := k a in (es ++ es', r)
  end.

Notation "x <- m ;; k" := (bind m (fun x => k))
  (at level 61, m at next level, right associativity).
Notation "m ;;; k" := (bind m (fun _ => k))
  (at level 61, right associativity).

(** [for x in xs: n += body(x)] *)
Fixpoint for_count {E X} (xs : list X) (body : X -> M E nat) : M E nat :=
  match xs with
  | [] => ret 0
  | x :: rest =>
      n <- body x ;;
      m <- for_count rest body ;;
      ret (n + m)
  end.

(** [for x in xs: created.extend(body(x))] *)
Fixpoint for_append {E X Y} (xs : list X) (body : X -> M E (list Y)) : M E (list Y) :=
  match xs with
  | [] => ret []
  | x :: rest =>
      ys <- body x ;;
      zs <- for_append rest body ;;
      ret (ys ++ zs)
  end.

(** [[f(x) for x in xs]] where [f] may raise. *)
Fixpoint map_opt {X Y} (f : X -> option Y) (xs : list X) : option (list Y) :=
  match xs with
  | [] => Some []
  | x :: rest =>
      match f x, map_opt f rest with
      | Some y, Some ys => Some (y :: ys)
      | _, _ => None
      end
  end.

Definition events {E A} (m : M E A) : list E := fst m.

Definition outcome {E A} (m : M E A) : PyError + A := snd m.

(** ** Strings: [str.split], [int], [os.path.join], [strftime] *)

Module Str.

(** [s.split(sep)] for a one-character separator. *)
Fixpoint split (sep : ascii) (s : string) : list string :=
  match s with
  | EmptyString => [EmptyString]
  | String c t =>
      if Ascii.eqb c sep then EmptyString :: split sep t
      else match split sep t with
           | w :: ws => String c w :: ws
           | [] => [String c EmptyString]
           end
  end.

Definition is_digit (c : ascii) : bool :=
  let n := nat_of_ascii c in (48 <=? n) && (n <=? 57).

Definition digit_value (c : ascii) : Z := Z.of_nat (nat_of_ascii c - 48).

(** Whitespace that [int] strips (ASCII part). *)
Definition is_space (c : ascii) : bool :=
  let n := nat_of_ascii c in
  ((9 <=? n) && (n <=? 13)) || ((28 <=? n) && (n <=? 32)).

Fixpoint lstrip (s : string) : string :=
  match s with
  | String c t => if is_space c then lstrip t else s
  | EmptyString => EmptyString
  end.

Fixpoint rstrip (s : string) : string :=
  match s with
  | EmptyString => EmptyString
  | String c t =>
      match rstrip t with
      | EmptyString => if is_space c then EmptyString else String c EmptyString
      | t' => String c t'
      end
  end.

(** Decimal digits, single underscores allowed between two digits. *)
Fixpoint digits (acc : Z) (after_digit : bool) (s : string) : option Z :=
  match s with
  | EmptyString => if after_digit then Some acc else None
  | String c t =>
      if is_digit c then digits (10 * acc + digit_value c)%Z true t
      else if Ascii.eqb c "_"%char && after_digit then
        match t with
        | String c' _ => if is_digit c' then digits acc false t else None
        | EmptyString => None
        end
      else None
  end.

(** [int(s)] on an ASCII string; [None] stands for [ValueError]. *)
Definition int (s : string) : option Z :=
  match rstrip (lstrip s) with
  | String "+"%char t => digits 0 false t
  | String "-"%char t => option_map Z.opp (digits 0 false t)
  | t => digits 0 false t
  end.

Definition digit_char (n : nat) : ascii := ascii_of_nat (48 + n mod 10).

(** [%m], [%d], [%H], [%M]: two digits. *)
Definition pad2 (n : nat) : string :=
  String (digit_char (n / 10)) (String (digit_char n) EmptyString).

(** [%Y]: four digits. *)
Definition pad4 (n : nat) : string :=
  String (digit_char (n / 1000)) (String (digit_char (n / 100)) (pad2 n)).

Fixpoint ends_with (c : ascii) (s : string) : bool :=
  match s with
  | EmptyString => false
  | String x EmptyString => Ascii.eqb x c
  | String _ t => ends_with c t
  end.

(** [os.path.join(a, b)] with the POSIX separator. *)
Definition path_join (a b : string) : string :=
  match b with
  | String "/"%char _ => b
  | _ =>
      if (a =? "")%string || ends_with "/"%char a then (a ++ b)%string
      else (a ++ "/" ++ b)%string
  end.

End Str.

(** ** Coordinate axes *)

Module Axis.

Local Open Scope Q_scope.

Definition Qltb (x y : Q) : bool := negb (Qle_bool y x).

Definition qmin (x y : Q) : Q := if Qle_bool x y then x else y.

Definition qmax (x y : Q) : Q := if Qle_bool x y then y else x.

(** [xs.min()]; [None] stands for the ValueError numpy raises on an empty
    array. *)
Definition np_min (xs : list Q) : option Q :=
  match xs with
  | [] => None
  | x :: rest => Some (fold_left qmin rest x)
  end.

(** [xs.max()] *)
Definition np_max (xs : list Q) : option Q :=
  match xs with
  | [] => None
  | x :: rest => Some (fold_left qmax rest x)
  end.

(** [abs(xs[1] - xs[0]) if len(xs) > 1 else 0.1], the cell size of an axis as
    [create_polygon_mask], [create_vector_grid] and [save_raster] compute it. *)
Definition axis_resolution (xs : list Q) : Q :=
  match xs with
  | x0 :: x1 :: _ => Qabs (x1 - x0)
  | _ => 1 # 10
  end.

(** Python's [x % y] on floats: the result has the sign of [y]. *)
Definition py_mod (x y : Q) : Q := x - y * inject_Z (Qfloor (x / y)).

(** [((lon + 180) % 360) - 180] *)
Definition wrap_longitude (lon : Q) : Q := py_mod (lon + 180) 360 - 180.

(** Stable insertion of a keyed index: before the first entry whose key is
    not smaller. *)
Fixpoint insert_key (k : Q) (i : nat) (l : list (Q * nat)) : list (Q * nat) :=
  match l with
  | [] => [(k, i)]
  | (k', i') :: rest =>
      if Qle_bool k k' then (k, i) :: l else (k', i') :: insert_key k i rest
  end.

Fixpoint sort_keys (l : list (Q * nat)) : list (Q * nat) :=
  match l with
  | [] => []
  | (k, i) :: rest => insert_key k i (sort_keys rest)
  end.

(** The index order [sortby] applies: a stable ascending sort of the axis. *)
Definition argsort (keys : list Q) : list nat :=
  map snd (sort_keys (combine keys (seq 0 (length keys)))).

(** [enumerate(xs)] *)
Definition enumerate {A} (xs : list A) : list (nat * A) :=
  combine (seq 0 (length xs)) xs.

End Axis.

Import Axis.

(** ** The geometry engine *)

(** What the worker asks of shapely: [box], [union_all] (or [unary_union]),
    [intersects], [intersection], [is_empty], [area]; and what it leaves to
    the rasterizer: [touched pixel shape] tells whether GDAL, with
    [all_touched=True], burns the pixel of that square for the shape, and
    [no_shape_raises] whether the installed [rasterize] raises ValueError
    when it is given no shape (it returns the array of the fill value
    otherwise). *)
Class Geometry (G : Type) : Type := {
  box : Q -> Q -> Q -> Q -> G;
  union_all : list G -> G;
  intersects : G -> G -> bool;
  intersection : G -> G -> G;
  is_empty : G -> bool;
  area : G -> Q;
  touched : G -> G -> bool;
  no_shape_raises : bool
}.

(** [rasterio.Affine(a, b, c, d, e, f)] *)
Record Affine : Type := {
  af_a : Q; af_b : Q; af_c : Q;
  af_d : Q; af_e : Q; af_f : Q
}.

(** [rasterio.transform.from_origin(west, north, xsize, ysize)] *)
Definition from_origin (west north xsize ysize : Q) : Affine :=
  {| af_a := xsize; af_b := 0; af_c := west;
     af_d := 0; af_e := - ysize; af_f := north |}.

(** [transform * (col, row)] *)
Definition affine_apply (t : Affine) (col row : Q) : Q * Q :=
  ((af_a t * col + af_b t * row + af_c t)%Q,
   (af_d t * col + af_e t * row + af_f t)%Q).

Definition Qnat (n : nat) : Q := inject_Z (Z.of_nat n).

Section Rasterize.

Context {G : Type} `{Geometry G}.

(** The square a north-up transform gives to pixel [(row, col)]: from its
    upper-left corner [transform * (col, row)] to its lower-right corner
    [transform * (col + 1, row + 1)]. *)
Definition pixel_footprint (t : Affine) (row col : nat) : G :=
  let (x0, y0) := affine_apply t (Qnat col) (Qnat row) in
  let (x1, y1) := affine_apply t (Qnat col + 1)%Q (Qnat row + 1)%Q in
  box x0 y1 x1 y0.

(** GDAL can invert the transform: its determinant is not zero. *)
Definition invertible (t : Affine) : bool :=
  negb (Qeq_bool (af_a t * af_e t - af_b t * af_d t) 0).

(** [rasterio.features.rasterize(shapes, out_shape, transform, fill=0,
    all_touched=True)] with every shape burnt as 1, read back as booleans.
    The library is external. Given no shape it raises ValueError or returns
    the array of the fill value, by its version; given shapes it hands them
    to GDAL, which fails on a transform it cannot invert (a cell size of
    zero) and otherwise burns a pixel when it is [touched] for some shape. *)
Definition rasterize (shapes : list G) (out_shape : nat * nat) (t : Affine)
  : PyError + array2 bool :=
  let burnt :=
    map (fun row =>
           map (fun col => existsb (touched (pixel_footprint t row col)) shapes)
               (seq 0 (snd out_shape)))
        (seq 0 (fst out_shape)) in
  match shapes with
  | [] => if no_shape_raises (G := G) then inl ValueError else inr burnt
  | _ => if invertible t then inr burnt else inl GDALError
  end.

End Rasterize.

(** ** The decoded dataset *)

(** [pd.Timestamp]: the fields the worker reads. *)
Record Timestamp : Type := {
  year : nat; month : nat; day : nat;
  hour : nat; minute : nat; second : nat
}.

(** [time_dt.strftime('%Y%m%d_%H%M')] *)
Definition strftime (t : Timestamp) : string :=
  (Str.pad4 (year t) ++ Str.pad2 (month t) ++ Str.pad2 (day t) ++ "_"
   ++ Str.pad2 (hour t) ++ Str.pad2 (minute t))%string.

(** An [xarray.Dataset]: the two spatial axes, the time coordinate under one
    of its two names, and every data variable as one (lat, lon) array per
    time step. *)
Record Dataset : Type := {
  longitude : list Q;
  latitude : list Q;
  coords_time : option (list Timestamp);
  coords_valid_time : option (list Timestamp);
  data_vars : list (string * list (array2 fval))
}.

Fixpoint dict_get {V} (d : list (string * V)) (key : string) : option V :=
  match d with
  | [] => None
  | (k, v) :: rest => if String.eqb k key then Some v else dict_get rest key
  end.

(** [name in ds.data_vars] *)
Definition in_data_vars (name : string) (ds : Dataset) : bool :=
  match dict_get (data_vars ds) name with
  | Some _ => true
  | None => false
  end.

(** [ds[time_coord].values] with
    [time_coord = 'time' if 'time' in ds.coords else 'valid_time']. *)
Definition time_values (ds : Dataset) : PyError + list Timestamp :=
  match coords_time ds with
  | Some ts => inr ts
  | None =>
      match coords_valid_time ds with
      | Some ts => inr ts
      | None => inl KeyError
      end
  end.

(** [ds[var].isel({time_coord: time_idx}).values] *)
Definition isel_time (ds : Dataset) (var : string) (time_idx : nat)
  : PyError + array2 fval :=
  match dict_get (data_vars ds) var with
  | None => inl KeyError
  | Some slices =>
      match nth_error slices time_idx with
      | Some a => inr a
      | None => inl IndexError
      end
  end.

(** [data[i, j]] *)
Definition getitem2 (data : array2 fval) (i j : nat) : option fval :=
  match nth_error data i with
  | Some row => nth_error row j
  | None => None
  end.

(** ** Grid alignment (the two [sortby] steps of [main]) *)

(** [ds.isel(longitude=order)] *)
Definition isel_longitude (order : list nat) (ds : Dataset) : Dataset :=
  {| longitude := map (fun j => nth j (longitude ds) 0%Q) order;
     latitude := latitude ds;
     coords_time := coords_time ds;
     coords_valid_time := coords_valid_time ds;
     data_vars :=
       map (fun '(name, slices) =>
              (name, map (map (fun row => map (fun j => nth j row NaN) order))
                         slices))
           (data_vars ds) |}.

(** [ds.isel(latitude=order)] *)
Definition isel_latitude (order : list nat) (ds : Dataset) : Dataset :=
  {| longitude := longitude ds;
     latitude := map (fun i => nth i (latitude ds) 0%Q) order;
     coords_time := coords_time ds;
     coords_valid_time := coords_valid_time ds;
     data_vars :=
       map (fun '(name, slices) =>
              (name, map (fun a => map (fun i => nth i a []) order) slices))
           (data_vars ds) |}.

(** [ds.assign_coords(longitude=f(ds.longitude))] *)
Definition assign_longitude (f : Q -> Q) (ds : Dataset) : Dataset :=
  {| longitude := map f (longitude ds);
     latitude := latitude ds;
     coords_time := coords_time ds;
     coords_valid_time := coords_valid_time ds;
     data_vars := data_vars ds |}.

Definition sortby_longitude (ds : Dataset) : Dataset :=
  isel_longitude (argsort (longitude ds)) ds.

Definition sortby_latitude (ds : Dataset) : Dataset :=
  isel_latitude (argsort (latitude ds)) ds.

(** [if ds.longitude.max() > 180: ds = ds.assign_coords(...).sortby('longitude')] *)
Definition align_longitude (ds : Dataset) : PyError + Dataset :=
  match np_max (longitude ds) with
  | None => inl ValueError
  | Some m =>
      if Qltb 180 m then inr (sortby_longitude (assign_longitude wrap_longitude ds))
      else inr ds
  end.

(** [if ds.latitude[0] > ds.latitude[-1]: ds = ds.sortby('latitude', ascending=True)] *)
Definition align_latitude (ds : Dataset) : PyError + Dataset :=
  match latitude ds with
  | [] => inl IndexError
  | first :: _ =>
      if Qltb (last (latitude ds) first) first then inr (sortby_latitude ds)
      else inr ds
  end.

(** ** [create_polygon_mask] *)

Section Worker.

Context {G : Type} `{Geometry G}.

Definition create_polygon_mask (polygons : list G) (dataset : Dataset)
  : PyError + array2 bool :=
  let lons := longitude dataset in
  let lats := latitude dataset in
  let res_lon := axis_resolution lons in
  let res_lat := axis_resolution lats in
  match np_min lons, np_max lats with
  | Some lon_min, Some lat_max =>
      let west := (lon_min - res_lon / 2)%Q in
      let north := (lat_max + res_lat / 2)%Q in
      let transform := from_origin west north res_lon res_lat in
      rasterize polygons (length lats, length lons) transform
  | _, _ => inl ValueError
  end.

End Worker.

(** ** What a run prints and writes *)

(** The lines of standard output, by their message. *)
Inductive Line : Type :=
| Available_variables (names : list string)
| Generating_mask
| Mask_generated (polygon_pixels total_pixels : nat)
| Variable_not_found (var_long_name : string)
| Processing_variable (var_to_use var_for_filename : string)
| Computing_intersections
| No_valid_intersections
| VECTOR_PATH (path : string)
| RASTER_PATH (path : string)
| Overviews_failed
| Gdal_nodata_failed
| Finished_vector (vector_count : nat)
| Finished_raster (raster_count : nat)
| Processing_error (e : PyError)
| Temporary_file_removed.

(** The keyword arguments of [rasterio.open(output_path, 'w', ...)] that vary;
    the driver is GTiff, one float32 band, LZW compression and the explicit
    WGS 84 WKT in every call. *)
Record Profile : Type := {
  p_height : nat;
  p_width : nat;
  p_transform : Affine;
  p_nodata : Q;
  p_tiled : bool;
  p_blockxsize : option nat;
  p_blockysize : option nat
}.

(** The [GeoDataFrame] of one time step: the geometry column, the value
    column named after the variable, and the two centre columns. *)
Record Layer (G : Type) : Type := {
  l_geometry : list G;
  l_value_name : string;
  l_values : list fval;
  l_lat_center : list Q;
  l_lon_center : list Q
}.

Inductive Event (G : Type) : Type :=
| Print (l : Line)
| Rio_open (path : string) (profile : Profile)
| Rio_write (band : nat) (output_data : array2 float32)
| Rio_set_nodata (nodata : Q)
| Rio_build_overviews (levels : list nat)
| Rio_update_tags
| Rio_set_band_description
| Rio_close
| Gdal_set_nodata (path : string) (nodata : Q)
| To_file (path : string) (layer : Layer G).

Arguments Print {G}.
Arguments Rio_open {G}.
Arguments Rio_write {G}.
Arguments Rio_set_nodata {G}.
Arguments Rio_build_overviews {G}.
Arguments Rio_update_tags {G}.
Arguments Rio_set_band_description {G}.
Arguments Rio_close {G}.
Arguments Gdal_set_nodata {G}.
Arguments To_file {G}.

(** What the worker leaves to its surroundings and handles itself: whether
    [build_overviews] and the GDAL update raise for a given file, and
    whether the temporary NetCDF file is there and gets removed at the end. *)
Record Env : Type := {
  overviews_raise : string -> bool;
  gdal_raise : string -> bool;
  temp_file_removed : bool
}.

Definition lift {E A} (r : PyError + A) : M E A := ([], r).

Definition lift_opt {E A} (e : PyError) (o : option A) : M E A :=
  match o with
  | Some a => ret a
  | None => raise e
  end.

Definition VARIABLE_NAME_MAP : list (string * string) :=
  [ ("2m_temperature", "t2m");
    ("2m_dewpoint_temperature", "d2m");
    ("skin_temperature", "skt");
    ("soil_temperature_level_1", "stl1");
    ("soil_temperature_level_2", "stl2");
    ("soil_temperature_level_3", "stl3");
    ("soil_temperature_level_4", "stl4");
    ("total_precipitation", "tp");
    ("total_evaporation", "e");
    ("potential_evaporation", "pev");
    ("snowfall", "sf");
    ("snow_depth", "sd");
    ("snow_albedo", "asn");
    ("snowmelt", "smlt");
    ("snow_melt", "smlt");
    ("volumetric_soil_water_layer_1", "swvl1");
    ("volumetric_soil_water_layer_2", "swvl2");
    ("volumetric_soil_water_layer_3", "swvl3");
    ("volumetric_soil_water_layer_4", "swvl4");
    ("surface_solar_radiation_downwards", "ssrd");
    ("surface_net_solar_radiation", "ssr");
    ("surface_thermal_radiation_downwards", "strd");
    ("surface_net_thermal_radiation", "str");
    ("10m_u_component_of_wind", "u10");
    ("10m_v_component_of_wind", "v10");
    ("surface_pressure", "sp");
    ("leaf_area_index_high_vegetation", "lai_hv");
    ("leaf_area_index_low_vegetation", "lai_lv");
    ("runoff", "ro");
    ("surface_runoff", "sro");
    ("sub_surface_runoff", "ssro") ]%string.

(** [--output-format] *)
Inductive OutputFormat : Type :=
| raster
| vector.

(** The parsed command line ([argparse.Namespace]). *)
Record Args : Type := {
  a_polygons : string;
  a_start : string;
  a_end : string;
  a_hours : string;
  a_vars : string;
  a_out : string;
  a_resolution : Q;
  a_output_format : OutputFormat
}.

(** [time_dt.hour in selected_hours_ints] *)
Definition hour_selected (t : Timestamp) (selected_hours_ints : list Z) : bool :=
  existsb (Z.eqb (Z.of_nat (hour t))) selected_hours_ints.

Definition nodata_value : Q := (- (9999 # 1))%Q.

Section Emitters.

Context {G : Type} `{Geometry G}.

(** ** [save_raster] *)

Definition save_raster (env : Env) (data : array2 fval) (output_path : string)
    (lons lats : list Q) : M (Event G) unit :=
  let height := length data in
  let width := ncols data in
  let res_lon := axis_resolution lons in
  let res_lat := axis_resolution lats in
  west_north <-
    lift_opt ValueError
      (match np_min lons, np_max lats with
       | Some lon_min, Some lat_max =>
           Some ((lon_min - res_lon / 2)%Q, (lat_max + res_lat / 2)%Q)
       | _, _ => None
       end) ;;
  let transform := from_origin (fst west_north) (snd west_north) res_lon res_lat in
  (* np.where(np.isnan(data), nodata_value, data).astype(np.float32) *)
  let output_data :=
    map (map (fun v =>
                Float32.of_Q match v with NaN => nodata_value | Num q => q end))
        data in
  let max_overview_level := Nat.min height width / 2 in
  let overview_levels :=
    filter (fun level => level <? max_overview_level) [2; 4; 8; 16; 32] in
  let tiled := 256 <=? Nat.min height width in
  emit (Rio_open output_path
          {| p_height := height;
             p_width := width;
             p_transform := transform;
             p_nodata := nodata_value;
             p_tiled := tiled;
             p_blockxsize := if tiled then Some (Nat.min 256 width) else None;
             p_blockysize := if tiled then Some (Nat.min 256 height) else None |}) ;;;
  emit (Rio_write 1 output_data) ;;;
  emit (Rio_set_nodata nodata_value) ;;;
  (if negb (Nat.eqb (length overview_levels) 0) && (16 <? Nat.min height width) then
     if overviews_raise env output_path then emit (Print Overviews_failed)
     else emit (Rio_build_overviews overview_levels)
   else ret tt) ;;;
  emit Rio_update_tags ;;;
  emit Rio_set_band_description ;;;
  emit Rio_close ;;;
  (if gdal_raise env output_path then emit (Print Gdal_nodata_failed)
   else emit (Gdal_set_nodata output_path nodata_value)).

(** ** [create_vector_grid] *)

(** The square around a cell centre, [box(minx, miny, maxx, maxy)]. *)
Definition pixel_poly (res_lon res_lat lat lon : Q) : G :=
  box (lon - res_lon / 2)%Q (lat - res_lat / 2)%Q
      (lon + res_lon / 2)%Q (lat + res_lat / 2)%Q.

(** The two nested loops that fill [pixel_geometries] and [pixel_coords]. *)
Definition vector_cells (lons lats : list Q) (target_geometry : G)
  : list (G * (nat * nat)) :=
  let res_lon := axis_resolution lons in
  let res_lat := axis_resolution lats in
  flat_map (fun '(i, lat) =>
    flat_map (fun '(j, lon) =>
      let cell_box := pixel_poly res_lon res_lat lat lon in
      if intersects cell_box target_geometry then
        let clipped_geom := intersection cell_box target_geometry in
        if negb (is_empty clipped_geom) && Qltb 0 (area clipped_geom)
        then [(clipped_geom, (i, j))]
        else []
      else [])
      (enumerate lons))
    (enumerate lats).

(** One turn of the loop over the time steps of [create_vector_grid]; its
    value is what the turn appends to [created_layers]. *)
Definition vector_step (ds : Dataset) (cells : list (G * (nat * nat)))
    (var_short_name var_long_name : string) (selected_hours_ints : list Z)
    (output_dir : string) (step : nat * Timestamp) : M (Event G) (list string) :=
  let lons := longitude ds in
  let lats := latitude ds in
  let pixel_geometries := map fst cells in
  let pixel_coords := map snd cells in
  let time_dt := snd step in
  if hour_selected time_dt selected_hours_ints then
    data <- lift (isel_time ds var_short_name (fst step)) ;;
    pixel_values <-
      lift_opt IndexError
        (map_opt (fun ij => getitem2 data (fst ij) (snd ij)) pixel_coords) ;;
    let gdf :=
      {| l_geometry := pixel_geometries;
         l_value_name := var_long_name;
         l_values := pixel_values;
         l_lat_center := map (fun ij => nth (fst ij) lats 0%Q) pixel_coords;
         l_lon_center := map (fun ij => nth (snd ij) lons 0%Q) pixel_coords |} in
    let output_filename :=
      (var_long_name ++ "_" ++ strftime time_dt ++ "_grid.geojson")%string in
    let output_path := Str.path_join output_dir output_filename in
    emit (To_file output_path gdf) ;;;
    emit (Print (VECTOR_PATH output_path)) ;;;
    ret [output_path]
  else ret [].

Definition create_vector_grid (ds : Dataset) (polygons : list G)
    (var_short_name var_long_name : string) (selected_hours_ints : list Z)
    (output_dir : string) : M (Event G) (list string) :=
  let lons := longitude ds in
  let lats := latitude ds in
  let target_geometry := union_all polygons in
  emit (Print Computing_intersections) ;;;
  let cells := vector_cells lons lats target_geometry in
  let pixel_geometries := map fst cells in
  match pixel_geometries with
  | [] => emit (Print No_valid_intersections) ;;; ret []
  | _ =>
      times <- lift (time_values ds) ;;
      for_append (enumerate times)
        (vector_step ds cells var_short_name var_long_name
           selected_hours_ints output_dir)
  end.

(** ** [main]: the processing of the opened dataset *)

(** One turn of the loop over the time steps in raster mode; its value is
    what the turn adds to [raster_count]. *)
Definition raster_step (env : Env) (ds : Dataset) (mask : array2 bool)
    (var_to_use var_for_filename : string) (selected_hours_ints : list Z)
    (out : string) (step : nat * Timestamp) : M (Event G) nat :=
  let time_dt := snd step in
  if hour_selected time_dt selected_hours_ints then
    data <- lift (isel_time ds var_to_use (fst step)) ;;
    let '(clipped_data, clipped_mask, clipped_lons, clipped_lats) :=
      clip_to_polygon_bounds data mask (longitude ds) (latitude ds) in
    let masked_data := np_where clipped_mask clipped_data NaN in
    let raster_filename :=
      (var_for_filename ++ "_" ++ strftime time_dt ++ ".tif")%string in
    let raster_path := Str.path_join out raster_filename in
    save_raster env masked_data raster_path clipped_lons clipped_lats ;;;
    emit (Print (RASTER_PATH raster_path)) ;;;
    ret 1
  else ret 0.

(** The raster branch of the variable loop: one GeoTIFF per selected time. *)
Definition emit_rasters (env : Env) (ds : Dataset) (mask : array2 bool)
    (var_to_use var_for_filename : string) (selected_hours_ints : list Z)
    (out : string) : M (Event G) nat :=
  times <- lift (time_values ds) ;;
  for_count (enumerate times)
    (raster_step env ds mask var_to_use var_for_filename selected_hours_ints out).

(** The name under which the dataset holds a requested variable, if any. *)
Definition resolve_variable (ds : Dataset) (var_long_name : string) : option string :=
  let var_short_name :=
    match dict_get VARIABLE_NAME_MAP var_long_name with
    | Some short => short
    | None => var_long_name
    end in
  if in_data_vars var_short_name ds then Some var_short_name
  else if in_data_vars var_long_name ds then Some var_long_name
  else None.

(** The body of [for var_long_name in variables]; its value is what the
    iteration adds to [raster_count] or [vector_count]. *)
Definition process_variable (env : Env) (output_format : OutputFormat)
    (out : string) (polygons : list G) (ds : Dataset) (mask : array2 bool)
    (selected_hours_ints : list Z) (var_long_name : string) : M (Event G) nat :=
  match resolve_variable ds var_long_name with
  | None => emit (Print (Variable_not_found var_long_name)) ;;; ret 0
  | Some var_to_use =>
      let var_for_filename := var_long_name in
      emit (Print (Processing_variable var_to_use var_for_filename)) ;;;
      match output_format with
      | vector =>
          created <- create_vector_grid ds polygons var_to_use var_for_filename
                       selected_hours_ints out ;;
          ret (length created)
      | raster =>
          emit_rasters env ds mask var_to_use var_for_filename
            selected_hours_ints out
      end
  end.

(** [ds.longitude] and [ds.latitude] after the two alignment steps. *)
Definition align_grid (ds : Dataset) : PyError + Dataset :=
  match align_longitude ds with
  | inl e => inl e
  | inr ds1 => align_latitude ds1
  end.

(** The [try] block of [main], from the opened dataset on. *)
Definition main_try (env : Env) (hours variables : list string) (out : string)
    (output_format : OutputFormat) (polygons : list G) (raw : Dataset)
  : M (Event G) unit :=
  emit (Print (Available_variables (map fst (data_vars raw)))) ;;;
  ds <- lift (align_grid raw) ;;
  emit (Print Generating_mask) ;;;
  mask <- lift (create_polygon_mask polygons ds) ;;
  let total_pixels := length (concat mask) in
  let polygon_pixels := count_occ bool_dec (concat mask) true in
  emit (Print (Mask_generated polygon_pixels total_pixels)) ;;;
  selected_hours_ints <- lift_opt ValueError (map_opt Str.int hours) ;;
  n <- for_count variables
         (process_variable env output_format out polygons ds mask
            selected_hours_ints) ;;
  match output_format with
  | vector => emit (Print (Finished_vector n))
  | raster => emit (Print (Finished_raster n))
  end.

(** [main] after the download: the [try] block, the [except] clause that
    prints the error and raises it again, and the [finally] clause, which
    closes the dataset and reports the removal of the temporary file. *)
Definition main (env : Env) (args : Args) (polygons : list G) (raw : Dataset)
  : M (Event G) unit :=
  let hours := Str.split ","%char (a_hours args) in
  let variables := Str.split ","%char (a_vars args) in
  let run :=
    main_try env hours variables (a_out args) (a_output_format args) polygons raw in
  let finally :=
    if temp_file_removed env then [Print Temporary_file_removed] else [] in
  match outcome run with
  | inl e => (events run ++ [Print (Processing_error e)] ++ finally, inl e)
  | inr _ => (events run ++ finally, outcome run)
  end.

(** The exit status of the process: 0 unless an exception escapes [main]. *)
Definition exit_status {A} (run : M (Event G) A) : nat :=
  match outcome run with
  | inl _ => 1
  | inr _ => 0
  end.

End Emitters.

(** ** What the claims speak of *)

Local Open Scope Q_scope.

(** A strictly ascending axis. *)
Definition strictly_ascending (xs : list Q) : Prop := StronglySorted Qlt xs.

(** No two entries of the axis are a whole number of turns apart. *)
Definition distinct_mod_360 (xs : list Q) : Prop :=
  forall i j : nat, (i < j < length xs)%nat ->
    forall k : Z, ~ nth j xs 0 - nth i xs 0 == 360 * inject_Z k.

(** An axis of evenly spaced, ascending cell centres. *)
Definition regular_axis (xs : list Q) : Prop :=
  exists d : Q, 0 < d /\
    forall k : nat, (k < length xs)%nat -> nth k xs 0 == nth 0 xs 0 + Qnat k * d.

(** The dataset is consistent: both axes are non-empty, there is a time
    coordinate, and every variable holds one (lat, lon) array per time step. *)
Definition wf_dataset (ds : Dataset) : Prop :=
  longitude ds <> [] /\ latitude ds <> [] /\
  exists times, time_values ds = inr times /\
    forall name slices, In (name, slices) (data_vars ds) ->
      length slices = length times /\
      Forall (has_shape (length (latitude ds)) (length (longitude ds))) slices.

(** What an engine must satisfy for the mask and the vector grid to speak of
    the same squares: [touched] does not tell equal coordinates apart, and
    a square that shares a piece of positive area with the union of the
    shapes is burnt for one of them. (A square that a shape meets along an
    edge or in a corner only is left to the rasterizer.) *)
Class GeometryLaws (G : Type) `{Geometry G} : Prop := {
  touched_box_proper :
    forall x0 y0 x1 y1 x0' y0' x1' y1' g,
      x0 == x0' -> y0 == y0' -> x1 == x1' -> y1 == y1' ->
      touched (box x0 y0 x1 y1) g = touched (box x0' y0' x1' y1') g;
  overlap_is_touched :
    forall x0 y0 x1 y1 gs,
      0 < area (intersection (box x0 y0 x1 y1) (union_all gs)) ->
      existsb (touched (box x0 y0 x1 y1)) gs = true
}.

(** The two cell sizes of a grid are not zero: the transform built from
    them can be inverted. *)
Definition cell_sizes_nonzero (ds : Dataset) : Prop :=
  ~ axis_resolution (longitude ds) == 0 /\ ~ axis_resolution (latitude ds) == 0.




Section Readings.

Context {G : Type} `{Geometry G}.

(** The reading of the mask the pipeline relies on when it masks
    [data[i, j]]: some polygon meets the square around the cell centre
    [(lats[i], lons[j])]. *)
Definition cell_touched (polygons : list G) (ds : Dataset) (i j : nat) : bool :=
  existsb
    (intersects
       (pixel_poly (axis_resolution (longitude ds)) (axis_resolution (latitude ds))
          (nth i (latitude ds) 0) (nth j (longitude ds) 0)))
    polygons.

(** The pixel of the square around the cell centre [(lats[i], lons[j])] is
    burnt for some polygon. *)
Definition cell_burnt (polygons : list G) (ds : Dataset) (i j : nat) : bool :=
  existsb
    (touched
       (pixel_poly (axis_resolution (longitude ds)) (axis_resolution (latitude ds))
          (nth i (latitude ds) 0) (nth j (longitude ds) 0)))
    polygons.

(** The structured lines of standard output, in order. *)
Definition artifact_paths (evs : list (Event G)) : list string :=
  flat_map (fun ev =>
              match ev with
              | Print (RASTER_PATH p) => [p]
              | Print (VECTOR_PATH p) => [p]
              | _ => []
              end) evs.

(** The layers handed to [gdf.to_file]. *)
Definition written_layers (evs : list (Event G)) : list (Layer G) :=
  flat_map (fun ev => match ev with To_file _ l => [l] | _ => [] end) evs.

(** The bands handed to [dst.write]. *)
Definition written_bands (evs : list (Event G)) : list (array2 float32) :=
  flat_map (fun ev => match ev with Rio_write _ d => [d] | _ => [] end) evs.

(** The profiles of the rasters opened for writing. *)
Definition opened_profiles (evs : list (Event G)) : list Profile :=
  flat_map (fun ev => match ev with Rio_open _ p => [p] | _ => [] end) evs.

Definition is_not_found (ev : Event G) : bool :=
  match ev with
  | Print (Variable_not_found _) => true
  | _ => false
  end.

Definition is_computing (l : Line) : bool :=
  match l with
  | Computing_intersections => true
  | _ => false
  end.


Definition count_lines (l : Line -> bool) (evs : list (Event G)) : nat :=
  length (filter (fun ev => match ev with Print x => l x | _ => false end) evs).

(** File name of the artifact of variable [v] at time [t]. *)
Definition artifact_name (fmt : OutputFormat) (out v : string) (t : Timestamp) : string :=
  Str.path_join out
    (v ++ "_" ++ strftime t ++
     match fmt with raster => ".tif" | vector => "_grid.geojson" end)%string.

(** The artifacts a requested variable gives rise to: none when the dataset
    does not hold it, and none in vector mode when no cell is kept. *)
Definition expected_paths (fmt : OutputFormat) (out : string) (ds : Dataset)
    (polygons : list G) (selected : list Z) (times : list Timestamp)
    (v : string) : list string :=
  match resolve_variable ds v with
  | None => []
  | Some _ =>
      let chosen := filter (fun t => hour_selected t selected) times in
      match fmt with
      | raster => map (artifact_name raster out v) chosen
      | vector =>
          match vector_cells (longitude ds) (latitude ds) (union_all polygons) with
          | [] => []
          | _ => map (artifact_name vector out v) chosen
          end
      end
  end.

End Readings.

(** The arguments of two invocations agree on all but [--resolution]. *)
Definition differ_only_in_resolution (a1 a2 : Args) : Prop :=
  a_polygons a1 = a_polygons a2 /\ a_start a1 = a_start a2 /\
  a_end a1 = a_end a2 /\ a_hours a1 = a_hours a2 /\ a_vars a1 = a_vars a2 /\
  a_out a1 = a_out a2 /\ a_output_format a1 = a_output_format a2.

(** ** A rectilinear geometry engine

    Regions are finite unions of closed axis-parallel rectangles; on them
    every operation of [Geometry] is exact and runs. *)

Module Rect.

Record rect : Type := { minx : Q; miny : Q; maxx : Q; maxy : Q }.

Definition region : Type := list rect.

Definition nonempty (r : rect) : bool :=
  Qle_bool (minx r) (maxx r) && Qle_bool (miny r) (maxy r).

Definition meet (r s : rect) : rect :=
  {| minx := qmax (minx r) (minx s); miny := qmax (miny r) (miny s);
     maxx := qmin (maxx r) (maxx s); maxy := qmin (maxy r) (maxy s) |}.

Definition r_box (x0 y0 x1 y1 : Q) : region :=
  [ {| minx := x0; miny := y0; maxx := x1; maxy := y1 |} ].

Definition r_union_all (gs : list region) : region := concat gs.

Definition r_intersects (g h : region) : bool :=
  existsb (fun r => existsb (fun s => nonempty (meet r s)) h) g.

Definition r_intersection (g h : region) : region :=
  filter nonempty (flat_map (fun r => map (meet r) h) g).

Definition r_is_empty (g : region) : bool := negb (existsb nonempty g).

(** The rectangle [s] reaches the inside of the rectangle [r]. *)
Definition reaches_inside (r s : rect) : bool :=
  nonempty r && nonempty s
  && Qltb (minx s) (maxx r) && Qltb (minx r) (maxx s)
  && Qltb (miny s) (maxy r) && Qltb (miny r) (maxy s).

(** A pixel is burnt for a shape that reaches its inside, and not for one
    that meets it along an edge or in a corner only. *)
Definition r_touched (g h : region) : bool :=
  existsb (fun r => existsb (reaches_inside r) h) g.

Definition sort_coords (cs : list Q) : list Q :=
  map fst (sort_keys (combine cs (seq 0 (length cs)))).

Fixpoint intervals (cs : list Q) : list (Q * Q) :=
  match cs with
  | a :: (b :: _) as rest => (a, b) :: intervals rest
  | _ => []
  end.

Definition covers (g : region) (x y : Q) : bool :=
  existsb (fun r => Qle_bool (minx r) x && Qle_bool x (maxx r)
                    && Qle_bool (miny r) y && Qle_bool y (maxy r)) g.

(** The area of the union, summed over the grid cut by all edges. *)
Definition r_area (g : region) : Q :=
  let xs := intervals (sort_coords (flat_map (fun r => [minx r; maxx r]) g)) in
  let ys := intervals (sort_coords (flat_map (fun r => [miny r; maxy r]) g)) in
  fold_right Qplus 0
    (flat_map (fun xi =>
       map (fun yi =>
              if covers g ((fst xi + snd xi) / 2) ((fst yi + snd yi) / 2)
              then (snd xi - fst xi) * (snd yi - fst yi) else 0) ys) xs).

#[global] Instance rect_geometry : Geometry region := {
  box := r_box;
  union_all := r_union_all;
  intersects := r_intersects;
  intersection := r_intersection;
  is_empty := r_is_empty;
  area := r_area;
  touched := r_touched;
  no_shape_raises := false
}.

(** The same engine under a rasterizer that raises when it is given no
    shape. *)
Definition raising_geometry : Geometry region := {|
  box := r_box;
  union_all := r_union_all;
  intersects := r_intersects;
  intersection := r_intersection;
  is_empty := r_is_empty;
  area := r_area;
  touched := r_touched;
  no_shape_raises := true
|}.

End Rect.

(** ** Concrete runs *)

Module Scenario.

Import Rect.

Local Open Scope string_scope.

(** No output library fails. *)
Definition calm : Env :=
  {| overviews_raise := fun _ => false; gdal_raise := fun _ => false;
     temp_file_removed := true |}.

Definition at_hour (d h : nat) : Timestamp :=
  {| year := 2024; month := 1; day := d; hour := h; minute := 0; second := 0 |}.

(** 24 hourly steps on each of two days. *)
Definition two_days : list Timestamp :=
  map (at_hour 1) (seq 0 24) ++ map (at_hour 2) (seq 0 24).

(** A 2 x 2 grid with centres at latitudes 0, 1 and longitudes 0, 1; the
    value of a cell tells its place. *)
Definition grid_slice : array2 fval :=
  [ [Num 0; Num 1]; [Num 10; Num 11] ].

Definition hourly : Dataset :=
  {| longitude := [0; 1]; latitude := [0; 1];
     coords_time := None; coords_valid_time := Some two_days;
     data_vars := [ ("t2m", map (fun _ => grid_slice) two_days);
                    ("tp", map (fun _ => grid_slice) two_days) ] |}.

(** A small square around the cell centre (lat 0, lon 0). *)
Definition near_origin : list region := [ r_box (-(1#10)) (-(1#10)) (1#10) (1#10) ].

(** A square far from every cell. *)
Definition far_away : list region := [ r_box 50 50 51 51 ].

Definition args_of (hours vars : string) (fmt : OutputFormat) : Args :=
  {| a_polygons := "roi.geojson"; a_start := "2024-01-01"; a_end := "2024-01-02";
     a_hours := hours; a_vars := vars; a_out := "out";
     a_resolution := 1 # 10; a_output_format := fmt |}.

(** One column, two rows, as the provider sends it: latitudes descending,
    the value 7 at latitude 1 and the value 5 at latitude 0. *)
Definition from_provider : Dataset :=
  {| longitude := [0]; latitude := [1; 0];
     coords_time := Some [at_hour 1 0]; coords_valid_time := None;
     data_vars := [ ("t2m", [ [ [Num 7]; [Num 5] ] ]) ] |}.

(** The same grid once aligned: centres at latitudes 0 and 1, longitude 0. *)
Definition two_rows : Dataset :=
  {| longitude := [0]; latitude := [0; 1];
     coords_time := Some [at_hour 1 0]; coords_valid_time := None;
     data_vars := [ ("t2m", [ [ [Num 5]; [Num 7] ] ]) ] |}.

(** The axis of a request around the whole globe, which reaches half a
    degree past 180: its first and last longitudes are one turn apart. *)
Definition closed_circle : Dataset :=
  {| longitude := [-(359 # 2); 0; 361 # 2]; latitude := [0];
     coords_time := Some [at_hour 1 0]; coords_valid_time := None;
     data_vars := [ ("t2m", [ [ [Num 1; Num 2; Num 3] ] ]) ] |}.

(** An axis in the 0..360 convention. *)
Definition eastern : Dataset :=
  {| longitude := [0; 90; 270]; latitude := [0];
     coords_time := Some [at_hour 1 0]; coords_valid_time := None;
     data_vars := [ ("t2m", [ [ [Num 1; Num 2; Num 3] ] ]) ] |}.




Definition square (n : nat) : array2 fval :=
  map (fun _ => map (fun _ => Num 1) (seq 0 n)) (seq 0 n).

Definition small_mask : array2 bool :=
  [ [false; false; false; false];
    [false; true;  false; false];
    [false; false; true;  false] ].

Definition small_data : array2 nat :=
  [ [0; 1; 2; 3]; [10; 11; 12; 13]; [20; 21; 22; 23] ]%nat.

End Scenario.

Local Close Scope Q_scope.

(** ** The callers of the worker and its tables *)

(** Python's text operations that the callers use. *)
Module Text.

(** [sub in s] *)
Fixpoint contains (sub s : string) : bool :=
  String.prefix sub s ||
  match s with
  | EmptyString => false
  | String _ t => contains sub t
  end.

Definition cons_head (c : ascii) (parts : list string) : list string :=
  match parts with
  | w :: ws => String c w :: ws
  | [] => [String c EmptyString]
  end.

(** [s.split(sep)] for a non-empty string [sep], scanning from the left;
    [skip] counts the characters of a separator just found that are still
    to be passed over. *)
Fixpoint split_from (sep : string) (skip : nat) (s : string) : list string :=
  match s with
  | EmptyString => [EmptyString]
  | String c t =>
      match skip with
      | S k => split_from sep k t
      | O =>
          if String.prefix sep s
          then EmptyString :: split_from sep (String.length sep - 1) t
          else cons_head c (split_from sep 0 t)
      end
  end.

Definition split_by (sep s : string) : list string := split_from sep 0 s.

(** [s.strip()] on ASCII text: the blanks are those of [Str.is_space]. *)
Definition strip (s : string) : string := Str.rstrip (Str.lstrip s).

(** [f"{n:02d}"] *)
Definition format_02d (n : nat) : string :=
  let s := NilEmpty.string_of_uint (Nat.to_uint n) in
  if String.length s <? 2 then String "0"%char s else s.

End Text.

(** [era5_algorithm.py]: the variables the Processing algorithm offers. *)
Definition ERA5_VARIABLES : list string :=
  [ "2m_temperature"; "2m_dewpoint_temperature"; "skin_temperature";
    "soil_temperature_level_1"; "soil_temperature_level_2";
    "soil_temperature_level_3"; "soil_temperature_level_4";
    "total_precipitation"; "total_evaporation"; "potential_evaporation";
    "snowfall"; "snow_depth"; "snow_albedo"; "snow_melt";
    "volumetric_soil_water_layer_1"; "volumetric_soil_water_layer_2";
    "volumetric_soil_water_layer_3"; "volumetric_soil_water_layer_4";
    "surface_solar_radiation_downwards"; "surface_net_solar_radiation";
    "surface_thermal_radiation_downwards"; "surface_net_thermal_radiation";
    "10m_u_component_of_wind"; "10m_v_component_of_wind";
    "surface_pressure"; "leaf_area_index_high_vegetation";
    "leaf_area_index_low_vegetation"; "runoff" ]%string.

(** [d[key] = value]: the value of a key already there is replaced in
    place, a new key goes to the end. *)
Fixpoint dict_set {V} (d : list (string * V)) (key : string) (value : V)
  : list (string * V) :=
  match d with
  | [] => [(key, value)]
  | (k, v) :: rest =>
      if String.eqb k key then (k, value) :: rest
      else (k, v) :: dict_set rest key value
  end.

(** [{v: k for k, v in VARIABLE_NAME_MAP.items()}] *)
Definition VARIABLE_REVERSE_MAP : list (string * string) :=
  fold_left (fun d kv => dict_set d (snd kv) (fst kv)) VARIABLE_NAME_MAP [].

(** [",".join(hours)] with [hours = [f"{i:02d}" for i in hour_indices]], the
    value of [--hours] that [processAlgorithm] and [process_polygons] build. *)
Definition hours_argument (hour_indices : list nat) : string :=
  String.concat "," (map Text.format_02d hour_indices).

(** What [process_polygons] gathers from the worker's output. *)
Record Collected : Type := {
  raster_paths : list string;
  vector_paths : list string
}.

(** One turn of the loop that reads the worker's output: the line is
    stripped, and the text after a marker is appended to the list of the
    marker. *)
Definition read_line (acc : Collected) (line : string) : Collected :=
  let clean_line := Text.strip line in
  let acc :=
    if Text.contains "RASTER_PATH:" clean_line then
      let raster_path :=
        Text.strip (nth 1 (Text.split_by "RASTER_PATH:" clean_line) EmptyString) in
      {| raster_paths := raster_paths acc ++ [raster_path];
         vector_paths := vector_paths acc |}
    else acc in
  if Text.contains "VECTOR_PATH:" clean_line then
    let vector_path :=
      Text.strip (nth 1 (Text.split_by "VECTOR_PATH:" clean_line) EmptyString) in
    {| raster_paths := raster_paths acc;
       vector_paths := vector_paths acc ++ [vector_path] |}
  else acc.

Definition read_output (lines : list string) : Collected :=
  fold_left read_line lines {| raster_paths := []; vector_paths := [] |}.

(** The line [print(f"RASTER_PATH:{path}")] or [print(f"VECTOR_PATH:{path}")]
    puts on standard output, as [readline] returns it. *)
Definition marker_line (marker path : string) : string :=
  (marker ++ path ++ String (ascii_of_nat 10) EmptyString)%string.

(** The lines of the worker as the caller tells them apart: the two
    structured lines, and every other line by its text. *)
Inductive Printed : Type :=
| Other_line (text : string)
| Raster_line (path : string)
| Vector_line (path : string).

Definition printed_text (l : Printed) : string :=
  match l with
  | Other_line text => text
  | Raster_line path => marker_line "RASTER_PATH:" path
  | Vector_line path => marker_line "VECTOR_PATH:" path
  end.

(** Neither marker occurs in the text. *)
Definition unmarked (s : string) : Prop :=
  Text.contains "RASTER_PATH:" s = false /\
  Text.contains "VECTOR_PATH:" s = false.

Definition well_marked (l : Printed) : Prop :=
  match l with
  | Other_line s | Raster_line s | Vector_line s => unmarked s
  end.

Definition raster_lines (ls : list Printed) : list string :=
  flat_map (fun l => match l with Raster_line p => [p] | _ => [] end) ls.

Definition vector_lines (ls : list Printed) : list string :=
  flat_map (fun l => match l with Vector_line p => [p] | _ => [] end) ls.

(** [cb.text().split(":")[0]] on the label [f"{h:02d}:00"] of a checkbox,
    and [get_selected_hours] on the hours whose boxes are ticked. *)
Definition checkbox_hour (h : nat) : string :=
  nth 0 (Str.split ":"%char (Text.format_02d h ++ ":00")) EmptyString.

Definition get_selected_hours (ticked : list nat) : list string :=
  map checkbox_hour ticked.

(** [np.where(np.isnan(data), nodata_value, data)] on one value. *)
Definition fill_value (v : fval) : Q :=
  match v with
  | NaN => nodata_value
  | Num q => q
  end.

Definition is_error_line (l : Line) : bool :=
  match l with
  | Processing_error _ => true
  | _ => false
  end.

Definition is_temporary_line (l : Line) : bool :=
  match l with
  | Temporary_file_removed => true
  | _ => false
  end.

(** What the dialog keeps from the output of a worker. *)
Record DialogState : Type := {
  final_csv_path : option string;
  output_rasters : list string;
  output_vectors : list string
}.

(** One turn of the loop of [read_process_output], as far as the three
    paths go (the texts it puts on the run button are left out). *)
Definition read_process_line (st : DialogState) (line : string) : DialogState :=
  let clean_line := Text.strip line in
  let st :=
    if Text.contains "RESULT_PATH:" clean_line then
      let path_parts := Text.split_by "RESULT_PATH:" clean_line in
      if 1 <? length path_parts then
        {| final_csv_path := Some (Text.strip (nth 1 path_parts EmptyString));
           output_rasters := output_rasters st;
           output_vectors := output_vectors st |}
      else st
    else st in
  let st :=
    if Text.contains "RASTER_PATH:" clean_line then
      let path_parts := Text.split_by "RASTER_PATH:" clean_line in
      if 1 <? length path_parts then
        {| final_csv_path := final_csv_path st;
           output_rasters :=
             output_rasters st ++ [Text.strip (nth 1 path_parts EmptyString)];
           output_vectors := output_vectors st |}
      else st
    else st in
  if Text.contains "VECTOR_PATH:" clean_line then
    let path_parts := Text.split_by "VECTOR_PATH:" clean_line in
    if 1 <? length path_parts then
      {| final_csv_path := final_csv_path st;
         output_rasters := output_rasters st;
         output_vectors :=
           output_vectors st ++ [Text.strip (nth 1 path_parts EmptyString)] |}
    else st
  else st.

(** [read_process_output] over the lines of a run, from the state
    [execute_process] leaves. *)
Definition read_process_output (csv : option string) (lines : list string)
  : DialogState :=
  fold_left read_process_line lines
    {| final_csv_path := csv; output_rasters := []; output_vectors := [] |}.

(** [era5_worker.py]: the tables of the worker for points and the area of
    its request. *)
Module PointWorker.

Definition VARIABLE_NAME_MAP : list (string * string) :=
  [ ("2m_temperature", "t2m");
    ("2m_dewpoint_temperature", "d2m");
    ("skin_temperature", "skt");
    ("soil_temperature_level_1", "stl1");
    ("soil_temperature_level_2", "stl2");
    ("soil_temperature_level_3", "stl3");
    ("soil_temperature_level_4", "stl4");
    ("total_precipitation", "tp");
    ("total_evaporation", "e");
    ("potential_evaporation", "pev");
    ("snowfall", "sf");
    ("snow_depth", "sd");
    ("snow_albedo", "asn");
    ("snow_melt", "smlt");
    ("volumetric_soil_water_layer_1", "swvl1");
    ("volumetric_soil_water_layer_2", "swvl2");
    ("volumetric_soil_water_layer_3", "swvl3");
    ("volumetric_soil_water_layer_4", "swvl4");
    ("surface_solar_radiation_downwards", "ssrd");
    ("surface_net_solar_radiation", "ssr");
    ("surface_thermal_radiation_downwards", "strd");
    ("surface_net_thermal_radiation", "str");
    ("10m_u_component_of_wind", "u10");
    ("10m_v_component_of_wind", "v10");
    ("surface_pressure", "sp");
    ("leaf_area_index_high_vegetation", "lai_hv");
    ("leaf_area_index_low_vegetation", "lai_lv");
    ("runoff", "ro") ]%string.

(** [{v: k for k, v in VARIABLE_NAME_MAP.items()}] *)
Definition REVERSE_MAP : list (string * string) :=
  fold_left (fun d kv => dict_set d (snd kv) (fst kv)) VARIABLE_NAME_MAP [].

(** [[lats.max() + 0.1, lons.min() - 0.1, lats.min() - 0.1, lons.max() + 0.1]]
    for the coordinates of at least one point: north, west, south, east. *)
Definition area (lons lats : list Q) : option (Q * Q * Q * Q) :=
  match np_max lats, np_min lons, np_min lats, np_max lons with
  | Some lat_max, Some lon_min, Some lat_min, Some lon_max =>
      Some ((lat_max + (1 # 10))%Q, (lon_min - (1 # 10))%Q,
            (lat_min - (1 # 10))%Q, (lon_max + (1 # 10))%Q)
  | _, _, _, _ => None
  end.

End PointWorker.

(** [np.sum(mask)] *)
Definition polygon_pixels (mask : array2 bool) : nat :=
  count_occ bool_dec (concat mask) true.

(** The centre of pixel [(row, col)] under a transform. *)
Definition pixel_centre (t : Affine) (row col : nat) : Q * Q :=
  affine_apply t (Qnat col + (1 # 2))%Q (Qnat row + (1 # 2))%Q.

(** [c in s] for a character [c]. *)
Fixpoint has_char (c : ascii) (s : string) : bool :=
  match s with
  | EmptyString => false
  | String x t => Ascii.eqb x c || has_char c t
  end.

(** [os.path.isabs(s)] with the POSIX separator. *)
Definition is_absolute (s : string) : bool :=
  match s with
  | String "/"%char _ => true
  | _ => false
  end.

(** The fields of a time stamp are in the ranges of the calendar. *)
Definition calendar_time (t : Timestamp) : Prop :=
  year t < 100 * 100 /\ (1 <= month t <= 12) /\ (1 <= day t <= 31) /\
  hour t < 24 /\ minute t < 60.

(** Two time stamps in the same minute. *)
Definition same_minute (t1 t2 : Timestamp) : Prop :=
  year t1 = year t2 /\ month t1 = month t2 /\ day t1 = day t2 /\
  hour t1 = hour t2 /\ minute t1 = minute t2.

(** An axis as the provider sends the latitudes: from north to south. *)
Definition strictly_descending (xs : list Q) : Prop :=
  StronglySorted (fun x y => (y < x)%Q) xs.

(** [ds.isel(latitude=slice(None, None, -1))]: the grid upside down. *)
Definition reverse_latitude (ds : Dataset) : Dataset :=
  {| longitude := longitude ds;
     latitude := rev (latitude ds);
     coords_time := coords_time ds;
     coords_valid_time := coords_valid_time ds;
     data_vars :=
       map (fun '(name, slices) => (name, map (@rev (list fval)) slices))
           (data_vars ds) |}.

Section WrittenPaths.

Context {G : Type}.

(** The files a run creates, in order. *)
Definition written_paths (evs : list (Event G)) : list string :=
  flat_map (fun ev =>
              match ev with
              | Rio_open p _ => [p]
              | To_file p _ => [p]
              | _ => []
              end) evs.

(** The event is neither a line with an artifact path nor the creation of
    a file. *)
Definition silent (ev : Event G) : Prop :=
  match ev with
  | Print (RASTER_PATH _) | Print (VECTOR_PATH _) => False
  | Rio_open _ _ | To_file _ _ => False
  | _ => True
  end.

(** The columns of a layer have one length. *)
Definition aligned_columns (ev : Event G) : Prop :=
  match ev with
  | To_file _ layer =>
      length (l_values layer) = length (l_geometry layer) /\
      length (l_lat_center layer) = length (l_geometry layer) /\
      length (l_lon_center layer) = length (l_geometry layer)
  | _ => True
  end.

(** What only the vector mode produces, and what only the raster mode
    produces. *)
Definition vector_only (ev : Event G) : bool :=
  match ev with
  | To_file _ _ => true
  | Print (VECTOR_PATH _) | Print Computing_intersections
  | Print No_valid_intersections | Print (Finished_vector _) => true
  | _ => false
  end.

Definition raster_only (ev : Event G) : bool :=
  match ev with
  | Rio_open _ _ | Rio_write _ _ | Rio_set_nodata _ | Rio_build_overviews _
  | Rio_update_tags | Rio_set_band_description | Rio_close
  | Gdal_set_nodata _ _ => true
  | Print (RASTER_PATH _) | Print Overviews_failed | Print Gdal_nodata_failed
  | Print (Finished_raster _) => true
  | _ => false
  end.

Definition of_format (fmt : OutputFormat) (ev : Event G) : Prop :=
  match fmt with
  | raster => vector_only ev = false
  | vector => raster_only ev = false
  end.

(** What depends on the surroundings of the worker: the overviews, the
    GDAL pass, their warnings and the line about the temporary file. *)
Definition env_free (ev : Event G) : bool :=
  match ev with
  | Rio_build_overviews _ | Gdal_set_nodata _ _ => false
  | Print Overviews_failed | Print Gdal_nodata_failed
  | Print Temporary_file_removed => false
  | _ => true
  end.

Definition essential (evs : list (Event G)) : list (Event G) :=
  filter env_free evs.

(** Two runs that end alike and differ at most in what depends on the
    surroundings. *)
Definition same_run {A} (m1 m2 : M (Event G) A) : Prop :=
  outcome m1 = outcome m2 /\ essential (events m1) = essential (events m2).

(** The layer of one time step over the kept cells: each clipped square
    with the value of its cell in [data] and the centre of the cell. *)
Definition grid_layer (ds : Dataset) (cells : list (G * (nat * nat)))
    (var_long_name : string) (data : array2 fval) : Layer G :=
  {| l_geometry := map fst cells;
     l_value_name := var_long_name;
     l_values :=
       map (fun ij => nth (snd ij) (nth (fst ij) data []) NaN) (map snd cells);
     l_lat_center := map (fun ij => nth (fst ij) (latitude ds) 0%Q) (map snd cells);
     l_lon_center := map (fun ij => nth (snd ij) (longitude ds) 0%Q) (map snd cells) |}.

(** Every file created is announced on standard output, and nothing else
    is, in the same order. *)
Definition reported (evs : list (Event G)) : Prop :=
  written_paths evs = artifact_paths evs.

End WrittenPaths.

(** ** Vocabulary of the proofs *)

Section EffectVocabulary.

Context {E : Type}.

(** What an iteration adds to the counter, 0 when it raises. *)
Definition count_of (m : M E nat) : nat :=
  match outcome m with
  | inr n => n
  | inl _ => 0
  end.

(** Two runs that differ by one printed line [w], if at all. *)
Definition one_more_line {A} (w : E) (longer shorter : M E A) : Prop :=
  outcome longer = outcome shorter /\
  ((exists pre post,
       events shorter = pre ++ post /\ events longer = pre ++ w :: post)
   \/ (events longer = events shorter /\ exists e, outcome shorter = inl e)).

End EffectVocabulary.

(** Order of keyed entries. *)
Definition key_le (p q : Q * nat) : Prop := (fst p <= fst q)%Q.

(** The three ways a dataset leaves an alignment step. *)
Inductive realigned (ds : Dataset) : Dataset -> Prop :=
| realigned_same : realigned ds ds
| realigned_lon f : realigned ds (sortby_longitude (assign_longitude f ds))
| realigned_lat : realigned ds (sortby_latitude ds).

(** The last line of a run. *)
Definition finished_line (fmt : OutputFormat) (n : nat) : Line :=
  match fmt with
  | vector => Finished_vector n
  | raster => Finished_raster n
  end.

Section EventVocabulary.

Context {G : Type} `{Geometry G}.

(** What a layer of the aligned grid [ds] holds besides the values. *)
Definition layer_of_grid (ds : Dataset) (polygons : list G) (layer : Layer G) : Prop :=
  let cells := vector_cells (longitude ds) (latitude ds) (union_all polygons) in
  l_geometry layer = map fst cells /\
  l_lat_center layer = map (fun ij => nth (fst ij) (latitude ds) 0%Q) (map snd cells) /\
  l_lon_center layer = map (fun ij => nth (snd ij) (longitude ds) 0%Q) (map snd cells).

Definition layers_of_grid (ds : Dataset) (polygons : list G) (ev : Event G) : Prop :=
  match ev with
  | To_file _ layer => layer_of_grid ds polygons layer
  | _ => True
  end.

(** No printed line of the event satisfies [f]. *)
Definition no_line (f : Line -> bool) (ev : Event G) : Prop :=
  match ev with
  | Print l => f l = false
  | _ => True
  end.



End EventVocabulary.

(** * Properties *)

Arguments strftime : simpl never.
Arguments Str.path_join : simpl never.
Arguments String.append : simpl never.
Arguments axis_resolution : simpl never.
Arguments Float32.of_Q : simpl never.

(** The sentinel is a float32: the cast leaves it as it is. *)
Lemma float32_nodata : Float32.of_Q nodata_value = F32 nodata_value.
Proof. vm_compute. reflexivity. Qed.

(** ** Facts on the array helpers *)

Section ArrayFacts.

Lemma any_true_iff (v : list bool) :
  any v = true <-> exists k, nth k v false = true.
Proof.
  unfold any. rewrite existsb_exists. split.
  - intros [b [Hin Hb]]. subst b.
    destruct (In_nth _ _ false Hin) as [k [_ Hk]]. eauto.
  - intros [k Hk]. exists true. split; [|reflexivity].
    destruct (Nat.lt_ge_cases k (length v)) as [Hlt|Hge].
    + rewrite <- Hk. now apply nth_In.
    + rewrite nth_overflow in Hk by assumption. discriminate.
Qed.

Lemma any_false_iff (v : list bool) :
  any v = false <-> forall k, nth k v false = false.
Proof.
  split.
  - intros H k. destruct (nth k v false) eqn:E; [|reflexivity].
    assert (any v = true) by (apply any_true_iff; eauto). congruence.
  - intros H. destruct (any v) eqn:E; [|reflexivity].
    apply any_true_iff in E. destruct E as [k Hk]. rewrite H in Hk. discriminate.
Qed.

(** The first True of a vector that has one. *)
Lemma argmax_first (v : list bool) :
  any v = true ->
  argmax v < length v /\ nth (argmax v) v false = true /\
  forall k, k < argmax v -> nth k v false = false.
Proof.
  induction v as [|b t IH]; simpl; [discriminate|].
  destruct b; simpl.
  - intros _. repeat split; [lia | intros k Hk; lia].
  - intros Ht. fold (any t) in *. rewrite Ht.
    destruct (IH Ht) as [Hlt [Hnth Hbefore]].
    repeat split; [lia | assumption |].
    intros [|k] Hk; [reflexivity | apply Hbefore; lia].
Qed.

Lemma any_rev (v : list bool) : any (rev v) = any v.
Proof.
  unfold any. apply eq_true_iff_eq. rewrite !existsb_exists.
  split; intros [b [Hin Hb]]; exists b; split; try assumption.
  - now apply in_rev.
  - now apply in_rev in Hin.
Qed.

(** The end of the range found on the reversed vector: one past the last True. *)
Lemma argmax_rev_last (v : list bool) :
  any v = true ->
  let e := length v - argmax (rev v) in
  0 < e <= length v /\ nth (e - 1) v false = true /\
  forall k, e <= k -> nth k v false = false.
Proof.
  intros Hany e.
  assert (Hr : any (rev v) = true) by now rewrite any_rev.
  destruct (argmax_first _ Hr) as [Hlt [Hnth Hbefore]].
  rewrite length_rev in Hlt.
  assert (He : 0 < e <= length v) by (unfold e; lia).
  split; [exact He|]. split.
  - rewrite rev_nth in Hnth by lia.
    replace (e - 1) with (length v - S (argmax (rev v))) by (unfold e; lia).
    exact Hnth.
  - intros k Hk.
    destruct (Nat.lt_ge_cases k (length v)) as [Hkl|Hkl];
      [|now apply nth_overflow].
    specialize (Hbefore (length v - S k)).
    rewrite rev_nth in Hbefore by lia.
    replace (length v - S (length v - S k)) with k in Hbefore by lia.
    apply Hbefore. unfold e in Hk. lia.
Qed.

Lemma nth_map_lt {A B} (f : A -> B) (l : list A) (k : nat) (d : B) (d' : A) :
  k < length l -> nth k (map f l) d = f (nth k l d').
Proof.
  revert k. induction l as [|x l IH]; intros [|k] Hk; simpl in *;
    try lia; [reflexivity | apply IH; lia].
Qed.

Lemma nth_any_axis1 (a : array2 bool) (r : nat) :
  nth r (any_axis1 a) false = true <-> exists c, cell a r c = true.
Proof.
  unfold any_axis1, cell.
  destruct (Nat.lt_ge_cases r (length a)) as [Hlt|Hge].
  - rewrite (nth_map_lt any a false [] Hlt). apply any_true_iff.
  - rewrite nth_overflow by (rewrite length_map; exact Hge).
    rewrite (nth_overflow a) by exact Hge.
    split; [discriminate|]. intros [c Hc]. destruct c; discriminate.
Qed.

Lemma ncols_shape {A} (h w : nat) (a : array2 A) :
  has_shape h w a -> a <> [] -> ncols a = w.
Proof.
  intros [_ Hall] Hne. destruct a as [|row rest]; [congruence|].
  simpl. now inversion Hall.
Qed.

Lemma cell_true_in_shape (h w : nat) (a : array2 bool) (r c : nat) :
  has_shape h w a -> cell a r c = true -> r < h /\ c < w.
Proof.
  intros [Hlen Hall] Hc. unfold cell in Hc.
  destruct (Nat.lt_ge_cases r (length a)) as [Hr|Hr].
  - split; [lia|].
    rewrite Forall_forall in Hall.
    specialize (Hall (nth r a []) (nth_In _ _ Hr)).
    destruct (Nat.lt_ge_cases c w) as [Hcw|Hcw]; [assumption|].
    rewrite nth_overflow in Hc by lia. discriminate.
  - rewrite (nth_overflow a) in Hc by exact Hr. destruct c; discriminate.
Qed.

Lemma nth_any_axis0 (h w : nat) (a : array2 bool) (c : nat) :
  has_shape h w a ->
  (nth c (any_axis0 a) false = true <-> exists r, cell a r c = true).
Proof.
  intros Hs. unfold any_axis0.
  destruct a as [|row rest] eqn:Ea.
  - simpl. split.
    + destruct c; discriminate.
    + intros [r Hr]. unfold cell in Hr. destruct r, c; discriminate.
  - rewrite <- Ea in *.
    assert (Hw : ncols a = w) by (apply (ncols_shape Hs); congruence).
    rewrite Hw.
    destruct (Nat.lt_ge_cases c w) as [Hc|Hc].
    + rewrite (nth_map_lt _ (seq 0 w) false 0)
        by (rewrite length_seq; exact Hc).
      rewrite seq_nth by exact Hc. simpl.
      rewrite existsb_exists. unfold cell. split.
      * intros [rw [Hin Hrw]].
        destruct (In_nth _ _ [] Hin) as [r [_ Hr]].
        exists r. now rewrite Hr.
      * intros [r Hr]. exists (nth r a []). split; [|exact Hr].
        apply nth_In.
        destruct (Nat.lt_ge_cases r (length a)); [assumption|].
        rewrite (nth_overflow a) in Hr by assumption.
        destruct c; discriminate.
    + rewrite nth_overflow by (rewrite length_map, length_seq; exact Hc).
      split; [discriminate|].
      intros [r Hr]. destruct (cell_true_in_shape _ _ Hs Hr). lia.
Qed.

Lemma length_any_axis0 (h w : nat) (a : array2 bool) :
  has_shape h w a -> a <> [] -> length (any_axis0 a) = w.
Proof.
  intros Hs Hne. unfold any_axis0.
  now rewrite length_map, length_seq, (ncols_shape Hs Hne).
Qed.

(** A mask with a True cell has a flagged row and a flagged column. *)
Lemma flags_of_true_cell (h w : nat) (mask : array2 bool) (r c : nat) :
  has_shape h w mask -> cell mask r c = true ->
  any (any_axis1 mask) = true /\ any (any_axis0 mask) = true.
Proof.
  intros Hs Hc. split; apply any_true_iff.
  - exists r. apply nth_any_axis1. eauto.
  - exists c. apply (nth_any_axis0 c Hs). eauto.
Qed.

(** A mask without True cells has no flagged row. *)
Lemma no_flag_of_false_mask (mask : array2 bool) :
  (forall r c, cell mask r c = false) -> any (any_axis1 mask) = false.
Proof.
  intros Hall. apply any_false_iff. intros r.
  destruct (nth r (any_axis1 mask) false) eqn:E; [|reflexivity].
  apply nth_any_axis1 in E. destruct E as [c Hc].
  rewrite Hall in Hc. discriminate.
Qed.

Lemma map2_firstn {A B C} (f : A -> B -> C) (n : nat) :
  forall u v, firstn n (map2 f u v) = map2 f (firstn n u) (firstn n v).
Proof.
  induction n as [|n IH]; intros [|x u] [|y v]; simpl; try reflexivity.
  now rewrite IH.
Qed.

Lemma map2_skipn {A B C} (f : A -> B -> C) (n : nat) :
  forall u v, skipn n (map2 f u v) = map2 f (skipn n u) (skipn n v).
Proof.
  induction n as [|n IH]; intros [|x u] [|y v]; simpl; try reflexivity.
  - now destruct (skipn n u).
  - apply IH.
Qed.

Lemma map2_slice {A B C} (f : A -> B -> C) (s e : nat) u v :
  slice s e (map2 f u v) = map2 f (slice s e u) (slice s e v).
Proof. unfold slice. now rewrite map2_skipn, map2_firstn. Qed.

(** Slicing commutes with [np.where]. *)
Lemma where_slice2 {A} (rs re cs ce : nat) (cond : array2 bool)
    (a : array2 A) (other : A) :
  slice2 rs re cs ce (np_where cond a other)
  = np_where (slice2 rs re cs ce cond) (slice2 rs re cs ce a) other.
Proof.
  unfold slice2, np_where. rewrite map2_slice.
  generalize (slice rs re cond) (slice rs re a).
  induction l as [|x u IH]; intros [|y v]; simpl; try reflexivity.
  now rewrite map2_slice, IH.
Qed.

End ArrayFacts.

(** ** The bounding clipper *)

Section Clip.

Context {V C : Type}.

Lemma clip_of_flagged (data : array2 V) (mask : array2 bool) (lons lats : list C) :
  any (any_axis1 mask) = true -> any (any_axis0 mask) = true ->
  clip_to_polygon_bounds data mask lons lats =
    (slice2 (argmax (any_axis1 mask))
            (length (any_axis1 mask) - argmax (rev (any_axis1 mask)))
            (argmax (any_axis0 mask))
            (length (any_axis0 mask) - argmax (rev (any_axis0 mask))) data,
     slice2 (argmax (any_axis1 mask))
            (length (any_axis1 mask) - argmax (rev (any_axis1 mask)))
            (argmax (any_axis0 mask))
            (length (any_axis0 mask) - argmax (rev (any_axis0 mask))) mask,
     slice (argmax (any_axis0 mask))
           (length (any_axis0 mask) - argmax (rev (any_axis0 mask))) lons,
     slice (argmax (any_axis1 mask))
           (length (any_axis1 mask) - argmax (rev (any_axis1 mask))) lats).
Proof.
  intros Hr Hc. unfold clip_to_polygon_bounds. now rewrite Hr, Hc.
Qed.

Lemma clip_of_unflagged (data : array2 V) (mask : array2 bool) (lons lats : list C) :
  any (any_axis1 mask) = false ->
  clip_to_polygon_bounds data mask lons lats = (data, mask, lons, lats).
Proof.
  intros Hr. unfold clip_to_polygon_bounds. now rewrite Hr.
Qed.

(** The rows and columns the clipper keeps, for a mask with a True cell. *)
Lemma clip_bounds (mask : array2 bool) (h w : nat) :
  has_shape h w mask ->
  (exists r c, cell mask r c = true) ->
  let r0 := argmax (any_axis1 mask) in
  let r1 := length (any_axis1 mask) - argmax (rev (any_axis1 mask)) in
  let c0 := argmax (any_axis0 mask) in
  let c1 := length (any_axis0 mask) - argmax (rev (any_axis0 mask)) in
  r0 < r1 <= h /\ c0 < c1 <= w /\
  (forall r c, cell mask r c = true -> r0 <= r < r1 /\ c0 <= c < c1) /\
  (exists c, cell mask r0 c = true) /\ (exists c, cell mask (r1 - 1) c = true) /\
  (exists r, cell mask r c0 = true) /\ (exists r, cell mask r (c1 - 1) = true).
Proof.
  intros Hs [r [c Hrc]] r0 r1 c0 c1.
  destruct (flags_of_true_cell _ _ Hs Hrc) as [Hrows Hcols].
  destruct (argmax_first _ Hrows) as [Hr0 [Hr0t Hr0b]].
  destruct (argmax_rev_last _ Hrows) as [Hr1 [Hr1t Hr1a]].
  destruct (argmax_first _ Hcols) as [Hc0 [Hc0t Hc0b]].
  destruct (argmax_rev_last _ Hcols) as [Hc1 [Hc1t Hc1a]].
  fold r0 in Hr0, Hr0t, Hr0b. fold r1 in Hr1, Hr1t, Hr1a.
  fold c0 in Hc0, Hc0t, Hc0b. fold c1 in Hc1, Hc1t, Hc1a.
  assert (Hne : mask <> []).
  { intros ->. unfold cell in Hrc. destruct r, c; discriminate. }
  assert (Hlr : length (any_axis1 mask) = h).
  { unfold any_axis1. rewrite length_map. apply Hs. }
  assert (Hlc : length (any_axis0 mask) = w) by exact (length_any_axis0 Hs Hne).
  assert (Hin : forall r c, cell mask r c = true -> r0 <= r < r1 /\ c0 <= c < c1).
  { intros r' c' H'.
    assert (Hrow : nth r' (any_axis1 mask) false = true)
      by (apply nth_any_axis1; eauto).
    assert (Hcol : nth c' (any_axis0 mask) false = true)
      by (apply (nth_any_axis0 c' Hs); eauto).
    repeat split.
    - destruct (Nat.le_gt_cases r0 r') as [|Hlt]; [assumption|].
      rewrite (Hr0b _ Hlt) in Hrow. discriminate.
    - destruct (Nat.lt_ge_cases r' r1) as [|Hge]; [assumption|].
      rewrite (Hr1a _ Hge) in Hrow. discriminate.
    - destruct (Nat.le_gt_cases c0 c') as [|Hlt]; [assumption|].
      rewrite (Hc0b _ Hlt) in Hcol. discriminate.
    - destruct (Nat.lt_ge_cases c' c1) as [|Hge]; [assumption|].
      rewrite (Hc1a _ Hge) in Hcol. discriminate. }
  assert (Hr01 : r0 < r1).
  { destruct (nth_any_axis1 mask r0) as [Hex _].
    destruct (Hex Hr0t) as [c' Hc']. destruct (Hin _ _ Hc'). lia. }
  assert (Hc01 : c0 < c1).
  { destruct (nth_any_axis0 c0 Hs) as [Hex _].
    destruct (Hex Hc0t) as [r' Hr']. destruct (Hin _ _ Hr'). lia. }
  split; [lia|]. split; [lia|]. split; [exact Hin|].
  split; [now apply nth_any_axis1|].
  split; [now apply nth_any_axis1|].
  split; [now apply (nth_any_axis0 c0 Hs) | now apply (nth_any_axis0 (c1 - 1) Hs)].
Qed.

(** C3. For a data slice and a mask of one shape with a True cell,
    [clip_to_polygon_bounds] returns the rows [r0, r1) and columns [c0, c1)
    of data and mask together with [lons[c0:c1]] and [lats[r0:r1]], where
    the rectangle holds every True cell and is inside every rectangle that
    does (the minimal bounding rectangle); for a mask without True cells it
    returns data, mask and both coordinate vectors as they are. *)
Theorem clip_to_polygon_bounds_minimal_rectangle :
  forall (data : array2 V) (mask : array2 bool) (lons lats : list C) (h w : nat),
    has_shape h w data -> has_shape h w mask ->
    ((exists r c, cell mask r c = true) ->
     exists r0 r1 c0 c1,
       r0 < r1 <= h /\ c0 < c1 <= w /\
       clip_to_polygon_bounds data mask lons lats =
         (slice2 r0 r1 c0 c1 data, slice2 r0 r1 c0 c1 mask,
          slice c0 c1 lons, slice r0 r1 lats) /\
       (forall r c, cell mask r c = true -> r0 <= r < r1 /\ c0 <= c < c1) /\
       (forall r0' r1' c0' c1',
           (forall r c, cell mask r c = true ->
                        r0' <= r < r1' /\ c0' <= c < c1') ->
           r0' <= r0 /\ r1 <= r1' /\ c0' <= c0 /\ c1 <= c1'))
    /\
    ((forall r c, cell mask r c = false) ->
     clip_to_polygon_bounds data mask lons lats = (data, mask, lons, lats)).
Proof.
  intros data mask lons lats h w _ Hm. split.
  - intros Hex.
    destruct (clip_bounds Hm Hex)
      as [Hr [Hc [Hin [[ca Ha] [[cb Hb] [[rc Hcc] [rd Hd]]]]]]].
    destruct Hex as [r [c Hrc]].
    destruct (flags_of_true_cell _ _ Hm Hrc) as [Hrows Hcols].
    do 4 eexists. split; [exact Hr|]. split; [exact Hc|].
    split; [exact (clip_of_flagged data mask lons lats Hrows Hcols)|].
    split; [exact Hin|].
    intros r0' r1' c0' c1' Hall.
    pose proof (Hall _ _ Ha). pose proof (Hall _ _ Hb).
    pose proof (Hall _ _ Hcc). pose proof (Hall _ _ Hd). lia.
  - intros Hall. apply clip_of_unflagged. now apply no_flag_of_false_mask.
Qed.

(** C4. For a data slice and a mask of one shape, clipping both and then
    putting the sentinel where the clipped mask is False gives the array
    obtained by putting the sentinel where the mask is False and clipping
    the result. *)
Theorem clip_then_mask_eq_mask_then_clip :
  forall (data : array2 V) (mask : array2 bool) (lons lats : list C)
         (sentinel : V) (h w : nat),
    has_shape h w data -> has_shape h w mask ->
    let '(clipped_data, clipped_mask, _, _) :=
      clip_to_polygon_bounds data mask lons lats in
    let '(clipped_masked, _, _, _) :=
      clip_to_polygon_bounds (np_where mask data sentinel) mask lons lats in
    np_where clipped_mask clipped_data sentinel = clipped_masked.
Proof.
  intros data mask lons lats sentinel h w _ _.
  unfold clip_to_polygon_bounds.
  destruct (negb (any (any_axis1 mask)) || negb (any (any_axis0 mask)));
    [reflexivity|].
  symmetry. apply where_slice2.
Qed.

End Clip.

(** The clipper on a 3 x 4 mask with True cells at (1,1) and (2,2). *)
Lemma clip_to_polygon_bounds_minimal_rectangle_witness :
  exists r0 r1 c0 c1,
    r0 < r1 <= 3 /\ c0 < c1 <= 4 /\
    clip_to_polygon_bounds Scenario.small_data Scenario.small_mask
        [0; 1; 2; 3] [0; 1; 2] =
      (slice2 r0 r1 c0 c1 Scenario.small_data,
       slice2 r0 r1 c0 c1 Scenario.small_mask,
       slice c0 c1 [0; 1; 2; 3], slice r0 r1 [0; 1; 2]) /\
    (forall r c, cell Scenario.small_mask r c = true ->
                 r0 <= r < r1 /\ c0 <= c < c1) /\
    (forall r0' r1' c0' c1',
        (forall r c, cell Scenario.small_mask r c = true ->
                     r0' <= r < r1' /\ c0' <= c < c1') ->
        r0' <= r0 /\ r1 <= r1' /\ c0' <= c0 /\ c1 <= c1').
Proof.
  apply (proj1 (@clip_to_polygon_bounds_minimal_rectangle nat nat
                  Scenario.small_data Scenario.small_mask
                  [0; 1; 2; 3] [0; 1; 2] 3 4
                  ltac:(split; [reflexivity | repeat constructor])
                  ltac:(split; [reflexivity | repeat constructor]))).
  exists 1, 1. reflexivity.
Defined.

Lemma clip_then_mask_eq_mask_then_clip_witness :
  np_where [[true; false]; [false; true]] [[11; 12]; [21; 22]] 0
  = [[11; 0]; [0; 22]].
Proof.
  exact (@clip_then_mask_eq_mask_then_clip nat nat
           Scenario.small_data Scenario.small_mask
           [0; 1; 2; 3] [0; 1; 2] 0 3 4
           ltac:(split; [reflexivity | repeat constructor])
           ltac:(split; [reflexivity | repeat constructor])).
Defined.

(** ** The raster emitter *)

Section RasterEmitter.

Context {G : Type} `{Geometry G}.

Lemma np_min_nonempty (xs : list Q) : xs <> [] -> exists m, np_min xs = Some m.
Proof. destruct xs; [congruence | simpl; eauto]. Qed.

Lemma np_max_nonempty (xs : list Q) : xs <> [] -> exists m, np_max xs = Some m.
Proof. destruct xs; [congruence | simpl; eauto]. Qed.

(** Levels kept by the loop over [2, 4, 8, 16, 32]. *)
Lemma overview_level_kept (m level : nat) :
  In level (filter (fun level => level <? m / 2) [2; 4; 8; 16; 32]) <->
  In level [2; 4; 8; 16; 32] /\ 2 * level + 2 <= m.
Proof.
  rewrite filter_In, Nat.ltb_lt.
  assert (level < m / 2 <-> 2 * level + 2 <= m).
  { split; intros Hl.
    - pose proof (Nat.div_mod_eq m 2).
      pose proof (Nat.mod_upper_bound m 2). lia.
    - apply Nat.div_le_lower_bound with (b := 2); lia. }
  tauto.
Qed.

(** What one call of [save_raster] does, for non-empty coordinate vectors. *)
Lemma save_raster_run (env : Env) (data : array2 fval) (output_path : string)
    (lons lats : list Q) (lon_min lat_max : Q) :
  np_min lons = Some lon_min -> np_max lats = Some lat_max ->
  let h := length data in
  let w := ncols data in
  let m := Nat.min h w in
  save_raster (G := G) env data output_path lons lats =
    ([ Rio_open output_path
         {| p_height := h; p_width := w;
            p_transform :=
              from_origin (lon_min - axis_resolution lons / 2)%Q
                          (lat_max + axis_resolution lats / 2)%Q
                          (axis_resolution lons) (axis_resolution lats);
            p_nodata := nodata_value;
            p_tiled := 256 <=? m;
            p_blockxsize := if 256 <=? m then Some (Nat.min 256 w) else None;
            p_blockysize := if 256 <=? m then Some (Nat.min 256 h) else None |};
       Rio_write 1
         (map (map (fun v => Float32.of_Q match v with
                             | NaN => nodata_value
                             | Num q => q
                             end)) data);
       Rio_set_nodata nodata_value ]
     ++ (if 16 <? m then
           if overviews_raise env output_path then [Print Overviews_failed]
           else [Rio_build_overviews
                   (filter (fun level => level <? m / 2) [2; 4; 8; 16; 32])]
         else [])
     ++ [ Rio_update_tags; Rio_set_band_description; Rio_close ]
     ++ (if gdal_raise env output_path then [Print Gdal_nodata_failed]
         else [Gdal_set_nodata output_path nodata_value]),
     inr tt).
Proof.
  intros Hmin Hmax h w m.
  unfold save_raster. rewrite Hmin, Hmax.
  fold h w m.
  set (levels := filter (fun level => level <? m / 2) [2; 4; 8; 16; 32]).
  assert (Hgate : negb (length levels =? 0) && (16 <? m) = (16 <? m)).
  { destruct (16 <? m) eqn:E; [|now rewrite andb_false_r].
    rewrite andb_true_r. apply Nat.ltb_lt in E.
    assert (Hin : In 2 levels) by (apply overview_level_kept; simpl; lia).
    destruct levels; [destruct Hin | reflexivity]. }
  rewrite Hgate.
  destruct (16 <? m); destruct (overviews_raise env output_path);
    destruct (gdal_raise env output_path); reflexivity.
Qed.

(** C9 (as the code has it). For data of height [h] and width [w] and
    non-empty coordinate vectors, [save_raster] opens the file with the
    sentinel -9999 as NoData and a tiled layout exactly when
    [min h w >= 256], writes the band with NaN replaced by the sentinel and
    every value rounded to float32, and sets NoData on the band; it builds overviews only when [min h w > 16],
    then at exactly the levels [L] of 2, 4, 8, 16, 32 with
    [L < (min h w) / 2] in whole numbers, i.e. [2 L + 2 <= min h w]; and
    after the file is closed the GDAL pass sets the same sentinel again,
    unless that pass raises, which only prints a warning. *)
Theorem save_raster_layout :
  forall (env : Env) (data : array2 fval) (output_path : string)
         (lons lats : list Q),
    lons <> [] -> lats <> [] ->
    let h := length data in
    let w := ncols data in
    let m := Nat.min h w in
    let levels := filter (fun level => level <? m / 2) [2; 4; 8; 16; 32] in
    (forall level,
        In level levels <-> In level [2; 4; 8; 16; 32] /\ 2 * level + 2 <= m) /\
    exists transform,
      save_raster (G := G) env data output_path lons lats =
        ([ Rio_open output_path
             {| p_height := h; p_width := w; p_transform := transform;
                p_nodata := nodata_value;
                p_tiled := 256 <=? m;
                p_blockxsize := if 256 <=? m then Some (Nat.min 256 w) else None;
                p_blockysize := if 256 <=? m then Some (Nat.min 256 h) else None |};
           Rio_write 1
             (map (map (fun v => Float32.of_Q match v with
                                 | NaN => nodata_value
                                 | Num q => q
                                 end)) data);
           Rio_set_nodata nodata_value ]
         ++ (if 16 <? m then
               if overviews_raise env output_path then [Print Overviews_failed]
               else [Rio_build_overviews levels]
             else [])
         ++ [ Rio_update_tags; Rio_set_band_description; Rio_close ]
         ++ (if gdal_raise env output_path then [Print Gdal_nodata_failed]
             else [Gdal_set_nodata output_path nodata_value]),
         inr tt).
Proof.
  intros env data output_path lons lats Hlons Hlats h w m levels.
  split; [intros level; apply overview_level_kept|].
  destruct (np_min_nonempty Hlons) as [lon_min Hmin].
  destruct (np_max_nonempty Hlats) as [lat_max Hmax].
  eexists. exact (save_raster_run env data output_path lons lats Hmin Hmax).
Qed.

End RasterEmitter.

Lemma save_raster_layout_witness :
  exists transform,
    save_raster (G := Rect.region) Scenario.calm (Scenario.square 20) "x.tif"
        [0%Q; 1%Q] [0%Q; 1%Q] =
      ([ Rio_open "x.tif"
           {| p_height := 20; p_width := 20; p_transform := transform;
              p_nodata := nodata_value; p_tiled := false;
              p_blockxsize := None; p_blockysize := None |};
         Rio_write 1 (map (map (fun _ => F32 1)) (Scenario.square 20));
         Rio_set_nodata nodata_value;
         Rio_build_overviews [2; 4; 8];
         Rio_update_tags; Rio_set_band_description; Rio_close;
         Gdal_set_nodata "x.tif" nodata_value ],
       inr tt).
Proof.
  destruct (@save_raster_layout Rect.region Scenario.calm
              (Scenario.square 20) "x.tif"%string [0%Q; 1%Q] [0%Q; 1%Q]
              ltac:(discriminate) ltac:(discriminate)) as [_ [transform Heq]].
  exists transform. exact Heq.
Defined.

(** On a 10 x 10 array the levels below half the smaller side are 2 and 4,
    and [save_raster] builds no overview at all. *)
Lemma save_raster_small_array_has_no_overviews :
  filter (fun level => 2 * level <? Nat.min 10 10) [2; 4; 8; 16; 32] = [2; 4] /\
  forall levels,
    ~ In (Rio_build_overviews levels)
         (events (save_raster (G := Rect.region) Scenario.calm
                    (Scenario.square 10) "x.tif" [0%Q; 1%Q] [0%Q; 1%Q])).
Proof.
  split; [reflexivity|].
  intros levels Hin. vm_compute in Hin.
  repeat (destruct Hin as [Hin|Hin]; [discriminate Hin|]). exact Hin.
Qed.

(** ** The resolution argument *)

(** C10. Two invocations whose arguments differ only in [--resolution]
    print and write exactly the same: [main] never reads the argument, and
    the cell size of an axis of length one (or zero) is the constant 0.1. *)
Theorem resolution_argument_is_ignored :
  forall (G : Type) (geo : Geometry G) (env : Env) (a1 a2 : Args)
         (polygons : list G) (raw : Dataset),
    differ_only_in_resolution a1 a2 ->
    main env a1 polygons raw = main env a2 polygons raw /\
    (forall x, axis_resolution [x] = (1 # 10)%Q) /\
    axis_resolution [] = (1 # 10)%Q.
Proof.
  intros G geo env a1 a2 polygons raw (_ & _ & _ & Hh & Hv & Ho & Hf).
  split; [|split; reflexivity].
  unfold main. now rewrite Hh, Hv, Ho, Hf.
Qed.

Lemma resolution_argument_is_ignored_witness :
  main Scenario.calm
    {| a_polygons := "roi.geojson"; a_start := "2024-01-01";
       a_end := "2024-01-02"; a_hours := "00"; a_vars := "2m_temperature";
       a_out := "out"; a_resolution := (1 # 10)%Q; a_output_format := raster |}
    Scenario.near_origin Scenario.two_rows
  = main Scenario.calm
    {| a_polygons := "roi.geojson"; a_start := "2024-01-01";
       a_end := "2024-01-02"; a_hours := "00"; a_vars := "2m_temperature";
       a_out := "out"; a_resolution := (5 # 1)%Q; a_output_format := raster |}
    Scenario.near_origin Scenario.two_rows.
Proof.
  apply (@resolution_argument_is_ignored Rect.region Rect.rect_geometry).
  repeat split.
Defined.

(** ** The grid aligner *)

Section AxisFacts.

Local Open Scope Q_scope.

Lemma Qltb_lt (x y : Q) : Qltb x y = true <-> x < y.
Proof.
  unfold Qltb. rewrite negb_true_iff.
  split.
  - intros Hb. apply Qnot_le_lt. intros Hle.
    apply Qle_bool_iff in Hle. congruence.
  - intros Hlt. destruct (Qle_bool y x) eqn:E; [|reflexivity].
    apply Qle_bool_iff in E. exfalso. exact (Qlt_not_le _ _ Hlt E).
Qed.

Lemma Qltb_ge (x y : Q) : Qltb x y = false <-> y <= x.
Proof.
  unfold Qltb. rewrite negb_false_iff. apply Qle_bool_iff.
Qed.

Lemma Qle_bool_false (x y : Q) : Qle_bool x y = false -> y < x.
Proof.
  intros Hb. apply Qnot_le_lt. intros Hle.
  apply Qle_bool_iff in Hle. congruence.
Qed.

(** The largest entry is an entry and bounds all of them. *)
Lemma fold_qmax_spec (rest : list Q) :
  forall x, In (fold_left qmax rest x) (x :: rest) /\
            Forall (fun y => y <= fold_left qmax rest x) (x :: rest).
Proof.
  induction rest as [|y rest IH]; intros x; simpl.
  - split; [now left|]. constructor; [apply Qle_refl | constructor].
  - destruct (IH (qmax x y)) as [Hin Hall].
    inversion Hall as [|? ? Hhead Htail]; subst.
    unfold qmax in *. destruct (Qle_bool x y) eqn:E.
    + apply Qle_bool_iff in E. split.
      * simpl in Hin. tauto.
      * constructor; [eapply Qle_trans; eassumption|].
        constructor; assumption.
    + apply Qle_bool_false in E. split.
      * simpl in Hin. destruct Hin as [Hin|Hin]; [now left | now right; right].
      * constructor; [assumption|].
        constructor; [|assumption].
        eapply Qle_trans; [apply Qlt_le_weak; exact E | exact Hhead].
Qed.

Lemma fold_qmin_spec (rest : list Q) :
  forall x, In (fold_left qmin rest x) (x :: rest) /\
            Forall (fun y => fold_left qmin rest x <= y) (x :: rest).
Proof.
  induction rest as [|y rest IH]; intros x; simpl.
  - split; [now left|]. constructor; [apply Qle_refl | constructor].
  - destruct (IH (qmin x y)) as [Hin Hall].
    inversion Hall as [|? ? Hhead Htail]; subst.
    unfold qmin in *. destruct (Qle_bool x y) eqn:E.
    + apply Qle_bool_iff in E. split.
      * simpl in Hin. destruct Hin as [Hin|Hin]; [now left | now right; right].
      * constructor; [assumption|].
        constructor; [|assumption].
        eapply Qle_trans; [exact Hhead | exact E].
    + apply Qle_bool_false in E. split.
      * simpl in Hin. tauto.
      * constructor; [|constructor; assumption].
        eapply Qle_trans; [exact Hhead | apply Qlt_le_weak; exact E].
Qed.

Lemma np_max_spec (xs : list Q) (m : Q) :
  np_max xs = Some m -> In m xs /\ Forall (fun y => y <= m) xs.
Proof.
  destruct xs as [|x rest]; simpl; [discriminate|].
  intros [= <-]. apply fold_qmax_spec.
Qed.

Lemma np_min_spec (xs : list Q) (m : Q) :
  np_min xs = Some m -> In m xs /\ Forall (fun y => m <= y) xs.
Proof.
  destruct xs as [|x rest]; simpl; [discriminate|].
  intros [= <-]. apply fold_qmin_spec.
Qed.

(** Python's remainder by 360 lies in [0, 360). *)
Lemma py_mod_360_range (x : Q) : 0 <= py_mod x 360 /\ py_mod x 360 < 360.
Proof.
  unfold py_mod.
  pose proof (Qfloor_le (x / 360)) as Hlo.
  pose proof (Qlt_floor (x / 360)) as Hhi.
  rewrite inject_Z_plus in Hhi.
  assert (Hx : x == 360 * (x / 360)) by (field).
  set (f := inject_Z (Qfloor (x / 360))) in *.
  change (inject_Z 1) with 1 in Hhi.
  split; lra.
Qed.

Lemma wrap_longitude_range (lon : Q) :
  -180 <= wrap_longitude lon /\ wrap_longitude lon < 180.
Proof.
  unfold wrap_longitude.
  destruct (py_mod_360_range (lon + 180)). split; lra.
Qed.

(** Two longitudes with one image are a whole number of turns apart. *)
Lemma wrap_longitude_eq (x y : Q) :
  wrap_longitude x == wrap_longitude y ->
  exists k : Z, y - x == 360 * inject_Z k.
Proof.
  unfold wrap_longitude, py_mod. intros Heq.
  exists (Qfloor ((y + 180) / 360) + - Qfloor ((x + 180) / 360))%Z.
  rewrite inject_Z_plus, inject_Z_opp. lra.
Qed.

End AxisFacts.

Section SortFacts.

Local Open Scope Q_scope.


Lemma insert_key_perm (k : Q) (i : nat) (l : list (Q * nat)) :
  Permutation (insert_key k i l) ((k, i) :: l).
Proof.
  induction l as [|[k' i'] rest IH]; simpl; [reflexivity|].
  destruct (Qle_bool k k'); [reflexivity|].
  rewrite IH. apply perm_swap.
Qed.

Lemma sort_keys_perm (l : list (Q * nat)) : Permutation (sort_keys l) l.
Proof.
  induction l as [|[k i] rest IH]; simpl; [reflexivity|].
  rewrite insert_key_perm. now constructor.
Qed.

Lemma insert_key_sorted (k : Q) (i : nat) (l : list (Q * nat)) :
  StronglySorted key_le l -> StronglySorted key_le (insert_key k i l).
Proof.
  induction l as [|[k' i'] rest IH]; intros Hs; simpl.
  - repeat constructor.
  - inversion Hs as [|? ? Hrest Hall]; subst.
    destruct (Qle_bool k k') eqn:E.
    + apply Qle_bool_iff in E. constructor; [assumption|].
      constructor; [exact E|].
      eapply Forall_impl; [|exact Hall].
      intros q Hq. unfold key_le in *. simpl in *. eapply Qle_trans; eassumption.
    + apply Qle_bool_false in E. constructor; [now apply IH|].
      eapply Permutation_Forall; [symmetry; apply insert_key_perm|].
      constructor; [|assumption].
      unfold key_le. simpl. now apply Qlt_le_weak.
Qed.

Lemma sort_keys_sorted (l : list (Q * nat)) : StronglySorted key_le (sort_keys l).
Proof.
  induction l as [|[k i] rest IH]; simpl; [constructor|].
  now apply insert_key_sorted.
Qed.

(** Every entry of the keyed axis holds the key found at its index. *)
Lemma combine_seq_entries (keys : list Q) :
  forall s, Forall (fun p => (s <= snd p < s + length keys)%nat /\
                             nth (snd p - s) keys 0 = fst p)
                   (combine keys (seq s (length keys))).
Proof.
  induction keys as [|k keys IH]; intros s; simpl; constructor.
  - simpl. split; [lia|]. now rewrite Nat.sub_diag.
  - eapply Forall_impl; [|apply (IH (S s))].
    intros [k' i'] [Hr Hn]. simpl in *. split; [lia|].
    replace (i' - s)%nat with (S (i' - S s)) by lia. exact Hn.
Qed.

Lemma map_snd_combine_seq (keys : list Q) (s : nat) :
  map snd (combine keys (seq s (length keys))) = seq s (length keys).
Proof.
  revert s. induction keys as [|k keys IH]; intros s; simpl; [reflexivity|].
  now rewrite IH.
Qed.

Lemma argsort_perm (keys : list Q) :
  Permutation (argsort keys) (seq 0 (length keys)).
Proof.
  unfold argsort.
  pose proof (Permutation_map snd
                (sort_keys_perm (combine keys (seq 0 (length keys))))) as Hp.
  now rewrite map_snd_combine_seq in Hp.
Qed.

Lemma argsort_length (keys : list Q) : length (argsort keys) = length keys.
Proof.
  rewrite (Permutation_length (argsort_perm keys)). apply length_seq.
Qed.

Lemma argsort_in_range (keys : list Q) (j : nat) :
  In j (argsort keys) -> (j < length keys)%nat.
Proof.
  intros Hin. apply (Permutation_in _ (argsort_perm keys)) in Hin.
  apply in_seq in Hin. lia.
Qed.

Lemma sorted_entries (keys : list Q) :
  Forall (fun p => (snd p < length keys)%nat /\ nth (snd p) keys 0 = fst p)
         (sort_keys (combine keys (seq 0 (length keys)))).
Proof.
  eapply Permutation_Forall; [symmetry; apply sort_keys_perm|].
  eapply Forall_impl; [|apply (combine_seq_entries keys 0)].
  intros [k i] [Hr Hn]. simpl in *. rewrite Nat.sub_0_r in Hn. split; [lia|exact Hn].
Qed.

(** Reading the axis in the order of [argsort] gives the sorted keys. *)
Lemma take_argsort (keys : list Q) :
  map (fun j => nth j keys 0) (argsort keys)
  = map fst (sort_keys (combine keys (seq 0 (length keys)))).
Proof.
  unfold argsort. rewrite map_map.
  pose proof (sorted_entries keys) as Hall.
  induction Hall as [|p l [_ Hp] Hall IH]; simpl; [reflexivity|].
  now rewrite Hp, IH.
Qed.

Lemma sorted_axis_ascending (keys : list Q) :
  StronglySorted Qle (map (fun j => nth j keys 0) (argsort keys)).
Proof.
  rewrite take_argsort.
  pose proof (sort_keys_sorted (combine keys (seq 0 (length keys)))) as Hs.
  induction Hs as [|p l Hl IH Hall]; simpl; constructor; [exact IH|].
  rewrite Forall_map. exact Hall.
Qed.

(** Keys that differ at different indices are sorted strictly. *)
Lemma sorted_axis_strict (keys : list Q) :
  (forall i j, (i < j < length keys)%nat -> ~ nth i keys 0 == nth j keys 0) ->
  StronglySorted Qlt (map (fun j => nth j keys 0) (argsort keys)).
Proof.
  intros Hdiff. rewrite take_argsort.
  pose proof (sort_keys_sorted (combine keys (seq 0 (length keys)))) as Hs.
  pose proof (sorted_entries keys) as Hent.
  assert (Hnd : NoDup (map snd (sort_keys (combine keys (seq 0 (length keys)))))).
  { eapply Permutation_NoDup; [symmetry; apply argsort_perm | apply seq_NoDup]. }
  induction Hs as [|p l Hl IH Hall]; simpl; constructor.
  - apply IH; [now inversion Hent | now inversion Hnd].
  - rewrite Forall_map.
    inversion Hent as [|? ? [Hpr Hpk] Hent']; subst.
    inversion Hnd as [|? ? Hnotin _]; subst.
    rewrite Forall_forall in *. intros q Hq.
    destruct (Hent' q Hq) as [Hqr Hqk].
    assert (Hne : snd p <> snd q).
    { intros Heq. apply Hnotin. rewrite Heq. now apply in_map. }
    specialize (Hall q Hq). unfold key_le in Hall.
    destruct (Qle_lt_or_eq _ _ Hall) as [Hlt|Heq]; [exact Hlt|].
    exfalso. rewrite <- Hpk, <- Hqk in Heq.
    destruct (Nat.lt_total (snd p) (snd q)) as [Hlt|[Heq'|Hgt]].
    + exact (Hdiff _ _ (conj Hlt Hqr) Heq).
    + contradiction.
    + apply (Hdiff _ _ (conj Hgt Hpr)). now symmetry.
Qed.

End SortFacts.

Section AlignLongitude.

Local Open Scope Q_scope.

Lemma nth_wrapped (lons : list Q) (j : nat) :
  (j < length lons)%nat ->
  nth j (map wrap_longitude lons) 0 = wrap_longitude (nth j lons 0).
Proof. intros Hj. now apply nth_map_lt. Qed.

Lemma align_longitude_above_180 (ds : Dataset) :
  (exists x, In x (longitude ds) /\ 180 < x) ->
  align_longitude ds = inr (sortby_longitude (assign_longitude wrap_longitude ds)).
Proof.
  intros [x [Hin Hx]]. unfold align_longitude.
  destruct (np_max (longitude ds)) as [m|] eqn:Em.
  - destruct (np_max_spec _ Em) as [_ Hall].
    rewrite Forall_forall in Hall.
    assert (Hm : 180 < m) by (eapply Qlt_le_trans; [exact Hx | now apply Hall]).
    apply Qltb_lt in Hm. now rewrite Hm.
  - destruct (longitude ds); [destruct Hin | discriminate].
Qed.

Lemma align_longitude_within_180 (ds : Dataset) :
  longitude ds <> [] -> (forall x, In x (longitude ds) -> x <= 180) ->
  align_longitude ds = inr ds.
Proof.
  intros Hne Hall. unfold align_longitude.
  destruct (np_max_nonempty Hne) as [m Em]. rewrite Em.
  destruct (np_max_spec _ Em) as [Hin _].
  assert (Hb : Qltb 180 m = false) by (apply Qltb_ge; now apply Hall).
  now rewrite Hb.
Qed.

(** C2 (as the code has it). When some longitude of the axis exceeds 180,
    the aligner maps every longitude [lon] to [((lon + 180) mod 360) - 180]
    and reorders the axis and the columns of every data slice by one
    permutation, the stable ascending sort of the new values: afterwards
    every longitude lies in [-180, 180) and the axis is ascending, strictly
    so when no two longitudes of the input are a whole number of turns
    apart.  A non-empty axis with no longitude above 180 leaves the dataset
    as it is. *)
Theorem align_longitude_wraps_and_sorts :
  forall ds : Dataset,
    ((exists x, In x (longitude ds) /\ 180 < x) ->
     let order := argsort (map wrap_longitude (longitude ds)) in
     exists ds',
       align_longitude ds = inr ds' /\
       ds' = isel_longitude order (assign_longitude wrap_longitude ds) /\
       Permutation order (seq 0 (length (longitude ds))) /\
       longitude ds'
         = map (fun j => wrap_longitude (nth j (longitude ds) 0)) order /\
       (forall x, In x (longitude ds') -> -180 <= x /\ x < 180) /\
       StronglySorted Qle (longitude ds') /\
       (distinct_mod_360 (longitude ds) -> strictly_ascending (longitude ds')))
    /\
    (longitude ds <> [] -> (forall x, In x (longitude ds) -> x <= 180) ->
     align_longitude ds = inr ds).
Proof.
  intros ds. split; [|apply align_longitude_within_180].
  intros Habove order.
  exists (sortby_longitude (assign_longitude wrap_longitude ds)).
  split; [now apply align_longitude_above_180|].
  split; [reflexivity|].
  assert (Hperm : Permutation order (seq 0 (length (longitude ds)))).
  { unfold order. rewrite <- (length_map wrap_longitude). apply argsort_perm. }
  assert (Hrange : forall j, In j order -> (j < length (longitude ds))%nat).
  { intros j Hj. apply (Permutation_in _ Hperm) in Hj. apply in_seq in Hj. lia. }
  assert (Hlon : longitude (sortby_longitude (assign_longitude wrap_longitude ds))
                 = map (fun j => wrap_longitude (nth j (longitude ds) 0)) order).
  { simpl. fold order. apply map_ext_in. intros j Hj.
    apply nth_wrapped. now apply Hrange. }
  split; [exact Hperm|]. split; [exact Hlon|]. split; [|split].
  - intros x Hx. rewrite Hlon in Hx. apply in_map_iff in Hx.
    destruct Hx as [j [<- _]]. apply wrap_longitude_range.
  - simpl. apply sorted_axis_ascending.
  - intros Hdist. unfold strictly_ascending. simpl.
    apply sorted_axis_strict. rewrite length_map.
    intros i j Hij Heq.
    rewrite !nth_wrapped in Heq by lia.
    destruct (wrap_longitude_eq Heq) as [k Hk].
    exact (Hdist i j Hij k Hk).
Qed.

End AlignLongitude.

(** The axis 0, 90, 270 becomes -90, 0, 90. *)
Lemma align_longitude_wraps_and_sorts_witness :
  exists ds',
    align_longitude Scenario.eastern = inr ds' /\
    (forall x, In x (longitude ds') -> (-180 <= x /\ x < 180)%Q) /\
    strictly_ascending (longitude ds').
Proof.
  destruct (proj1 (align_longitude_wraps_and_sorts Scenario.eastern))
    as [ds' [Heq [_ [_ [_ [Hrange [_ Hstrict]]]]]]].
  - exists 270%Q. split; [simpl; tauto | reflexivity].
  - exists ds'. split; [exact Heq|]. split; [exact Hrange|].
    apply Hstrict. intros i j Hij k Hk. simpl in Hij.
    destruct i as [|[|[|i]]]; destruct j as [|[|[|j]]]; try lia;
      cbn [nth Scenario.eastern longitude] in Hk;
      unfold Qeq, Qminus, Qplus, Qopp, Qmult, inject_Z in Hk;
      cbn [Qnum Qden] in Hk; lia.
Defined.

(** On the axis -179.5, 0, 180.5 the last longitude becomes -179.5 as well:
    the aligned axis is not strictly ascending. *)
Lemma align_longitude_closed_circle_repeats :
  (exists x, In x (longitude Scenario.closed_circle) /\ (180 < x)%Q) /\
  exists ds',
    align_longitude Scenario.closed_circle = inr ds' /\
    ~ strictly_ascending (longitude ds').
Proof.
  split.
  - exists (361 # 2)%Q. split; [simpl; tauto | reflexivity].
  - eexists. split; [vm_compute; reflexivity|].
    intros Hs. inversion Hs as [|? ? _ Hall]; subst.
    inversion Hall as [|? ? Hlt _]; subst.
    unfold Qlt in Hlt. simpl in Hlt. lia.
Qed.

(** ** Printing, raising and looping *)

Section Effects.

Context {E : Type}.

Lemma bind_ok {A B} (m : M E A) (k : A -> M E B) (es : list E) (a : A) :
  m = (es, inr a) -> bind m k = (es ++ events (k a), outcome (k a)).
Proof. intros ->. unfold bind, events, outcome. now destruct (k a). Qed.

Lemma bind_raise {A B} (m : M E A) (k : A -> M E B) (es : list E) (e : PyError) :
  m = (es, inl e) -> bind m k = (es, inl e).
Proof. now intros ->. Qed.

Lemma bind_ret_r {A} (m : M E A) (f : A -> A) :
  (forall a, f a = a) -> bind m (fun a => ret (f a)) = m.
Proof.
  intros Hf. destruct m as [es [e|a]]; simpl; [reflexivity|].
  now rewrite app_nil_r, Hf.
Qed.


(** A loop whose iterations all return runs them all. *)
Lemma for_count_all_ok {X} (xs : list X) (body : X -> M E nat) :
  (forall x, In x xs -> exists n, outcome (body x) = inr n) ->
  for_count xs body =
    (flat_map (fun x => events (body x)) xs,
     inr (list_sum (map (fun x => count_of (body x)) xs))).
Proof.
  induction xs as [|x rest IH]; intros Hok; [reflexivity|].
  simpl. destruct (Hok x (or_introl eq_refl)) as [n Hn].
  rewrite IH by (intros y Hy; apply Hok; now right).
  unfold count_of. destruct (body x) as [es r]. simpl in *. subst r.
  simpl. now rewrite app_nil_r.
Qed.

Lemma for_append_all_ok {X Y} (xs : list X) (body : X -> M E (list Y)) :
  (forall x, In x xs -> exists ys, outcome (body x) = inr ys) ->
  for_append xs body =
    (flat_map (fun x => events (body x)) xs,
     inr (flat_map (fun x => match outcome (body x) with
                             | inr ys => ys
                             | inl _ => []
                             end) xs)).
Proof.
  induction xs as [|x rest IH]; intros Hok; [reflexivity|].
  simpl. destruct (Hok x (or_introl eq_refl)) as [ys Hys].
  rewrite IH by (intros y Hy; apply Hok; now right).
  destruct (body x) as [es r]. simpl in *. subst r.
  simpl. now rewrite app_nil_r.
Qed.


Lemma one_more_line_bind {A B} (w : E) (m1 m2 : M E A) (k : A -> M E B) :
  one_more_line w m1 m2 -> one_more_line w (bind m1 k) (bind m2 k).
Proof.
  destruct m1 as [es1 r1], m2 as [es2 r2].
  intros [Hout Hev]. simpl in Hout. subst r2.
  destruct r1 as [e|a]; simpl.
  - split; [reflexivity|]. simpl in Hev.
    destruct Hev as [[pre [post [H2 H1]]]|[Heq _]].
    + left. now exists pre, post.
    + right. split; [exact Heq | now exists e].
  - destruct (k a) as [es' r'] eqn:Ek. split; [reflexivity|]. simpl in *.
    destruct Hev as [[pre [post [H2 H1]]]|[_ [e He]]]; [|discriminate].
    left. exists pre, (post ++ es'). subst es1 es2.
    now rewrite <- !app_assoc.
Qed.

Lemma one_more_line_under {A B} (w : E) (m : M E A) (k1 k2 : A -> M E B) :
  (forall a, outcome m = inr a -> one_more_line w (k1 a) (k2 a)) ->
  one_more_line w (bind m k1) (bind m k2).
Proof.
  intros Hk. destruct m as [es [e|a]]; simpl.
  - split; [reflexivity|]. right. split; [reflexivity|]. now exists e.
  - specialize (Hk a eq_refl). destruct (k1 a) as [es1 r1], (k2 a) as [es2 r2].
    destruct Hk as [Hout Hev]. simpl in *. subst r2. split; [reflexivity|].
    destruct Hev as [[pre [post [H2 H1]]]|[Heq [e He]]].
    + left. exists (es ++ pre), post. subst es1 es2.
      now rewrite <- !app_assoc.
    + right. split; [now rewrite Heq | now exists e].
Qed.

(** Skipping an iteration that only prints [w] and adds nothing. *)
Lemma for_count_skip {X} (w : E) (body : X -> M E nat) (v : X) (xs ys : list X) :
  body v = ([w], inr 0) ->
  one_more_line w (for_count (xs ++ v :: ys) body) (for_count (xs ++ ys) body).
Proof.
  intros Hv. induction xs as [|x rest IH]; simpl.
  - rewrite Hv. simpl.
    destruct (for_count ys body) as [es [e|n]]; simpl.
    + split; [reflexivity|]. left. now exists [], es.
    + rewrite app_nil_r. split; [reflexivity|]. left. now exists [], es.
  - apply one_more_line_under.
    intros n _. now apply one_more_line_bind.
Qed.

End Effects.

(** ** Alignment keeps the dataset consistent *)

Section AlignFacts.

Lemma dict_get_map {V W} (f : V -> W) (d : list (string * V)) (key : string) :
  dict_get (map (fun '(name, v) => (name, f v)) d) key
  = option_map f (dict_get d key).
Proof.
  induction d as [|[k v] rest IH]; simpl; [reflexivity|].
  destruct (String.eqb k key); [reflexivity | exact IH].
Qed.

Lemma in_map_named {V W} (f : V -> W) (d : list (string * V)) name w :
  In (name, w) (map (fun '(name, v) => (name, f v)) d) ->
  exists v, w = f v /\ In (name, v) d.
Proof.
  intros Hin. apply in_map_iff in Hin. destruct Hin as [[n v] [Heq Hin]].
  inversion Heq; subst. eauto.
Qed.


Lemma align_longitude_realigned (ds ds' : Dataset) :
  align_longitude ds = inr ds' -> realigned ds ds'.
Proof.
  unfold align_longitude. destruct (np_max (longitude ds)); [|discriminate].
  destruct (Qltb 180 q); intros [= <-]; constructor.
Qed.

Lemma align_latitude_realigned (ds ds' : Dataset) :
  align_latitude ds = inr ds' -> realigned ds ds'.
Proof.
  unfold align_latitude. destruct (latitude ds) as [|first rest]; [discriminate|].
  destruct (Qltb _ first); intros [= <-]; constructor.
Qed.

Lemma realigned_names (ds ds' : Dataset) (name : string) :
  realigned ds ds' -> in_data_vars name ds' = in_data_vars name ds.
Proof.
  intros [| f |]; [reflexivity| |]; unfold in_data_vars; simpl;
    rewrite dict_get_map; now destruct (dict_get _ _).
Qed.

Lemma realigned_times (ds ds' : Dataset) :
  realigned ds ds' -> time_values ds' = time_values ds.
Proof. intros [| f |]; reflexivity. Qed.

Lemma realigned_resolve (ds ds' : Dataset) (v : string) :
  realigned ds ds' -> resolve_variable ds' v = resolve_variable ds v.
Proof.
  intros Hr. unfold resolve_variable. now rewrite !(realigned_names _ Hr).
Qed.

Lemma realigned_wf (ds ds' : Dataset) :
  realigned ds ds' -> wf_dataset ds -> wf_dataset ds'.
Proof.
  intros Hr (Hlon & Hlat & times & Ht & Hvars).
  destruct Hr as [| f |]; [now repeat split; eauto| |].
  - (* columns reordered *)
    set (order := argsort (map f (longitude ds))).
    assert (Hlen : length order = length (longitude ds)).
    { unfold order. now rewrite argsort_length, length_map. }
    split; [|split; [exact Hlat|]].
    + simpl. fold order. intros Hnil. apply (f_equal (@length Q)) in Hnil.
      rewrite length_map, Hlen in Hnil. destruct (longitude ds); [congruence|discriminate].
    + exists times. split; [exact Ht|].
      intros name slices' Hin. simpl in Hin. fold order in Hin.
      apply in_map_named in Hin. destruct Hin as [slices [-> Hin]].
      destruct (Hvars _ _ Hin) as [Hn Hshape].
      split; [now rewrite length_map|].
      rewrite Forall_map. eapply Forall_impl; [|exact Hshape].
      intros a [Hh Hw]. simpl. fold order. split; [now rewrite length_map|].
      rewrite Forall_map. rewrite !length_map.
      eapply Forall_impl; [|exact Hw].
      intros row _. simpl. now rewrite length_map.
  - (* rows reordered *)
    set (order := argsort (latitude ds)).
    assert (Hlen : length order = length (latitude ds))
      by apply argsort_length.
    split; [exact Hlon|]. split.
    + simpl. fold order. intros Hnil. apply (f_equal (@length Q)) in Hnil.
      rewrite length_map, Hlen in Hnil. destruct (latitude ds); [congruence|discriminate].
    + exists times. split; [exact Ht|].
      intros name slices' Hin. simpl in Hin. fold order in Hin.
      apply in_map_named in Hin. destruct Hin as [slices [-> Hin]].
      destruct (Hvars _ _ Hin) as [Hn Hshape].
      split; [now rewrite length_map|].
      rewrite Forall_map. eapply Forall_impl; [|exact Hshape].
      intros a [Hh Hw]. simpl. fold order. split; [now rewrite !length_map|].
      rewrite Forall_map. apply Forall_forall. intros i Hi.
      rewrite Forall_forall in Hw. apply Hw. apply nth_In.
      rewrite Hh. now apply argsort_in_range.
Qed.

Lemma align_grid_inv (raw ds : Dataset) :
  align_grid raw = inr ds ->
  exists mid, realigned raw mid /\ realigned mid ds.
Proof.
  unfold align_grid. destruct (align_longitude raw) as [e|mid] eqn:E1; [discriminate|].
  intros E2. exists mid. split.
  - now apply align_longitude_realigned.
  - now apply align_latitude_realigned.
Qed.

Lemma align_grid_resolve (raw ds : Dataset) (v : string) :
  align_grid raw = inr ds -> resolve_variable ds v = resolve_variable raw v.
Proof.
  intros Ha. destruct (align_grid_inv _ Ha) as [mid [H1 H2]].
  now rewrite (realigned_resolve v H2), (realigned_resolve v H1).
Qed.

Lemma align_grid_times (raw ds : Dataset) :
  align_grid raw = inr ds -> time_values ds = time_values raw.
Proof.
  intros Ha. destruct (align_grid_inv _ Ha) as [mid [H1 H2]].
  now rewrite (realigned_times H2), (realigned_times H1).
Qed.

(** A consistent dataset is aligned without error and stays consistent. *)
Lemma align_grid_wf (raw : Dataset) :
  wf_dataset raw -> exists ds, align_grid raw = inr ds /\ wf_dataset ds.
Proof.
  intros Hwf. unfold align_grid.
  destruct (align_longitude raw) as [e|mid] eqn:E1.
  - exfalso. unfold align_longitude in E1. destruct Hwf as [Hlon _].
    destruct (np_max_nonempty Hlon) as [m Hm]. rewrite Hm in E1.
    destruct (Qltb 180 m); discriminate.
  - assert (Hmid : wf_dataset mid)
      by (eapply realigned_wf; [apply align_longitude_realigned|]; eassumption).
    destruct (align_latitude mid) as [e|ds] eqn:E2.
    + exfalso. unfold align_latitude in E2. destruct Hmid as [_ [Hlat _]].
      destruct (latitude mid) as [|first rest]; [congruence|].
      destruct (Qltb _ first); discriminate.
    + exists ds. split; [reflexivity|].
      eapply realigned_wf; [apply align_latitude_realigned|]; eassumption.
Qed.

End AlignFacts.

(** ** The steps of the pipeline *)

Section Pipeline.

Context {G : Type} `{Geometry G}.

Lemma dict_get_In {V} (d : list (string * V)) (key : string) (v : V) :
  dict_get d key = Some v -> In (key, v) d.
Proof.
  induction d as [|[k x] rest IH]; simpl; [discriminate|].
  destruct (String.eqb k key) eqn:E.
  - intros [= ->]. apply String.eqb_eq in E. subst. now left.
  - intros Hg. right. now apply IH.
Qed.

Lemma resolve_variable_found (ds : Dataset) (v var_to_use : string) :
  resolve_variable ds v = Some var_to_use ->
  exists slices, dict_get (data_vars ds) var_to_use = Some slices.
Proof.
  unfold resolve_variable, in_data_vars.
  set (short := match dict_get VARIABLE_NAME_MAP v with
                | Some s => s
                | None => v
                end).
  destruct (dict_get (data_vars ds) short) as [s1|] eqn:E1.
  - intros [= <-]. eauto.
  - destruct (dict_get (data_vars ds) v) as [s2|] eqn:E2; [|discriminate].
    intros [= <-]. eauto.
Qed.

(** Entries of [enumerate]. *)
Lemma enumerate_entries {A} (xs : list A) (d : A) :
  forall s, Forall (fun p => s <= fst p < s + length xs /\
                             nth (fst p - s) xs d = snd p)
                   (combine (seq s (length xs)) xs).
Proof.
  induction xs as [|x xs IH]; intros s; simpl; constructor.
  - simpl. split; [lia|]. now rewrite Nat.sub_diag.
  - eapply Forall_impl; [|apply (IH (S s))].
    intros [i y] [Hr Hn]. simpl in *. split; [lia|].
    replace (i - s) with (S (i - S s)) by lia. exact Hn.
Qed.

Lemma in_enumerate {A} (xs : list A) (d : A) (i : nat) (x : A) :
  In (i, x) (enumerate xs) -> i < length xs /\ nth i xs d = x.
Proof.
  intros Hin. pose proof (enumerate_entries xs d 0) as Hall.
  rewrite Forall_forall in Hall. destruct (Hall _ Hin) as [Hr Hn].
  simpl in *. rewrite Nat.sub_0_r in Hn. split; [lia | exact Hn].
Qed.

Lemma flat_map_enumerate {A B} (sel : A -> bool) (g : A -> B) (xs : list A) :
  forall s,
    flat_map (fun step : nat * A => if sel (snd step) then [g (snd step)] else [])
             (combine (seq s (length xs)) xs)
    = map g (filter sel xs).
Proof.
  induction xs as [|x xs IH]; intros s; simpl; [reflexivity|].
  rewrite IH. now destruct (sel x).
Qed.

Lemma flat_map_ext_In {A B} (f g : A -> list B) (xs : list A) :
  (forall x, In x xs -> f x = g x) -> flat_map f xs = flat_map g xs.
Proof.
  induction xs as [|x xs IH]; intros Hall; simpl; [reflexivity|].
  rewrite (Hall x (or_introl eq_refl)), IH; [reflexivity|].
  intros y Hy. apply Hall. now right.
Qed.


Lemma flat_map_flat_map {A B C} (f : A -> list B) (g : B -> list C) (xs : list A) :
  flat_map g (flat_map f xs) = flat_map (fun x => flat_map g (f x)) xs.
Proof.
  induction xs as [|x xs IH]; simpl; [reflexivity|].
  now rewrite flat_map_app, IH.
Qed.

Lemma slice_length {A} (s e : nat) (v : list A) :
  e <= length v -> length (slice s e v) = e - s.
Proof.
  intros He. unfold slice. rewrite length_firstn, length_skipn. lia.
Qed.

(** ** The mask *)

Lemma rasterize_burnt (shapes : list G) (h w : nat) (t : Affine)
    (mask : array2 bool) :
  rasterize shapes (h, w) t = inr mask ->
  mask = map (fun row =>
                map (fun col => existsb (touched (pixel_footprint t row col)) shapes)
                    (seq 0 w))
             (seq 0 h).
Proof.
  unfold rasterize. simpl fst. simpl snd.
  destruct shapes as [|g rest];
    [destruct (no_shape_raises (G := G))|destruct (invertible t)];
    intros Heq; try discriminate; now injection Heq as <-.
Qed.

Lemma rasterize_shape (shapes : list G) (h w : nat) (t : Affine) (mask : array2 bool) :
  rasterize shapes (h, w) t = inr mask -> has_shape h w mask.
Proof.
  intros Hr. rewrite (rasterize_burnt shapes h w t Hr). split.
  - now rewrite length_map, length_seq.
  - rewrite Forall_map. apply Forall_forall. intros r _.
    now rewrite length_map, length_seq.
Qed.

Lemma rasterize_cell (shapes : list G) (h w : nat) (t : Affine)
    (mask : array2 bool) (r c : nat) :
  rasterize shapes (h, w) t = inr mask -> r < h -> c < w ->
  cell mask r c = existsb (touched (pixel_footprint t r c)) shapes.
Proof.
  intros Hm Hr Hc. rewrite (rasterize_burnt shapes h w t Hm). unfold cell.
  rewrite (nth_map_lt _ (seq 0 h) [] 0) by (now rewrite length_seq).
  rewrite (nth_map_lt _ (seq 0 w) false 0) by (now rewrite length_seq).
  now rewrite !seq_nth.
Qed.

Lemma invertible_from_origin (west north xsize ysize : Q) :
  invertible (from_origin west north xsize ysize) = true
  <-> (~ xsize == 0 /\ ~ ysize == 0)%Q.
Proof.
  unfold invertible, from_origin. simpl. rewrite negb_true_iff.
  split.
  - intros Hne. split; intros Hz;
      (assert (Hq : Qeq_bool (xsize * - ysize - 0 * 0)%Q 0%Q = true)
         by (apply Qeq_bool_iff; rewrite Hz; ring));
      congruence.
  - intros [Hx Hy]. destruct (Qeq_bool _ 0) eqn:E; [|reflexivity].
    apply Qeq_bool_iff in E. exfalso.
    assert (Hp : (xsize * ysize == 0)%Q).
    { assert (Hr : (xsize * ysize == - (xsize * - ysize - 0 * 0))%Q) by ring.
      rewrite Hr, E. reflexivity. }
    apply Qmult_integral in Hp. tauto.
Qed.

Lemma create_polygon_mask_shape (polygons : list G) (ds : Dataset) (mask : array2 bool) :
  create_polygon_mask polygons ds = inr mask ->
  has_shape (length (latitude ds)) (length (longitude ds)) mask.
Proof.
  unfold create_polygon_mask.
  destruct (np_min (longitude ds)); [|discriminate].
  destruct (np_max (latitude ds)); [|discriminate].
  apply rasterize_shape.
Qed.

Lemma create_polygon_mask_ok (polygons : list G) (ds : Dataset) :
  polygons <> [] -> longitude ds <> [] -> latitude ds <> [] ->
  cell_sizes_nonzero ds ->
  exists mask, create_polygon_mask polygons ds = inr mask.
Proof.
  intros Hp Hlon Hlat Hsizes. unfold create_polygon_mask.
  destruct (np_min_nonempty Hlon) as [a ->].
  destruct (np_max_nonempty Hlat) as [b ->].
  unfold rasterize. destruct polygons; [congruence|].
  unfold cell_sizes_nonzero in Hsizes.
  rewrite (proj2 (invertible_from_origin _ _ _ _) Hsizes). eauto.
Qed.

(** With a cell size of zero GDAL cannot invert the transform. *)
Lemma create_polygon_mask_singular (polygons : list G) (ds : Dataset) :
  polygons <> [] -> longitude ds <> [] -> latitude ds <> [] ->
  ~ cell_sizes_nonzero ds ->
  create_polygon_mask polygons ds = inl GDALError.
Proof.
  intros Hp Hlon Hlat Hsizes. unfold create_polygon_mask.
  destruct (np_min_nonempty Hlon) as [a ->].
  destruct (np_max_nonempty Hlat) as [b ->].
  unfold rasterize. destruct polygons; [congruence|].
  destruct (invertible _) eqn:E; [|reflexivity].
  apply invertible_from_origin in E. now apply Hsizes in E.
Qed.

(** ** Clipping keeps coordinates *)

Lemma clip_coords_nonempty {V} (data : array2 V) (mask : array2 bool)
    (lons lats : list Q) :
  has_shape (length lats) (length lons) mask -> lons <> [] -> lats <> [] ->
  let '(_, _, clipped_lons, clipped_lats) :=
    clip_to_polygon_bounds data mask lons lats in
  clipped_lons <> [] /\ clipped_lats <> [].
Proof.
  intros Hs Hlon Hlat. unfold clip_to_polygon_bounds.
  destruct (any (any_axis1 mask)) eqn:Er; simpl; [|now split].
  destruct (any (any_axis0 mask)) eqn:Ec; simpl; [|now split].
  apply any_true_iff in Er. destruct Er as [r Hr].
  apply nth_any_axis1 in Hr.
  destruct (clip_bounds Hs (ex_intro _ r Hr)) as [Hrow [Hcol _]].
  split; intros Hnil; apply (f_equal (@length Q)) in Hnil;
    rewrite slice_length in Hnil by lia; simpl in Hnil; lia.
Qed.

End Pipeline.

Section EventInvariants.

Context {E : Type} (P : E -> Prop).

(** A property of every event is kept by sequencing and by loops. *)
Lemma events_bind_Forall {A B} (m : M E A) (k : A -> M E B) :
  Forall P (events m) ->
  (forall a, outcome m = inr a -> Forall P (events (k a))) ->
  Forall P (events (bind m k)).
Proof.
  destruct m as [es [e|a]]; simpl; intros Hm Hk; [exact Hm|].
  specialize (Hk a eq_refl). destruct (k a) as [es' r]. simpl in *.
  apply Forall_app. now split.
Qed.

Lemma events_for_count_Forall {X} (xs : list X) (body : X -> M E nat) :
  (forall x, In x xs -> Forall P (events (body x))) ->
  Forall P (events (for_count xs body)).
Proof.
  induction xs as [|x rest IH]; intros Hall; simpl; [constructor|].
  apply events_bind_Forall; [apply Hall; now left|].
  intros n _. apply events_bind_Forall; [|intros; constructor].
  apply IH. intros y Hy. apply Hall. now right.
Qed.

Lemma events_for_append_Forall {X Y} (xs : list X) (body : X -> M E (list Y)) :
  (forall x, In x xs -> Forall P (events (body x))) ->
  Forall P (events (for_append xs body)).
Proof.
  induction xs as [|x rest IH]; intros Hall; simpl; [constructor|].
  apply events_bind_Forall; [apply Hall; now left|].
  intros n _. apply events_bind_Forall; [|intros; constructor].
  apply IH. intros y Hy. apply Hall. now right.
Qed.

Lemma events_lift_Forall {A} (r : PyError + A) : Forall P (events (lift r)).
Proof. constructor. Qed.

Lemma events_lift_opt_Forall {A} (e : PyError) (o : option A) :
  Forall P (events (lift_opt e o)).
Proof. destruct o; constructor. Qed.

Lemma events_emit_Forall (ev : E) : P ev -> Forall P (events (emit ev)).
Proof. intros Hp. now repeat constructor. Qed.

End EventInvariants.

Section Steps.

Context {G : Type} `{Geometry G}.

Lemma artifact_paths_app (a b : list (Event G)) :
  artifact_paths (a ++ b) = artifact_paths a ++ artifact_paths b.
Proof. apply flat_map_app. Qed.

Lemma artifact_paths_flat_map {X} (f : X -> list (Event G)) (xs : list X) :
  artifact_paths (flat_map f xs) = flat_map (fun x => artifact_paths (f x)) xs.
Proof. apply flat_map_flat_map. Qed.

(** *** [save_raster] seen from the loop *)

Lemma save_raster_ok (env : Env) (data : array2 fval) (path : string)
    (lons lats : list Q) :
  lons <> [] -> lats <> [] ->
  outcome (save_raster (G := G) env data path lons lats) = inr tt.
Proof.
  intros Hlon Hlat.
  destruct (np_min_nonempty Hlon) as [a Ha].
  destruct (np_max_nonempty Hlat) as [b Hb].
  now rewrite (save_raster_run env data path lons lats Ha Hb).
Qed.

Lemma save_raster_no_paths (env : Env) (data : array2 fval) (path : string)
    (lons lats : list Q) :
  artifact_paths (events (save_raster (G := G) env data path lons lats)) = [].
Proof.
  destruct (np_min lons) as [a|] eqn:Ha; [destruct (np_max lats) as [b|] eqn:Hb|].
  - rewrite (save_raster_run env data path lons lats Ha Hb). simpl.
    destruct (16 <? _); destruct (overviews_raise env path);
      destruct (gdal_raise env path); reflexivity.
  - unfold save_raster. now rewrite Ha, Hb.
  - unfold save_raster. now rewrite Ha.
Qed.

(** Every event of a call satisfies [P] when the file events it can produce
    do. *)
Lemma save_raster_Forall (P : Event G -> Prop) (env : Env)
    (data : array2 fval) (path : string) (lons lats : list Q) :
  (forall lon_min lat_max,
      np_min lons = Some lon_min -> np_max lats = Some lat_max ->
      Forall P (events (save_raster env data path lons lats))) ->
  Forall P (events (save_raster env data path lons lats)).
Proof.
  intros Hp.
  destruct (np_min lons) as [a|] eqn:Ha; [destruct (np_max lats) as [b|] eqn:Hb|].
  - now apply (Hp a b).
  - unfold save_raster. rewrite Ha, Hb. constructor.
  - unfold save_raster. rewrite Ha. constructor.
Qed.

(** *** The raster loop *)

Lemma isel_time_ok (ds : Dataset) (var : string) (slices : list (array2 fval))
    (idx : nat) :
  dict_get (data_vars ds) var = Some slices -> idx < length slices ->
  isel_time ds var idx = inr (nth idx slices []).
Proof.
  intros Hg Hlt. unfold isel_time. rewrite Hg.
  destruct (nth_error slices idx) as [a|] eqn:E.
  - now rewrite (nth_error_nth _ _ _ E).
  - apply nth_error_None in E. lia.
Qed.

Lemma raster_step_run (env : Env) (ds : Dataset) (mask : array2 bool)
    (var vname : string) (selected : list Z) (out : string)
    (idx : nat) (t : Timestamp) (data : array2 fval) :
  longitude ds <> [] -> latitude ds <> [] ->
  has_shape (length (latitude ds)) (length (longitude ds)) mask ->
  isel_time ds var idx = inr data ->
  raster_step (G := G) env ds mask var vname selected out (idx, t) =
    if hour_selected t selected then
      let '(clipped_data, clipped_mask, clipped_lons, clipped_lats) :=
        clip_to_polygon_bounds data mask (longitude ds) (latitude ds) in
      ((events (save_raster env (np_where clipped_mask clipped_data NaN)
                  (artifact_name raster out vname t) clipped_lons clipped_lats)
        ++ [Print (RASTER_PATH (artifact_name raster out vname t))],
        inr 1) : M (Event G) nat)
    else ([], inr 0).
Proof.
  intros Hlon Hlat Hs Hdata. unfold raster_step. simpl fst. simpl snd.
  destruct (hour_selected t selected); [|reflexivity].
  rewrite Hdata. unfold lift at 1.
  pose proof (clip_coords_nonempty data Hs Hlon Hlat) as Hne.
  unfold bind at 1.
  destruct (clip_to_polygon_bounds data mask (longitude ds) (latitude ds))
    as [[[cd cm] cl] clat].
  destruct Hne as [Hcl Hclat].
  pose proof (save_raster_ok env (np_where cm cd NaN)
                (artifact_name raster out vname t) Hcl Hclat) as Hok.
  unfold artifact_name in *.
  destruct (save_raster env (np_where cm cd NaN) _ cl clat) as [es r].
  simpl in Hok. subst r. reflexivity.
Qed.

End Steps.

Section Loops.

Context {G : Type} `{Geometry G}.

Lemma emit_rasters_run (env : Env) (ds : Dataset) (mask : array2 bool)
    (var vname : string) (selected : list Z) (out : string)
    (times : list Timestamp) (slices : list (array2 fval)) :
  longitude ds <> [] -> latitude ds <> [] ->
  has_shape (length (latitude ds)) (length (longitude ds)) mask ->
  time_values ds = inr times ->
  dict_get (data_vars ds) var = Some slices ->
  length slices = length times ->
  emit_rasters (G := G) env ds mask var vname selected out =
    (flat_map (fun step => events (raster_step (G := G) env ds mask var vname selected out step))
              (enumerate times),
     inr (list_sum (map (fun step =>
                           count_of (raster_step (G := G) env ds mask var vname selected out step))
                        (enumerate times)))).
Proof.
  intros Hlon Hlat Hs Ht Hg Hlen. unfold emit_rasters. rewrite Ht.
  unfold lift, bind at 1.
  rewrite for_count_all_ok; [now rewrite app_nil_l|].
  intros [idx t] Hin. destruct (in_enumerate _ t _ _ Hin) as [Hidx _].
  rewrite (@raster_step_run _ env ds mask var vname selected out idx t _
             Hlon Hlat Hs (@isel_time_ok ds var slices idx Hg ltac:(lia))).
  destruct (hour_selected t selected); [|now exists 0].
  destruct (clip_to_polygon_bounds _ mask _ _) as [[[cd cm] cl] clat]. now exists 1.
Qed.

Lemma raster_step_paths (env : Env) (ds : Dataset) (mask : array2 bool)
    (var vname : string) (selected : list Z) (out : string)
    (idx : nat) (t : Timestamp) (data : array2 fval) :
  longitude ds <> [] -> latitude ds <> [] ->
  has_shape (length (latitude ds)) (length (longitude ds)) mask ->
  isel_time ds var idx = inr data ->
  artifact_paths (events (raster_step (G := G) env ds mask var vname selected out (idx, t)))
  = if hour_selected t selected then [artifact_name raster out vname t] else [].
Proof.
  intros Hlon Hlat Hs Hdata.
  rewrite (@raster_step_run _ env ds mask var vname selected out idx t _
             Hlon Hlat Hs Hdata).
  destruct (hour_selected t selected); [|reflexivity].
  destruct (clip_to_polygon_bounds _ mask _ _) as [[[cd cm] cl] clat].
  unfold events at 1. simpl fst.
  now rewrite artifact_paths_app, save_raster_no_paths.
Qed.

Lemma emit_rasters_paths (env : Env) (ds : Dataset) (mask : array2 bool)
    (var vname : string) (selected : list Z) (out : string)
    (times : list Timestamp) (slices : list (array2 fval)) :
  longitude ds <> [] -> latitude ds <> [] ->
  has_shape (length (latitude ds)) (length (longitude ds)) mask ->
  time_values ds = inr times ->
  dict_get (data_vars ds) var = Some slices ->
  length slices = length times ->
  artifact_paths (events (emit_rasters (G := G) env ds mask var vname selected out))
  = map (artifact_name raster out vname)
        (filter (fun t => hour_selected t selected) times).
Proof.
  intros Hlon Hlat Hs Ht Hg Hlen.
  rewrite (@emit_rasters_run env ds mask var vname selected out times slices
             Hlon Hlat Hs Ht Hg Hlen).
  unfold events at 1. simpl fst. rewrite artifact_paths_flat_map.
  rewrite <- (flat_map_enumerate (fun t => hour_selected t selected)
                (artifact_name raster out vname) times 0).
  apply flat_map_ext_In. intros [idx t] Hin.
  destruct (in_enumerate _ t _ _ Hin) as [Hidx _].
  apply (@raster_step_paths env ds mask var vname selected out idx t _
           Hlon Hlat Hs (@isel_time_ok ds var slices idx Hg ltac:(lia))).
Qed.

(** *** The vector grid *)

Lemma enumerate_In {A} (xs : list A) (d : A) (i : nat) :
  i < length xs -> In (i, nth i xs d) (enumerate xs).
Proof.
  unfold enumerate. intros Hi.
  assert (Hgen : forall s, In (s + i, nth i xs d) (combine (seq s (length xs)) xs)).
  { revert i Hi. induction xs as [|x xs IH]; intros i Hi s; simpl in *; [lia|].
    destruct i as [|i].
    - left. now rewrite Nat.add_0_r.
    - right. replace (s + S i) with (S s + i) by lia. apply IH. lia. }
  exact (Hgen 0).
Qed.

(** Which cells [create_vector_grid] keeps, and with which geometry. *)
Lemma vector_cells_spec (lons lats : list Q) (target : G) (g : G) (i j : nat) :
  In (g, (i, j)) (vector_cells lons lats target) <->
  i < length lats /\ j < length lons /\
  let cell_box := pixel_poly (axis_resolution lons) (axis_resolution lats)
                    (nth i lats 0%Q) (nth j lons 0%Q) in
  intersects cell_box target = true /\
  g = intersection cell_box target /\
  is_empty g = false /\ (0 < area g)%Q.
Proof.
  unfold vector_cells. rewrite in_flat_map. split.
  - intros [[i' lat] [Hlat Hin]]. rewrite in_flat_map in Hin.
    destruct Hin as [[j' lon] [Hlon Hin]].
    destruct (in_enumerate _ 0%Q _ _ Hlat) as [Hi' Hnlat].
    destruct (in_enumerate _ 0%Q _ _ Hlon) as [Hj' Hnlon].
    destruct (intersects _ target) eqn:Ei; [|destruct Hin].
    destruct (is_empty _) eqn:Ee; simpl in Hin; [destruct Hin|].
    destruct (Qltb 0 _) eqn:Ea; simpl in Hin; [|destruct Hin].
    destruct Hin as [Heq|[]]. inversion Heq; subst.
    split; [assumption|]. split; [assumption|]. simpl.
    split; [assumption|]. split; [reflexivity|]. split; [assumption|].
    now apply Qltb_lt.
  - intros (Hi & Hj & Hint & -> & He & Ha).
    exists (i, nth i lats 0%Q). split; [now apply enumerate_In|].
    rewrite in_flat_map. exists (j, nth j lons 0%Q).
    split; [now apply enumerate_In|].
    rewrite Hint, He. apply Qltb_lt in Ha. rewrite Ha. now left.
Qed.

Lemma getitem2_ok (data : array2 fval) (h w i j : nat) :
  has_shape h w data -> i < h -> j < w -> exists v, getitem2 data i j = Some v.
Proof.
  intros [Hh Hw] Hi Hj. unfold getitem2.
  destruct (nth_error data i) as [row|] eqn:Er.
  - rewrite Forall_forall in Hw. apply nth_error_In in Er as Hin.
    destruct (nth_error row j) as [v|] eqn:Ev; [eauto|].
    apply nth_error_None in Ev. rewrite (Hw _ Hin) in Ev. lia.
  - apply nth_error_None in Er. lia.
Qed.

Lemma map_opt_ok {X Y} (f : X -> option Y) (xs : list X) :
  (forall x, In x xs -> exists y, f x = Some y) ->
  exists ys, map_opt f xs = Some ys.
Proof.
  induction xs as [|x rest IH]; intros Hall; simpl; [eauto|].
  destruct (Hall x (or_introl eq_refl)) as [y ->].
  destruct IH as [ys ->]; [intros z Hz; apply Hall; now right | eauto].
Qed.

(** A turn of the vector loop, for cells inside a data slice of the grid's
    shape. *)
Lemma vector_step_run (ds : Dataset) (cells : list (G * (nat * nat)))
    (var vname : string) (selected : list Z) (out : string)
    (idx : nat) (t : Timestamp) (data : array2 fval) :
  isel_time ds var idx = inr data ->
  has_shape (length (latitude ds)) (length (longitude ds)) data ->
  (forall g i j, In (g, (i, j)) cells ->
                 i < length (latitude ds) /\ j < length (longitude ds)) ->
  exists values,
    vector_step ds cells var vname selected out (idx, t) =
      if hour_selected t selected then
        ([ To_file (artifact_name vector out vname t)
             {| l_geometry := map fst cells;
                l_value_name := vname;
                l_values := values;
                l_lat_center :=
                  map (fun ij => nth (fst ij) (latitude ds) 0%Q) (map snd cells);
                l_lon_center :=
                  map (fun ij => nth (snd ij) (longitude ds) 0%Q) (map snd cells) |};
           Print (VECTOR_PATH (artifact_name vector out vname t)) ],
         inr [artifact_name vector out vname t])
      else ([], inr []).
Proof.
  intros Hdata Hshape Hcells.
  destruct (@map_opt_ok _ _ (fun ij => getitem2 data (fst ij) (snd ij)) (map snd cells))
    as [values Hv].
  { intros [i j] Hin. apply in_map_iff in Hin.
    destruct Hin as [[g [i' j']] [Heq Hin]]. simpl in Heq. inversion Heq; subst.
    destruct (Hcells _ _ _ Hin) as [Hi Hj].
    exact (getitem2_ok Hshape Hi Hj). }
  exists values. unfold vector_step. simpl fst. simpl snd.
  destruct (hour_selected t selected); [|reflexivity].
  rewrite Hdata. unfold lift, bind at 1. cbv beta iota. rewrite Hv. reflexivity.
Qed.

End Loops.

Section Variables.

Context {G : Type} `{Geometry G}.

Lemma vector_cells_in_range (lons lats : list Q) (target : G) (g : G) (i j : nat) :
  In (g, (i, j)) (vector_cells lons lats target) ->
  i < length lats /\ j < length lons.
Proof. intros Hin. apply vector_cells_spec in Hin. tauto. Qed.

Lemma create_vector_grid_empty (ds : Dataset) (polygons : list G)
    (var vname : string) (selected : list Z) (out : string) :
  vector_cells (longitude ds) (latitude ds) (union_all polygons) = [] ->
  create_vector_grid ds polygons var vname selected out
  = ([Print Computing_intersections; Print No_valid_intersections], inr []).
Proof. intros Hnil. unfold create_vector_grid. now rewrite Hnil. Qed.

Lemma create_vector_grid_run (ds : Dataset) (polygons : list G)
    (var vname : string) (selected : list Z) (out : string)
    (times : list Timestamp) (slices : list (array2 fval)) :
  time_values ds = inr times ->
  dict_get (data_vars ds) var = Some slices ->
  length slices = length times ->
  Forall (has_shape (length (latitude ds)) (length (longitude ds))) slices ->
  let cells := vector_cells (longitude ds) (latitude ds) (union_all polygons) in
  cells <> [] ->
  create_vector_grid ds polygons var vname selected out =
    (Print Computing_intersections ::
       flat_map (fun step => events (vector_step ds cells var vname selected out step))
                (enumerate times),
     inr (flat_map (fun step =>
                      match outcome (vector_step ds cells var vname selected out step) with
                      | inr ys => ys
                      | inl _ => []
                      end) (enumerate times))).
Proof.
  intros Ht Hg Hlen Hshape cells Hne. unfold create_vector_grid. fold cells.
  assert (Hm : exists g gs, map fst cells = g :: gs).
  { destruct cells as [|c0 rest]; [congruence | simpl; eauto]. }
  destruct Hm as [g0 [gs Hm]]. rewrite Hm, Ht.
  unfold emit, lift, bind. cbv beta iota.
  rewrite for_append_all_ok; [reflexivity|].
  intros [idx t] Hin. destruct (in_enumerate _ t _ _ Hin) as [Hidx _].
  destruct (@vector_step_run _ ds cells var vname selected out idx t
              (nth idx slices [])) as [values Hv].
  - apply isel_time_ok; [assumption | lia].
  - rewrite Forall_forall in Hshape. apply Hshape, nth_In. lia.
  - intros g i j Hc. unfold cells in Hc. now apply vector_cells_in_range in Hc.
  - rewrite Hv. destruct (hour_selected t selected); simpl; eauto.
Qed.

Lemma vector_step_paths (ds : Dataset) (cells : list (G * (nat * nat)))
    (var vname : string) (selected : list Z) (out : string)
    (idx : nat) (t : Timestamp) (data : array2 fval) :
  isel_time ds var idx = inr data ->
  has_shape (length (latitude ds)) (length (longitude ds)) data ->
  (forall g i j, In (g, (i, j)) cells ->
                 i < length (latitude ds) /\ j < length (longitude ds)) ->
  artifact_paths (events (vector_step ds cells var vname selected out (idx, t)))
  = if hour_selected t selected then [artifact_name vector out vname t] else [].
Proof.
  intros Hd Hs Hc.
  destruct (@vector_step_run _ ds cells var vname selected out idx t data Hd Hs Hc)
    as [values ->].
  now destruct (hour_selected t selected).
Qed.

Lemma create_vector_grid_paths (ds : Dataset) (polygons : list G)
    (var vname : string) (selected : list Z) (out : string)
    (times : list Timestamp) (slices : list (array2 fval)) :
  time_values ds = inr times ->
  dict_get (data_vars ds) var = Some slices ->
  length slices = length times ->
  Forall (has_shape (length (latitude ds)) (length (longitude ds))) slices ->
  artifact_paths (events (create_vector_grid ds polygons var vname selected out))
  = match vector_cells (longitude ds) (latitude ds) (union_all polygons) with
    | [] => []
    | _ => map (artifact_name vector out vname)
               (filter (fun t => hour_selected t selected) times)
    end.
Proof.
  intros Ht Hg Hlen Hshape.
  destruct (vector_cells (longitude ds) (latitude ds) (union_all polygons))
    as [|c0 rest] eqn:Ec.
  - now rewrite create_vector_grid_empty.
  - rewrite (@create_vector_grid_run ds polygons var vname selected out times slices
               Ht Hg Hlen Hshape) by (rewrite Ec; discriminate).
    rewrite Ec. unfold events at 1. simpl fst.
    change (artifact_paths (Print Computing_intersections :: ?l))
      with (artifact_paths l).
    rewrite artifact_paths_flat_map.
    rewrite <- (flat_map_enumerate (fun t => hour_selected t selected)
                  (artifact_name vector out vname) times 0).
    apply flat_map_ext_In. intros [idx t] Hin.
    destruct (in_enumerate _ t _ _ Hin) as [Hidx _].
    apply (@vector_step_paths ds _ var vname selected out idx t (nth idx slices [])).
    + apply isel_time_ok; [assumption | lia].
    + rewrite Forall_forall in Hshape. apply Hshape, nth_In. lia.
    + intros g i j Hc. rewrite <- Ec in Hc. now apply vector_cells_in_range in Hc.
Qed.

Lemma create_vector_grid_ok (ds : Dataset) (polygons : list G)
    (var vname : string) (selected : list Z) (out : string)
    (times : list Timestamp) (slices : list (array2 fval)) :
  time_values ds = inr times ->
  dict_get (data_vars ds) var = Some slices ->
  length slices = length times ->
  Forall (has_shape (length (latitude ds)) (length (longitude ds))) slices ->
  exists created,
    outcome (create_vector_grid ds polygons var vname selected out) = inr created.
Proof.
  intros Ht Hg Hlen Hshape.
  destruct (vector_cells (longitude ds) (latitude ds) (union_all polygons))
    as [|c0 rest] eqn:Ec.
  - rewrite create_vector_grid_empty by assumption. simpl. eauto.
  - rewrite (@create_vector_grid_run ds polygons var vname selected out times slices
               Ht Hg Hlen Hshape) by (rewrite Ec; discriminate).
    simpl. eauto.
Qed.

(** *** One requested variable *)

Lemma process_variable_missing (env : Env) (fmt : OutputFormat) (out : string)
    (polygons : list G) (ds : Dataset) (mask : array2 bool)
    (selected : list Z) (v : string) :
  resolve_variable ds v = None ->
  process_variable env fmt out polygons ds mask selected v
  = ([Print (Variable_not_found v)], inr 0).
Proof. intros Hr. unfold process_variable. now rewrite Hr. Qed.

Lemma process_variable_ok (env : Env) (fmt : OutputFormat) (out : string)
    (polygons : list G) (ds : Dataset) (mask : array2 bool)
    (selected : list Z) (v : string) :
  wf_dataset ds ->
  has_shape (length (latitude ds)) (length (longitude ds)) mask ->
  exists n,
    outcome (process_variable env fmt out polygons ds mask selected v) = inr n.
Proof.
  intros (Hlon & Hlat & times & Ht & Hvars) Hs.
  destruct (resolve_variable ds v) as [var|] eqn:Er.
  - destruct (resolve_variable_found _ _ Er) as [slices Hg].
    destruct (Hvars _ _ (dict_get_In _ _ Hg)) as [Hlen Hshape].
    unfold process_variable. rewrite Er. destruct fmt.
    + rewrite (@emit_rasters_run G env ds mask var v selected out times slices
                 Hlon Hlat Hs Ht Hg Hlen).
      simpl. eauto.
    + destruct (@create_vector_grid_ok ds polygons var v selected out times slices
                  Ht Hg Hlen Hshape) as [created Hc].
      destruct (create_vector_grid ds polygons var v selected out) as [es r].
      simpl in Hc. subst r. simpl. eauto.
  - rewrite process_variable_missing by assumption. now exists 0.
Qed.

Lemma process_variable_paths (env : Env) (fmt : OutputFormat) (out : string)
    (polygons : list G) (ds : Dataset) (mask : array2 bool)
    (selected : list Z) (times : list Timestamp) (v : string) :
  wf_dataset ds -> time_values ds = inr times ->
  has_shape (length (latitude ds)) (length (longitude ds)) mask ->
  artifact_paths (events (process_variable env fmt out polygons ds mask selected v))
  = expected_paths fmt out ds polygons selected times v.
Proof.
  intros (Hlon & Hlat & times' & Ht' & Hvars) Ht Hs.
  rewrite Ht in Ht'. inversion Ht'; subst times'. clear Ht'.
  unfold expected_paths.
  destruct (resolve_variable ds v) as [var|] eqn:Er.
  - destruct (resolve_variable_found _ _ Er) as [slices Hg].
    destruct (Hvars _ _ (dict_get_In _ _ Hg)) as [Hlen Hshape].
    unfold process_variable. rewrite Er. destruct fmt.
    + pose proof (@emit_rasters_paths G env ds mask var v selected out times slices
                    Hlon Hlat Hs Ht Hg Hlen) as Hp.
      destruct (emit_rasters (G := G) env ds mask var v selected out) as [es r].
      simpl. exact Hp.
    + pose proof (@create_vector_grid_paths ds polygons var v selected out times
                    slices Ht Hg Hlen Hshape) as Hp.
      destruct (create_vector_grid ds polygons var v selected out) as [es [e|created]];
        simpl; [exact Hp|].
      rewrite app_nil_r. exact Hp.
  - now rewrite process_variable_missing.
Qed.

End Variables.

Section Run.

Context {G : Type} `{Geometry G}.


(** Once the grid is aligned and the mask is there, a run on a consistent
    dataset with well-formed hours goes through every requested variable
    and ends normally. *)
Lemma main_try_masked (env : Env) (hours variables : list string) (out : string)
    (fmt : OutputFormat) (polygons : list G) (raw ds : Dataset)
    (mask : array2 bool) (selected : list Z) :
  wf_dataset raw -> map_opt Str.int hours = Some selected ->
  align_grid raw = inr ds ->
  create_polygon_mask polygons ds = inr mask ->
  main_try env hours variables out fmt polygons raw =
    (Print (Available_variables (map fst (data_vars raw)))
     :: Print Generating_mask
     :: Print (Mask_generated (count_occ bool_dec (concat mask) true)
                              (length (concat mask)))
     :: flat_map (fun v => events (process_variable env fmt out polygons ds
                                     mask selected v)) variables
     ++ [Print (finished_line fmt
                  (list_sum (map (fun v => count_of
                                    (process_variable env fmt out polygons ds
                                       mask selected v)) variables)))],
     inr tt).
Proof.
  intros Hwf Hh Ha Hm.
  destruct (align_grid_wf Hwf) as [ds' [Ha' Hds]].
  rewrite Ha in Ha'. injection Ha' as <-.
  pose proof (create_polygon_mask_shape _ _ Hm) as Hs.
  assert (Hloop := @for_count_all_ok (Event G) _ variables
                      (process_variable env fmt out polygons ds mask selected)).
  specialize (Hloop ltac:(intros v _; now apply process_variable_ok)).
  unfold main_try. rewrite Ha. unfold emit, lift, lift_opt, ret, bind.
  cbv beta iota. rewrite Hm. cbv beta iota. rewrite Hh. cbv beta iota.
  rewrite Hloop. cbv beta iota.
  destruct fmt; reflexivity.
Qed.

(** On a consistent dataset whose aligned grid has cell sizes other than
    zero, with a region, the mask is there. *)
Lemma main_try_run (env : Env) (hours variables : list string) (out : string)
    (fmt : OutputFormat) (polygons : list G) (raw ds : Dataset) (selected : list Z) :
  wf_dataset raw -> polygons <> [] -> map_opt Str.int hours = Some selected ->
  align_grid raw = inr ds -> cell_sizes_nonzero ds ->
  exists mask,
    wf_dataset ds /\
    create_polygon_mask polygons ds = inr mask /\
    main_try env hours variables out fmt polygons raw =
      (Print (Available_variables (map fst (data_vars raw)))
       :: Print Generating_mask
       :: Print (Mask_generated (count_occ bool_dec (concat mask) true)
                                (length (concat mask)))
       :: flat_map (fun v => events (process_variable env fmt out polygons ds
                                       mask selected v)) variables
       ++ [Print (finished_line fmt
                    (list_sum (map (fun v => count_of
                                      (process_variable env fmt out polygons ds
                                         mask selected v)) variables)))],
       inr tt).
Proof.
  intros Hwf Hp Hh Ha Hsizes.
  destruct (align_grid_wf Hwf) as [ds' [Ha' Hds]].
  rewrite Ha in Ha'. injection Ha' as <-.
  edestruct create_polygon_mask_ok as [mask Hm];
    [exact Hp | apply Hds | apply Hds | exact Hsizes |].
  exists mask. split; [exact Hds|]. split; [exact Hm|].
  now apply main_try_masked.
Qed.

(** With a cell size of zero on the aligned grid and a region, the run
    stops at the mask: the rasterizer raises, and nothing has been written
    or announced. *)
Lemma main_try_singular (env : Env) (hours variables : list string) (out : string)
    (fmt : OutputFormat) (polygons : list G) (raw ds : Dataset) :
  wf_dataset raw -> polygons <> [] ->
  align_grid raw = inr ds -> ~ cell_sizes_nonzero ds ->
  main_try env hours variables out fmt polygons raw =
    ([Print (Available_variables (map fst (data_vars raw))); Print Generating_mask],
     inl GDALError).
Proof.
  intros Hwf Hp Ha Hsizes.
  destruct (align_grid_wf Hwf) as [ds' [Ha' Hds]].
  rewrite Ha in Ha'. injection Ha' as <-.
  assert (Hm : create_polygon_mask polygons ds = inl GDALError)
    by (apply create_polygon_mask_singular; [exact Hp | apply Hds | apply Hds | exact Hsizes]).
  unfold main_try. rewrite Ha. unfold emit, lift, lift_opt, ret, bind.
  cbv beta iota. rewrite Hm. reflexivity.
Qed.

(** The artifact lines of a run that ends normally: those of the requested
    variables, in the order of the request. *)
Lemma main_try_masked_paths (env : Env) (hours variables : list string)
    (out : string) (fmt : OutputFormat) (polygons : list G) (raw ds : Dataset)
    (mask : array2 bool) (selected : list Z) (times : list Timestamp) :
  wf_dataset raw -> map_opt Str.int hours = Some selected ->
  time_values raw = inr times ->
  align_grid raw = inr ds -> create_polygon_mask polygons ds = inr mask ->
  exit_status (main_try env hours variables out fmt polygons raw) = 0 /\
  artifact_paths (events (main_try env hours variables out fmt polygons raw))
  = flat_map (expected_paths fmt out ds polygons selected times) variables.
Proof.
  intros Hwf Hh Ht Ha Hm.
  assert (Hds : wf_dataset ds).
  { destruct (align_grid_wf Hwf) as [ds' [Ha' Hds]].
    rewrite Ha in Ha'. now injection Ha' as <-. }
  rewrite (@main_try_masked env hours variables out fmt polygons raw ds mask
             selected Hwf Hh Ha Hm).
  split; [reflexivity|].
  unfold events at 1. simpl fst.
  change (artifact_paths (?a :: ?b :: ?c :: ?l)) with (artifact_paths l).
  rewrite artifact_paths_app, artifact_paths_flat_map.
  assert (Hfin : forall n, artifact_paths (G := G) [Print (finished_line fmt n)] = [])
    by (intros n; now destruct fmt).
  rewrite Hfin, app_nil_r.
  apply flat_map_ext_In. intros v _.
  apply process_variable_paths; [exact Hds | | ].
  - now rewrite (align_grid_times _ Ha).
  - now apply create_polygon_mask_shape in Hm.
Qed.

Lemma main_try_paths (env : Env) (hours variables : list string) (out : string)
    (fmt : OutputFormat) (polygons : list G) (raw ds : Dataset)
    (selected : list Z) (times : list Timestamp) :
  wf_dataset raw -> polygons <> [] -> map_opt Str.int hours = Some selected ->
  time_values raw = inr times ->
  align_grid raw = inr ds -> cell_sizes_nonzero ds ->
  exit_status (main_try env hours variables out fmt polygons raw) = 0 /\
  artifact_paths (events (main_try env hours variables out fmt polygons raw))
  = flat_map (expected_paths fmt out ds polygons selected times) variables.
Proof.
  intros Hwf Hp Hh Ht Ha Hsizes.
  destruct (@main_try_run env hours variables out fmt polygons raw ds
              selected Hwf Hp Hh Ha Hsizes)
    as (mask & _ & Hm & _).
  now apply (@main_try_masked_paths env hours variables out fmt polygons raw ds mask).
Qed.

End Run.

Section RunClaims.

Context {G : Type} `{Geometry G}.

Lemma main_try_one_more_line (env : Env) (hours before_v after_v : list string)
    (v out : string) (fmt : OutputFormat) (polygons : list G) (raw : Dataset) :
  resolve_variable raw v = None ->
  one_more_line (Print (Variable_not_found v))
    (main_try env hours (before_v ++ v :: after_v) out fmt polygons raw)
    (main_try env hours (before_v ++ after_v) out fmt polygons raw).
Proof.
  intros Hmiss. unfold main_try.
  apply one_more_line_under. intros _ _.
  apply one_more_line_under. intros ds Hds.
  apply one_more_line_under. intros _ _.
  apply one_more_line_under. intros mask _.
  apply one_more_line_under. intros _ _.
  apply one_more_line_under. intros selected _.
  apply one_more_line_bind. apply for_count_skip.
  apply process_variable_missing.
  now rewrite (@align_grid_resolve raw ds v Hds).
Qed.

(** The process exits as the [try] block ends: [except] raises again and
    [finally] only prints. *)
Lemma main_exit_status (env : Env) (args : Args) (polygons : list G) (raw : Dataset) :
  exit_status (main env args polygons raw)
  = exit_status (main_try env (Str.split ","%char (a_hours args))
                   (Str.split ","%char (a_vars args)) (a_out args)
                   (a_output_format args) polygons raw).
Proof.
  unfold main, exit_status.
  now destruct (outcome (main_try _ _ _ _ _ _ _)).
Qed.

(** C7. A requested variable that the dataset holds under neither its long
    name nor its short name does not change how the run ends: the run with
    it exits with the status of the run without it and announces the same
    artifacts, a run that ends normally differs from the run without it by
    exactly the warning line of that variable (every other line and every
    written file is the same, in the same order), and on a consistent
    dataset whose aligned grid has cell sizes other than zero, with a
    region and well-formed hours, the exit status is 0 and the artifacts
    announced are those of the other requested variables, one after the
    other: for each of them that the dataset holds, one per time step of a
    requested hour. *)
Theorem missing_variable_is_skipped :
  forall (env : Env) (hours before_v after_v : list string) (v out : string)
         (fmt : OutputFormat) (polygons : list G) (raw : Dataset),
    resolve_variable raw v = None ->
    let with_v :=
      main_try env hours (before_v ++ v :: after_v) out fmt polygons raw in
    let without :=
      main_try env hours (before_v ++ after_v) out fmt polygons raw in
    exit_status with_v = exit_status without /\
    (exit_status without = 0 ->
     exists pre post,
       events without = pre ++ post /\
       events with_v = pre ++ Print (Variable_not_found v) :: post) /\
    artifact_paths (events with_v) = artifact_paths (events without) /\
    (forall selected ds times,
        wf_dataset raw -> polygons <> [] ->
        map_opt Str.int hours = Some selected ->
        time_values raw = inr times ->
        align_grid raw = inr ds -> cell_sizes_nonzero ds ->
        exit_status with_v = 0 /\
        In (Print (Variable_not_found v)) (events with_v) /\
        artifact_paths (events with_v)
        = flat_map (expected_paths fmt out ds polygons selected times)
            (before_v ++ after_v)).
Proof.
  intros env hours before_v after_v v out fmt polygons raw Hmiss with_v without.
  destruct (@main_try_one_more_line env hours before_v after_v v out fmt
              polygons raw Hmiss) as [Hout Hev].
  fold with_v without in Hout, Hev.
  assert (Hpaths : artifact_paths (events with_v) = artifact_paths (events without)).
  { destruct Hev as [(pre & post & -> & ->)|[-> _]]; [|reflexivity].
    now rewrite !artifact_paths_app. }
  split; [unfold exit_status; now rewrite Hout|]. split; [|split; [exact Hpaths|]].
  - intros Hzero. destruct Hev as [Hins|[_ [e He]]]; [exact Hins|].
    unfold exit_status in Hzero. rewrite He in Hzero. discriminate.
  - intros selected ds times Hwf Hp Hh Ht Ha Hsizes.
    destruct (@main_try_paths _ _ env hours (before_v ++ after_v) out fmt
                polygons raw ds selected times Hwf Hp Hh Ht Ha Hsizes)
      as [Hzero Hexp].
    fold without in Hzero, Hexp.
    split; [unfold exit_status in *; now rewrite Hout|].
    split; [|now rewrite Hpaths].
    destruct Hev as [(pre & post & _ & ->)|[_ [e He]]].
    + apply in_or_app. right. now left.
    + unfold exit_status in Hzero. rewrite He in Hzero. discriminate.
Qed.

(** C6 (as the code has it). On a consistent dataset, with a region and
    well-formed hours: when the cell sizes of the aligned grid are not zero
    the run ends normally and the artifact lines it prints are, for each
    requested variable that the dataset holds, one per time step whose hour
    is among the requested hours, in the order of the time axis, and none
    for the other time steps; except that in vector mode a variable gets no
    artifact at all when no grid cell is kept. When a cell size is zero the
    rasterizer raises on the transform of the mask: the run exits with
    status 1 and announces no artifact. *)
Theorem selected_hours_give_the_artifacts :
  forall (env : Env) (hours variables : list string) (out : string)
         (fmt : OutputFormat) (polygons : list G) (raw : Dataset)
         (selected : list Z) (times : list Timestamp),
    wf_dataset raw -> polygons <> [] ->
    map_opt Str.int hours = Some selected ->
    time_values raw = inr times ->
    let run := main_try env hours variables out fmt polygons raw in
    exists ds,
      align_grid raw = inr ds /\
      (cell_sizes_nonzero ds ->
       exit_status run = 0 /\
       artifact_paths (events run)
       = flat_map (expected_paths fmt out ds polygons selected times) variables) /\
      (~ cell_sizes_nonzero ds ->
       exit_status run = 1 /\ artifact_paths (events run) = []).
Proof.
  intros env hours variables out fmt polygons raw selected times Hwf Hp Hh Ht run.
  destruct (align_grid_wf Hwf) as [ds [Ha _]].
  exists ds. split; [exact Ha|]. split; intros Hsizes.
  - now apply main_try_paths.
  - unfold run.
    rewrite (@main_try_singular _ _ env hours variables out fmt polygons raw ds
               Hwf Hp Ha Hsizes).
    now split.
Qed.

End RunClaims.

Lemma hourly_wf : wf_dataset Scenario.hourly.
Proof.
  split; [discriminate|]. split; [discriminate|].
  exists Scenario.two_days. split; [reflexivity|].
  intros name slices [Heq|[Heq|[]]]; inversion Heq; subst;
    (split; [reflexivity | repeat constructor]).
Qed.

Lemma hourly_cell_sizes : cell_sizes_nonzero Scenario.hourly.
Proof. split; intros Hz; apply Qeq_bool_iff in Hz; discriminate. Qed.

(** Two variables requested, the second unknown to the dataset. *)
Lemma missing_variable_is_skipped_witness :
  let run := main_try Scenario.calm ["00"; "12"]%string
               (["2m_temperature"%string] ++ ["no_such_variable"%string]) "out" raster
               Scenario.near_origin Scenario.hourly in
  exit_status run = 0 /\
  In (Print (Variable_not_found "no_such_variable")) (events run) /\
  artifact_paths (events run)
  = [ "out/2m_temperature_20240101_0000.tif";
      "out/2m_temperature_20240101_1200.tif";
      "out/2m_temperature_20240102_0000.tif";
      "out/2m_temperature_20240102_1200.tif" ]%string.
Proof.
  refine (proj2 (proj2 (proj2
            (@missing_variable_is_skipped Rect.region Rect.rect_geometry
               Scenario.calm ["00"; "12"]%string ["2m_temperature"]%string []
               "no_such_variable"%string "out"%string raster
               Scenario.near_origin Scenario.hourly eq_refl)))
          [0; 12]%Z Scenario.hourly Scenario.two_days hourly_wf _ eq_refl eq_refl
          eq_refl hourly_cell_sizes).
  discriminate.
Defined.

Lemma closed_circle_wf : wf_dataset Scenario.closed_circle.
Proof.
  split; [discriminate|]. split; [discriminate|].
  exists [Scenario.at_hour 1 0]. split; [reflexivity|].
  intros name slices [Heq|[]]; inversion Heq; subst.
  split; [reflexivity | repeat constructor].
Qed.

(** Hours 00 and 12 over two days of hourly data, in raster mode; and a
    grid whose first two longitudes fall together once aligned. *)
Lemma selected_hours_give_the_artifacts_witness :
  artifact_paths
    (events (main_try Scenario.calm ["00"; "12"]%string
               ["2m_temperature"]%string "out" raster
               Scenario.near_origin Scenario.hourly))
  = [ "out/2m_temperature_20240101_0000.tif";
      "out/2m_temperature_20240101_1200.tif";
      "out/2m_temperature_20240102_0000.tif";
      "out/2m_temperature_20240102_1200.tif" ]%string /\
  exit_status
    (main_try Scenario.calm ["00"]%string ["2m_temperature"]%string "out" raster
       Scenario.near_origin Scenario.closed_circle) = 1.
Proof.
  split.
  - destruct (@selected_hours_give_the_artifacts Rect.region Rect.rect_geometry
                Scenario.calm ["00"; "12"]%string ["2m_temperature"]%string
                "out"%string raster Scenario.near_origin Scenario.hourly
                [0; 12]%Z Scenario.two_days hourly_wf ltac:(discriminate)
                eq_refl eq_refl) as [ds [Ha [Hp _]]].
    assert (Hds : ds = Scenario.hourly)
      by (vm_compute in Ha; now inversion Ha).
    subst ds. destruct (Hp hourly_cell_sizes) as [_ Hq].
    rewrite Hq. reflexivity.
  - destruct (@selected_hours_give_the_artifacts Rect.region Rect.rect_geometry
                Scenario.calm ["00"]%string ["2m_temperature"]%string
                "out"%string raster Scenario.near_origin Scenario.closed_circle
                [0]%Z [Scenario.at_hour 1 0] closed_circle_wf ltac:(discriminate)
                eq_refl eq_refl) as [ds [Ha [_ Hs]]].
    apply Hs. intros [Hlon _]. apply Hlon.
    vm_compute in Ha. injection Ha as <-. reflexivity.
Defined.

(** The same run through [main]: the error of the rasterizer is printed
    and nothing is written. *)
Example scenario_zero_cell_size :
  let run := main Scenario.calm (Scenario.args_of "00" "2m_temperature" raster)
               Scenario.near_origin Scenario.closed_circle in
  exit_status run = 1 /\
  In (Print (Processing_error GDALError)) (events run) /\
  artifact_paths (events run) = [] /\
  written_bands (events run) = [].
Proof. vm_compute. repeat split; try reflexivity. tauto. Qed.

(** In vector mode, with a region that meets no cell, the variable is
    processed and four time steps are selected, yet nothing is emitted. *)
Lemma vector_run_without_cells_emits_nothing :
  let run := main Scenario.calm
               (Scenario.args_of "00,12" "2m_temperature" vector)
               Scenario.far_away Scenario.hourly in
  exit_status run = 0 /\
  In (Print (Processing_variable "t2m" "2m_temperature")) (events run) /\
  length (filter (fun t => hour_selected t [0; 12]%Z) Scenario.two_days) = 4 /\
  artifact_paths (events run) = [] /\
  written_layers (events run) = [].
Proof.
  vm_compute. repeat split; try reflexivity. tauto.
Qed.

(** ** The vector grid emitter *)

Section VectorLayers.

Context {G : Type} `{Geometry G}.

Lemma events_bind {E A B} (m : M E A) (k : A -> M E B) :
  events (bind m k)
  = events m ++ match outcome m with
                | inr a => events (k a)
                | inl _ => []
                end.
Proof.
  destruct m as [es [e|a]]; simpl; [now rewrite app_nil_r|].
  now destruct (k a).
Qed.

Lemma in_written_layers (evs : list (Event G)) (layer : Layer G) :
  In layer (written_layers evs) -> exists path, In (To_file path layer) evs.
Proof.
  unfold written_layers. rewrite in_flat_map.
  intros [ev [Hin Hl]]. destruct ev; simpl in Hl; try contradiction.
  destruct Hl as [<-|[]]. eauto.
Qed.


Lemma create_vector_grid_layers (ds : Dataset) (polygons : list G)
    (var vname : string) (selected : list Z) (out : string) :
  Forall (layers_of_grid ds polygons)
         (events (create_vector_grid ds polygons var vname selected out)).
Proof.
  unfold create_vector_grid.
  apply events_bind_Forall; [now apply events_emit_Forall|]. intros _ _.
  destruct (map fst _) as [|g gs] eqn:Eg.
  - apply events_bind_Forall; [now apply events_emit_Forall | constructor].
  - apply events_bind_Forall; [apply events_lift_Forall|]. intros times _.
    apply events_for_append_Forall. intros [idx t] _.
    unfold vector_step. simpl fst. simpl snd.
    destruct (hour_selected t selected); [|constructor].
    apply events_bind_Forall; [apply events_lift_Forall|]. intros data _.
    apply events_bind_Forall; [apply events_lift_opt_Forall|]. intros values _.
    apply events_bind_Forall.
    + apply events_emit_Forall. simpl. now repeat split.
    + intros _ _. apply events_bind_Forall; [now apply events_emit_Forall|].
      constructor.
Qed.

Lemma save_raster_layers (P : Layer G -> Prop) (env : Env) (data : array2 fval)
    (path : string) (lons lats : list Q) :
  Forall (fun ev => match ev with To_file _ l => P l | _ => True end)
         (events (save_raster env data path lons lats)).
Proof.
  apply save_raster_Forall. intros a b Ha Hb.
  rewrite (save_raster_run env data path lons lats Ha Hb). simpl.
  destruct (16 <? _); destruct (overviews_raise env path);
    destruct (gdal_raise env path); repeat constructor.
Qed.

Lemma process_variable_layers (env : Env) (fmt : OutputFormat) (out : string)
    (polygons : list G) (ds : Dataset) (mask : array2 bool)
    (selected : list Z) (v : string) :
  Forall (layers_of_grid ds polygons)
         (events (process_variable env fmt out polygons ds mask selected v)).
Proof.
  unfold process_variable.
  destruct (resolve_variable ds v) as [var|].
  - apply events_bind_Forall; [now apply events_emit_Forall|]. intros _ _.
    destruct fmt.
    + unfold emit_rasters.
      apply events_bind_Forall; [apply events_lift_Forall|]. intros times _.
      apply events_for_count_Forall. intros [idx t] _.
      unfold raster_step. simpl fst. simpl snd.
      destruct (hour_selected t selected); [|constructor].
      apply events_bind_Forall; [apply events_lift_Forall|]. intros data _.
      destruct (clip_to_polygon_bounds _ _ _ _) as [[[cd cm] cl] clat].
      apply events_bind_Forall; [apply save_raster_layers|]. intros _ _.
      apply events_bind_Forall; [now apply events_emit_Forall | constructor].
    + apply events_bind_Forall; [apply create_vector_grid_layers | constructor].
  - apply events_bind_Forall; [now apply events_emit_Forall | constructor].
Qed.

Lemma main_try_layers (env : Env) (hours variables : list string) (out : string)
    (fmt : OutputFormat) (polygons : list G) (raw ds : Dataset) :
  align_grid raw = inr ds ->
  Forall (layers_of_grid ds polygons)
         (events (main_try env hours variables out fmt polygons raw)).
Proof.
  intros Ha. unfold main_try. rewrite Ha.
  apply events_bind_Forall; [now apply events_emit_Forall|]. intros _ _.
  apply events_bind_Forall; [apply events_lift_Forall|]. intros ds' Hds'.
  simpl in Hds'. inversion Hds'; subst ds'.
  apply events_bind_Forall; [now apply events_emit_Forall|]. intros _ _.
  apply events_bind_Forall; [apply events_lift_Forall|]. intros mask _.
  apply events_bind_Forall; [now apply events_emit_Forall|]. intros _ _.
  apply events_bind_Forall; [apply events_lift_opt_Forall|]. intros selected _.
  apply events_bind_Forall.
  - apply events_for_count_Forall. intros v _. apply process_variable_layers.
  - intros n _. destruct fmt; now apply events_emit_Forall.
Qed.

Lemma main_try_unaligned (env : Env) (hours variables : list string) (out : string)
    (fmt : OutputFormat) (polygons : list G) (raw : Dataset) (e : PyError) :
  align_grid raw = inl e ->
  written_layers (events (main_try env hours variables out fmt polygons raw)) = [].
Proof. intros Ha. unfold main_try. now rewrite Ha. Qed.

(** *** How often the intersections are computed *)


Lemma count_lines_app (f : Line -> bool) (a b : list (Event G)) :
  count_lines f (a ++ b) = count_lines f a + count_lines f b.
Proof. unfold count_lines. now rewrite filter_app, length_app. Qed.

Lemma count_lines_none (f : Line -> bool) (evs : list (Event G)) :
  Forall (no_line (G := G) f) evs -> count_lines f evs = 0.
Proof.
  unfold count_lines. induction 1 as [|ev evs Hev _ IH]; [reflexivity|].
  simpl. destruct ev; try exact IH. simpl in Hev. now rewrite Hev.
Qed.

Lemma create_vector_grid_computes_once (ds : Dataset) (polygons : list G)
    (var vname : string) (selected : list Z) (out : string) :
  count_lines is_computing
    (events (create_vector_grid ds polygons var vname selected out)) = 1.
Proof.
  unfold create_vector_grid. rewrite events_bind. simpl outcome. cbv iota.
  rewrite count_lines_app. change (count_lines is_computing (events (emit _))) with 1.
  rewrite count_lines_none; [reflexivity|].
  destruct (map fst _) as [|g gs] eqn:Eg.
  - apply events_bind_Forall; [now apply events_emit_Forall | constructor].
  - apply events_bind_Forall; [apply events_lift_Forall|]. intros times _.
    apply events_for_append_Forall. intros [idx t] _.
    unfold vector_step. simpl fst. simpl snd.
    destruct (hour_selected t selected); [|constructor].
    apply events_bind_Forall; [apply events_lift_Forall|]. intros data _.
    apply events_bind_Forall; [apply events_lift_opt_Forall|]. intros values _.
    apply events_bind_Forall; [now apply events_emit_Forall|]. intros _ _.
    apply events_bind_Forall; [now apply events_emit_Forall | constructor].
Qed.

(** C5 (as the code has it). In vector mode the cells are computed from the
    grid coordinates and the unioned region alone, once in every call of
    [create_vector_grid], that is once per processed variable and not once
    per run; a cell is kept exactly when its square meets the region and the
    intersection is non-empty with positive area.  Every layer written in a
    run carries the kept geometries and their centres, so any two layers of
    a run have the same geometry list and the same [lat_center] and
    [lon_center] columns. *)
Theorem vector_layers_share_geometry :
  forall (env : Env) (hours variables : list string) (out : string)
         (polygons : list G) (raw : Dataset),
    let run := main_try env hours variables out vector polygons raw in
    (forall lons lats target g i j,
        In (g, (i, j)) (vector_cells lons lats target) <->
        i < length lats /\ j < length lons /\
        let cell_box := pixel_poly (axis_resolution lons) (axis_resolution lats)
                          (nth i lats 0%Q) (nth j lons 0%Q) in
        intersects cell_box target = true /\
        g = intersection cell_box target /\
        is_empty g = false /\ (0 < area g)%Q) /\
    (forall ds layer,
        align_grid raw = inr ds ->
        In layer (written_layers (events run)) ->
        layer_of_grid ds polygons layer) /\
    (forall l1 l2,
        In l1 (written_layers (events run)) ->
        In l2 (written_layers (events run)) ->
        l_geometry l1 = l_geometry l2 /\
        l_lat_center l1 = l_lat_center l2 /\
        l_lon_center l1 = l_lon_center l2) /\
    (forall ds mask selected v var,
        resolve_variable ds v = Some var ->
        count_lines is_computing
          (events (process_variable env vector out polygons ds mask selected v)) = 1).
Proof.
  intros env hours variables out polygons raw run.
  assert (Hlayers : forall ds layer,
             align_grid raw = inr ds ->
             In layer (written_layers (events run)) ->
             layer_of_grid ds polygons layer).
  { intros ds layer Ha Hin.
    destruct (in_written_layers _ _ Hin) as [path Hev].
    pose proof (@main_try_layers env hours variables out vector polygons raw ds Ha)
      as Hall.
    rewrite Forall_forall in Hall. exact (Hall _ Hev). }
  split; [intros; apply vector_cells_spec|]. split; [exact Hlayers|]. split.
  - intros l1 l2 H1 H2.
    destruct (align_grid raw) as [e|ds] eqn:Ha.
    + unfold run in H1.
      rewrite (@main_try_unaligned env hours variables out vector polygons raw e Ha)
        in H1.
      destruct H1.
    + destruct (Hlayers ds l1 eq_refl H1) as (Hg1 & Ha1 & Ho1).
      destruct (Hlayers ds l2 eq_refl H2) as (Hg2 & Ha2 & Ho2).
      repeat split; congruence.
  - intros ds mask selected v var Hr. unfold process_variable. rewrite Hr.
    rewrite events_bind. simpl outcome. cbv iota.
    rewrite count_lines_app, events_bind, count_lines_app.
    rewrite create_vector_grid_computes_once.
    change (count_lines is_computing (events (emit _))) with 0.
    destruct (outcome _); reflexivity.
Qed.

End VectorLayers.

(** Two layers of one run, at 00 and 12 hours of the first day. *)
Lemma vector_layers_share_geometry_witness :
  match written_layers
          (events (main_try Scenario.calm ["00"; "12"]%string
                     ["2m_temperature"]%string "out" vector
                     Scenario.near_origin Scenario.hourly)) with
  | l1 :: l2 :: _ =>
      l_geometry l1 = l_geometry l2 /\
      l_lat_center l1 = l_lat_center l2 /\
      l_lon_center l1 = l_lon_center l2
  | _ => False
  end.
Proof.
  pose proof (proj1 (proj2 (proj2 (@vector_layers_share_geometry Rect.region
                Rect.rect_geometry Scenario.calm ["00"; "12"]%string
                ["2m_temperature"]%string "out"%string
                Scenario.near_origin Scenario.hourly)))) as Hshare.
  cbv zeta in Hshare.
  destruct (written_layers _) as [|l1 [|l2 rest]] eqn:Elayers.
  - vm_compute in Elayers. discriminate Elayers.
  - vm_compute in Elayers. discriminate Elayers.
  - apply Hshare; simpl; tauto.
Defined.

(** One run in vector mode over two variables that the dataset holds
    computes the intersections twice. *)
Lemma vector_run_computes_per_variable :
  let run := main Scenario.calm
               (Scenario.args_of "00" "2m_temperature,total_precipitation" vector)
               Scenario.near_origin Scenario.hourly in
  exit_status run = 0 /\
  count_lines is_computing (events run) = 2.
Proof. vm_compute. split; reflexivity. Qed.

(** ** The mask and the grid cells *)

Section RegularAxes.

Local Open Scope Q_scope.

Lemma Qnat_S (n : nat) : Qnat (S n) == Qnat n + 1.
Proof.
  unfold Qnat. rewrite Nat2Z.inj_succ. unfold Z.succ.
  now rewrite inject_Z_plus.
Qed.

Lemma Qnat_nonneg (n : nat) : 0 <= Qnat n.
Proof.
  unfold Qnat. change 0 with (inject_Z 0). rewrite <- Zle_Qle. lia.
Qed.

Lemma Qnat_sub (a b : nat) : (b <= a)%nat -> Qnat (a - b) == Qnat a - Qnat b.
Proof.
  intros Hle. unfold Qnat. rewrite Nat2Z.inj_sub by exact Hle.
  unfold Z.sub. now rewrite inject_Z_plus, inject_Z_opp.
Qed.

Lemma Qnat_le (a b : nat) : (a <= b)%nat -> Qnat a <= Qnat b.
Proof. intros Hle. unfold Qnat. rewrite <- Zle_Qle. lia. Qed.

(** On a regular axis of two or more cells the cell size is the step. *)
Lemma regular_resolution (xs : list Q) (d : Q) :
  0 < d -> (2 <= length xs)%nat ->
  (forall k, (k < length xs)%nat -> nth k xs 0 == nth 0 xs 0 + Qnat k * d) ->
  axis_resolution xs == d.
Proof.
  intros Hd Hlen Hreg. destruct xs as [|x0 [|x1 rest]]; simpl in Hlen; try lia.
  pose proof (Hreg 1%nat ltac:(simpl; lia)) as H1. simpl in H1.
  unfold axis_resolution.
  assert (Hdiff : x1 - x0 == d) by (rewrite H1; unfold Qnat; simpl; ring).
  rewrite Hdiff. apply Qabs_pos. now apply Qlt_le_weak.
Qed.

(** Every entry of a regular axis, counted from the smallest one. *)
Lemma regular_from_min (xs : list Q) (m : Q) (j : nat) :
  regular_axis xs -> np_min xs = Some m -> (j < length xs)%nat ->
  nth j xs 0 == m + Qnat j * axis_resolution xs.
Proof.
  intros [d [Hd Hreg]] Hmin Hj.
  destruct (np_min_spec _ Hmin) as [Hin Hall].
  assert (Hm : m == nth 0 xs 0).
  { apply Qle_antisym.
    - rewrite Forall_forall in Hall. apply Hall. apply nth_In. lia.
    - destruct (In_nth _ _ 0 Hin) as [k [Hk <-]].
      rewrite (Hreg k Hk).
      pose proof (Qnat_nonneg k).
      assert (0 <= Qnat k * d) by (apply Qmult_le_0_compat; [assumption | lra]).
      lra. }
  destruct (Nat.le_gt_cases 2 (length xs)) as [Hlen|Hlen].
  - rewrite (@regular_resolution xs d Hd Hlen Hreg), Hm. now apply Hreg.
  - assert (j = 0)%nat by lia. subst j. rewrite Hm.
    unfold Qnat. simpl. ring.
Qed.

(** Every entry of a regular axis, counted down from the largest one. *)
Lemma regular_from_max (xs : list Q) (m : Q) (i : nat) :
  regular_axis xs -> np_max xs = Some m -> (i < length xs)%nat ->
  nth i xs 0 == m - Qnat (length xs - 1 - i) * axis_resolution xs.
Proof.
  intros [d [Hd Hreg]] Hmax Hi.
  destruct (np_max_spec _ Hmax) as [Hin Hall].
  assert (Hm : m == nth (length xs - 1) xs 0).
  { apply Qle_antisym.
    - destruct (In_nth _ _ 0 Hin) as [k [Hk <-]].
      rewrite (Hreg k Hk), (Hreg (length xs - 1)%nat) by lia.
      assert (Qnat k <= Qnat (length xs - 1)) by (apply Qnat_le; lia).
      assert (Qnat k * d <= Qnat (length xs - 1) * d)
        by (apply Qmult_le_compat_r; [assumption | lra]).
      lra.
    - rewrite Forall_forall in Hall. apply Hall. apply nth_In. lia. }
  destruct (Nat.le_gt_cases 2 (length xs)) as [Hlen|Hlen].
  - rewrite (@regular_resolution xs d Hd Hlen Hreg), Hm.
    rewrite (Hreg i Hi), (Hreg (length xs - 1)%nat) by lia.
    rewrite (@Qnat_sub (length xs - 1) i) by lia. ring.
  - assert (i = 0)%nat by lia. subst i.
    replace (length xs - 1 - 0)%nat with 0%nat by lia.
    replace (length xs - 1)%nat with 0%nat in Hm by lia.
    rewrite Hm. unfold Qnat. simpl. ring.
Qed.

End RegularAxes.

Section MaskRows.

Context {G : Type} `{GeometryLaws G}.

Local Open Scope Q_scope.

Lemma existsb_ext_all {A} (f g : A -> bool) (l : list A) :
  (forall x, f x = g x) -> existsb f l = existsb g l.
Proof. intros Hfg. induction l as [|x l IH]; simpl; [reflexivity|]. now rewrite Hfg, IH. Qed.

(** On regular axes, row [r] of the mask shows the cells of the grid row
    counted from the other end: the transform puts row 0 at the largest
    latitude, the dataset has it at [lats[0]]. *)
Lemma mask_rows_from_the_north (polygons : list G) (ds : Dataset)
    (mask : array2 bool) (i j : nat) :
  create_polygon_mask polygons ds = inr mask ->
  regular_axis (longitude ds) -> regular_axis (latitude ds) ->
  (i < length (latitude ds))%nat -> (j < length (longitude ds))%nat ->
  cell mask (length (latitude ds) - 1 - i) j = cell_burnt polygons ds i j.
Proof.
  intros Hmask Hlon Hlat Hi Hj. unfold create_polygon_mask in Hmask.
  destruct (np_min (longitude ds)) as [lon_min|] eqn:Emin; [|discriminate].
  destruct (np_max (latitude ds)) as [lat_max|] eqn:Emax; [|discriminate].
  erewrite rasterize_cell by (try exact Hmask; lia).
  unfold cell_burnt. apply existsb_ext_all. intros g.
  unfold pixel_footprint, pixel_poly, affine_apply, from_origin. simpl.
  pose proof (@regular_from_min (longitude ds) lon_min j Hlon Emin Hj) as Hx.
  pose proof (@regular_from_max (latitude ds) lat_max i Hlat Emax Hi) as Hy.
  set (rl := axis_resolution (longitude ds)) in *.
  set (rt := axis_resolution (latitude ds)) in *.
  set (c := Qnat j) in *.
  set (r := Qnat (length (latitude ds) - 1 - i)) in *.
  apply touched_box_proper; rewrite ?Hx, ?Hy; field.
Qed.


End MaskRows.

(** ** Sequencing and loops *)

Section EventsClosed.

Context {E : Type} (R : list E -> Prop).
Hypothesis R_nil : R [].
Hypothesis R_app : forall a b, R a -> R b -> R (a ++ b).

(** A property of traces that holds of the empty trace and of
    concatenations is kept by sequencing and by loops. *)
Lemma events_bind_closed {A B} (m : M E A) (k : A -> M E B) :
  R (events m) ->
  (forall a, outcome m = inr a -> R (events (k a))) ->
  R (events (bind m k)).
Proof.
  intros Hm Hk. rewrite events_bind.
  destruct (outcome m) as [e|a] eqn:Eo.
  - now rewrite app_nil_r.
  - apply R_app; [exact Hm|now apply Hk].
Qed.

Lemma events_for_count_closed {X} (xs : list X) (body : X -> M E nat) :
  (forall x, In x xs -> R (events (body x))) ->
  R (events (for_count xs body)).
Proof.
  induction xs as [|x rest IH]; intros Hall; simpl; [exact R_nil|].
  apply events_bind_closed; [apply Hall; now left|].
  intros n _. apply events_bind_closed; [|intros; exact R_nil].
  apply IH. intros y Hy. apply Hall. now right.
Qed.

Lemma events_for_append_closed {X Y} (xs : list X) (body : X -> M E (list Y)) :
  (forall x, In x xs -> R (events (body x))) ->
  R (events (for_append xs body)).
Proof.
  induction xs as [|x rest IH]; intros Hall; simpl; [exact R_nil|].
  apply events_bind_closed; [apply Hall; now left|].
  intros n _. apply events_bind_closed; [|intros; exact R_nil].
  apply IH. intros y Hy. apply Hall. now right.
Qed.

End EventsClosed.

Section Loops.

Context {E : Type}.

(** A loop that ends normally ran every turn to its end. *)
Lemma for_count_inr {X} (xs : list X) (body : X -> M E nat) (n : nat) :
  outcome (for_count xs body) = inr n ->
  (forall x, In x xs -> exists k, outcome (body x) = inr k) /\
  events (for_count xs body) = flat_map (fun x => events (body x)) xs /\
  n = list_sum (map (fun x => count_of (body x)) xs).
Proof.
  revert n. induction xs as [|x rest IH]; intros n; simpl.
  - intros Hn. injection Hn as <-. repeat split. intros x [].
  - destruct (body x) as [es [e|k]] eqn:Eb; simpl; [discriminate|].
    destruct (for_count rest body) as [es' [e|m]] eqn:Er; simpl; [discriminate|].
    intros Hn. injection Hn as <-.
    destruct (IH m eq_refl) as [Hall [Hev Hsum]].
    split; [|split].
    + intros y [Hxy|Hy]; [subst y; exists k; now rewrite Eb|now apply Hall].
    + simpl in Hev. rewrite <- Hev. now rewrite app_nil_r.
    + now rewrite Hsum.
Qed.

Lemma for_append_inr {X Y} (xs : list X) (body : X -> M E (list Y)) (ys : list Y) :
  outcome (for_append xs body) = inr ys ->
  (forall x, In x xs -> exists k, outcome (body x) = inr k) /\
  events (for_append xs body) = flat_map (fun x => events (body x)) xs /\
  length ys
  = list_sum (map (fun x => match outcome (body x) with
                            | inr k => length k
                            | inl _ => 0
                            end) xs).
Proof.
  revert ys. induction xs as [|x rest IH]; intros ys; simpl.
  - intros Hn. injection Hn as <-. repeat split. intros x [].
  - destruct (body x) as [es [e|k]] eqn:Eb; simpl; [discriminate|].
    destruct (for_append rest body) as [es' [e|m]] eqn:Er; simpl; [discriminate|].
    intros Hn. injection Hn as <-.
    destruct (IH m eq_refl) as [Hall [Hev Hsum]].
    split; [|split].
    + intros y [Hxy|Hy]; [subst y; exists k; now rewrite Eb|now apply Hall].
    + simpl in Hev. rewrite <- Hev. now rewrite app_nil_r.
    + rewrite length_app, Hsum. reflexivity.
Qed.

Lemma bind_lift_ok {A B} (a : A) (k : A -> M E B) :
  bind (lift (inr a)) k = k a.
Proof. unfold lift, bind. now destruct (k a). Qed.

End Loops.

(** ** One band for every raster announced *)

Section RasterCounts.

Context {G : Type} `{Geometry G}.






End RasterCounts.

(** ** A mask without True cells *)

Section EmptyMask.

Context {G : Type} `{Geometry G}.











End EmptyMask.

Section EmptyMaskRun.

Context {G : Type} `{Geometry G}.


Lemma written_layers_flat_map {X} (f : X -> list (Event G)) (xs : list X) :
  written_layers (flat_map f xs) = flat_map (fun x => written_layers (f x)) xs.
Proof. apply flat_map_flat_map. Qed.





End EmptyMaskRun.

(** *** The rectilinear engine is lawful *)

Section RectLaws.

Import Rect.

Local Open Scope Q_scope.

Lemma Qle_bool_proper (a a' b b' : Q) :
  a == a' -> b == b' -> Qle_bool a b = Qle_bool a' b'.
Proof.
  intros Ha Hb. apply eq_true_iff_eq.
  rewrite !Qle_bool_iff. now rewrite Ha, Hb.
Qed.

Lemma Qltb_proper (a a' b b' : Q) :
  a == a' -> b == b' -> Qltb a b = Qltb a' b'.
Proof.
  intros Ha Hb. unfold Qltb. f_equal. now apply Qle_bool_proper.
Qed.

Lemma qmax_bounds (a b : Q) : a <= qmax a b /\ b <= qmax a b.
Proof.
  unfold qmax. destruct (Qle_bool a b) eqn:E.
  - apply Qle_bool_iff in E. split; [exact E | apply Qle_refl].
  - split; [apply Qle_refl|]. apply Qlt_le_weak. apply Qltb_lt.
    unfold Qltb. now rewrite E.
Qed.

Lemma qmin_bounds (a b : Q) : qmin a b <= a /\ qmin a b <= b.
Proof.
  unfold qmin. destruct (Qle_bool a b) eqn:E.
  - apply Qle_bool_iff in E. split; [apply Qle_refl | exact E].
  - split; [|apply Qle_refl]. apply Qlt_le_weak. apply Qltb_lt.
    unfold Qltb. now rewrite E.
Qed.

Lemma midpoint_between (a b : Q) : a < b -> a < (a + b) / 2 /\ (a + b) / 2 < b.
Proof.
  intros Hab. assert (Hm : (a + b) / 2 * 2 == a + b) by field.
  set (m := (a + b) / 2) in *. split; lra.
Qed.

Lemma nonempty_spec (r : rect) :
  nonempty r = true <-> minx r <= maxx r /\ miny r <= maxy r.
Proof. unfold nonempty. now rewrite andb_true_iff, !Qle_bool_iff. Qed.

Lemma sum_positive (l : list Q) :
  0 < fold_right Qplus 0 l -> exists x, In x l /\ 0 < x.
Proof.
  induction l as [|x l IH]; simpl; intros Hpos.
  - exfalso. exact (Qlt_irrefl 0 Hpos).
  - destruct (Qlt_le_dec 0 x) as [Hx|Hx].
    + exists x. split; [now left | exact Hx].
    + destruct IH as [y [Hin Hy]]; [lra|]. exists y. split; [now right | exact Hy].
Qed.

Lemma intervals_in (cs : list Q) (a b : Q) :
  In (a, b) (intervals cs) -> In a cs /\ In b cs.
Proof.
  induction cs as [|x [|y rest] IH]; simpl; try tauto.
  intros [Heq|Hin].
  - injection Heq as <- <-. tauto.
  - destruct (IH Hin) as [Ha Hb]. simpl in Ha, Hb. tauto.
Qed.

Lemma intervals_ascending (l : list (Q * nat)) (a b : Q) :
  StronglySorted key_le l -> In (a, b) (intervals (map fst l)) -> a <= b.
Proof.
  induction 1 as [|p l Hs IH Hall]; simpl; [tauto|].
  destruct l as [|q rest]; simpl in *; [tauto|].
  intros [Heq|Hin].
  - injection Heq as <- <-. inversion Hall; subst. assumption.
  - now apply IH.
Qed.

Lemma in_sort_coords (cs : list Q) (x : Q) : In x (sort_coords cs) -> In x cs.
Proof.
  unfold sort_coords. rewrite in_map_iff. intros [[k i] [<- Hin]].
  apply (Permutation_in _ (sort_keys_perm _)) in Hin.
  now apply in_combine_l in Hin.
Qed.

(** An interval of the grid cut by the edges: its ends are edges, in
    order. *)
Lemma grid_interval (cs : list Q) (a b : Q) :
  In (a, b) (intervals (sort_coords cs)) -> In a cs /\ In b cs /\ a <= b.
Proof.
  intros Hin. destruct (intervals_in _ _ _ Hin) as [Ha Hb].
  split; [now apply in_sort_coords|]. split; [now apply in_sort_coords|].
  unfold sort_coords in Hin.
  eapply intervals_ascending; [apply sort_keys_sorted | exact Hin].
Qed.

(** A piece of positive area of a region: a point strictly between two
    edges in each direction, covered by the region. *)
Lemma positive_area (g : region) :
  0 < r_area g ->
  exists xa xb ya yb,
    In xa (flat_map (fun r => [minx r; maxx r]) g) /\
    In xb (flat_map (fun r => [minx r; maxx r]) g) /\
    In ya (flat_map (fun r => [miny r; maxy r]) g) /\
    In yb (flat_map (fun r => [miny r; maxy r]) g) /\
    xa < xb /\ ya < yb /\
    covers g ((xa + xb) / 2) ((ya + yb) / 2) = true.
Proof.
  unfold r_area. intros Hpos.
  destruct (sum_positive _ Hpos) as [t [Hin Ht]].
  apply in_flat_map in Hin. destruct Hin as [[xa xb] [Hx Hin]].
  apply in_map_iff in Hin. destruct Hin as [[ya yb] [Heq Hy]].
  simpl in Heq.
  destruct (grid_interval _ _ _ Hx) as (Hxa & Hxb & Hxle).
  destruct (grid_interval _ _ _ Hy) as (Hya & Hyb & Hyle).
  destruct (covers g _ _) eqn:Ec;
    [|subst t; exfalso; exact (Qlt_irrefl 0 Ht)].
  exists xa, xb, ya, yb. repeat (split; [assumption|]).
  subst t.
  assert (Hx0 : ~ xb - xa == 0).
  { intros Hz. rewrite Hz in Ht. ring_simplify in Ht. exact (Qlt_irrefl 0 Ht). }
  assert (Hy0 : ~ yb - ya == 0).
  { intros Hz. rewrite Hz in Ht. ring_simplify in Ht. exact (Qlt_irrefl 0 Ht). }
  split; [|split; [|exact Ec]].
  - destruct (Qlt_le_dec xa xb) as [Hlt|Hge]; [exact Hlt|].
    exfalso. apply Hx0. lra.
  - destruct (Qlt_le_dec ya yb) as [Hlt|Hge]; [exact Hlt|].
    exfalso. apply Hy0. lra.
Qed.

Lemma in_box_intersection (b s' : rect) (h : region) :
  In s' (r_intersection [b] h) ->
  exists s, In s h /\ s' = meet b s /\ nonempty s' = true.
Proof.
  unfold r_intersection. rewrite filter_In. simpl. rewrite app_nil_r.
  rewrite in_map_iff. intros [[s [<- Hs]] Hne]. eauto.
Qed.

Lemma box_intersection_edges_x (b : rect) (h : region) (x : Q) :
  In x (flat_map (fun r => [minx r; maxx r]) (r_intersection [b] h)) ->
  minx b <= x <= maxx b.
Proof.
  rewrite in_flat_map. intros [r [Hr Hx]].
  destruct (in_box_intersection _ _ _ Hr) as (s & _ & -> & Hne).
  apply nonempty_spec in Hne. simpl in Hne, Hx.
  pose proof (qmax_bounds (minx b) (minx s)).
  pose proof (qmin_bounds (maxx b) (maxx s)).
  destruct Hx as [<-|[<-|[]]]; lra.
Qed.

Lemma box_intersection_edges_y (b : rect) (h : region) (y : Q) :
  In y (flat_map (fun r => [miny r; maxy r]) (r_intersection [b] h)) ->
  miny b <= y <= maxy b.
Proof.
  rewrite in_flat_map. intros [r [Hr Hy]].
  destruct (in_box_intersection _ _ _ Hr) as (s & _ & -> & Hne).
  apply nonempty_spec in Hne. simpl in Hne, Hy.
  pose proof (qmax_bounds (miny b) (miny s)).
  pose proof (qmin_bounds (maxy b) (maxy s)).
  destruct Hy as [<-|[<-|[]]]; lra.
Qed.

Lemma rect_laws : @GeometryLaws region rect_geometry.
Proof.
  split.
  - intros x0 y0 x1 y1 x0' y0' x1' y1' g Hx0 Hy0 Hx1 Hy1.
    simpl. unfold r_touched, r_box. simpl. f_equal.
    apply existsb_ext_all. intros s. unfold reaches_inside, nonempty. simpl.
    rewrite (@Qle_bool_proper x0 x0' x1 x1' Hx0 Hx1),
            (@Qle_bool_proper y0 y0' y1 y1' Hy0 Hy1),
            (@Qltb_proper (minx s) (minx s) x1 x1' (Qeq_refl _) Hx1),
            (@Qltb_proper x0 x0' (maxx s) (maxx s) Hx0 (Qeq_refl _)),
            (@Qltb_proper (miny s) (miny s) y1 y1' (Qeq_refl _) Hy1),
            (@Qltb_proper y0 y0' (maxy s) (maxy s) Hy0 (Qeq_refl _)).
    reflexivity.
  - intros x0 y0 x1 y1 gs. simpl. unfold r_union_all, r_box.
    set (b := {| minx := x0; miny := y0; maxx := x1; maxy := y1 |}).
    intros Hpos.
    destruct (positive_area _ Hpos)
      as (xa & xb & ya & yb & Hxa & Hxb & Hya & Hyb & Hx & Hy & Hc).
    apply box_intersection_edges_x in Hxa, Hxb.
    apply box_intersection_edges_y in Hya, Hyb.
    unfold covers in Hc. apply existsb_exists in Hc.
    destruct Hc as [r [Hr Hin]].
    destruct (in_box_intersection _ _ _ Hr) as (s & Hs & -> & Hne).
    apply nonempty_spec in Hne.
    rewrite !andb_true_iff, !Qle_bool_iff in Hin.
    simpl in Hin, Hne, Hxa, Hxb, Hya, Hyb.
    pose proof (qmax_bounds x0 (minx s)).
    pose proof (qmin_bounds x1 (maxx s)).
    pose proof (qmax_bounds y0 (miny s)).
    pose proof (qmin_bounds y1 (maxy s)).
    pose proof (midpoint_between Hx) as Hmx.
    pose proof (midpoint_between Hy) as Hmy.
    apply in_concat in Hs. destruct Hs as [g [Hg Hsg]].
    apply existsb_exists. exists g. split; [exact Hg|].
    unfold r_touched. simpl. rewrite orb_false_r.
    apply existsb_exists. exists s. split; [exact Hsg|].
    unfold reaches_inside.
    rewrite !andb_true_iff, !Qltb_lt, !nonempty_spec. simpl.
    repeat split; lra.
Qed.

End RectLaws.



(** C1 at a grid of one column and two rows with a small square around the
    cell centre (lat 0, lon 0).  [main] turns the provider's descending
    latitudes into the ascending dataset; the square meets the footprint of
    its cell (0, 0), at latitude 0, and not that of cell (1, 0);
    [create_polygon_mask] marks cell (1, 0) and not cell (0, 0); the raster
    then written keeps the value 7 of the cell the region misses, while the
    vector grid of the same run holds the value 5 of the cell it meets. *)
Theorem create_polygon_mask_rows_are_reversed :
  align_grid Scenario.from_provider = inr Scenario.two_rows /\
  cell_touched Scenario.near_origin Scenario.two_rows 0 0 = true /\
  cell_touched Scenario.near_origin Scenario.two_rows 1 0 = false /\
  create_polygon_mask Scenario.near_origin Scenario.two_rows
    = inr [[false]; [true]] /\
  written_bands
    (events (main Scenario.calm (Scenario.args_of "00" "2m_temperature" raster)
               Scenario.near_origin Scenario.from_provider))
    = [ [[F32 7]] ] /\
  map (fun layer => (l_lat_center layer, l_values layer))
    (written_layers
       (events (main Scenario.calm (Scenario.args_of "00" "2m_temperature" vector)
                  Scenario.near_origin Scenario.from_provider)))
    = [ ([0%Q], [Num 5]) ].
Proof. vm_compute. repeat split; reflexivity. Qed.

(** ** The scenarios, run through [main] *)

(** Hours 00 and 12, two days of hourly data, raster mode: four rasters. *)
Example scenario_hours_00_12 :
  artifact_paths
    (events (main Scenario.calm (Scenario.args_of "00,12" "2m_temperature" raster)
               Scenario.near_origin Scenario.hourly))
  = [ "out/2m_temperature_20240101_0000.tif";
      "out/2m_temperature_20240101_1200.tif";
      "out/2m_temperature_20240102_0000.tif";
      "out/2m_temperature_20240102_1200.tif" ]%string.
Proof. vm_compute. reflexivity. Qed.

(** One variable that the dataset holds and one that it does not. *)
Example scenario_unknown_variable :
  let run := main Scenario.calm
               (Scenario.args_of "00" "2m_temperature,no_such_variable" raster)
               Scenario.near_origin Scenario.hourly in
  exit_status run = 0 /\
  In (Print (Variable_not_found "no_such_variable")) (events run) /\
  artifact_paths (events run)
  = [ "out/2m_temperature_20240101_0000.tif";
      "out/2m_temperature_20240102_0000.tif" ]%string.
Proof. vm_compute. repeat split; try reflexivity. tauto. Qed.

(** A region outside the grid, raster mode: full 2 x 2 rasters of NoData. *)
Example scenario_region_outside :
  written_bands
    (events (main Scenario.calm (Scenario.args_of "00" "2m_temperature" raster)
               Scenario.far_away Scenario.hourly))
  = [ [[F32 nodata_value; F32 nodata_value]; [F32 nodata_value; F32 nodata_value]];
      [[F32 nodata_value; F32 nodata_value]; [F32 nodata_value; F32 nodata_value]] ].
Proof. vm_compute. reflexivity. Qed.

(** * Further properties of the worker and its callers *)

(** ** More on the bounding clipper *)

Section ClipMore.

Lemma nth_slice {A} (s e k : nat) (v : list A) (d : A) :
  k < e - s -> nth k (slice s e v) d = nth (s + k) v d.
Proof.
  intros Hk. unfold slice. rewrite nth_firstn.
  apply Nat.ltb_lt in Hk. rewrite Hk. apply nth_skipn.
Qed.

Lemma slice_all {A} (n : nat) (v : list A) : length v <= n -> slice 0 n v = v.
Proof.
  intros Hn. unfold slice. rewrite Nat.sub_0_r. simpl. now apply firstn_all2.
Qed.

Lemma slice_length_le {A} (s e : nat) (v : list A) : length (slice s e v) <= e - s.
Proof. unfold slice. rewrite length_firstn. lia. Qed.

Lemma in_slice {A} (s e : nat) (v : list A) (x : A) : In x (slice s e v) -> In x v.
Proof.
  unfold slice. intros Hin.
  rewrite <- (firstn_skipn s v). apply in_or_app. right.
  rewrite <- (firstn_skipn (e - s) (skipn s v)). apply in_or_app. now left.
Qed.

Lemma slice2_shape {A} (h w r0 r1 c0 c1 : nat) (a : array2 A) :
  has_shape h w a -> r1 <= h -> c1 <= w ->
  has_shape (r1 - r0) (c1 - c0) (slice2 r0 r1 c0 c1 a).
Proof.
  intros [Hh Hw] Hr Hc. unfold slice2. split.
  - rewrite length_map. apply slice_length. lia.
  - rewrite Forall_map. apply Forall_forall. intros row Hrow.
    apply in_slice in Hrow. rewrite Forall_forall in Hw.
    apply slice_length. rewrite (Hw _ Hrow). exact Hc.
Qed.

Lemma cell_slice2 (r0 r1 c0 c1 r c : nat) (a : array2 bool) :
  r < r1 - r0 -> c < c1 - c0 ->
  cell (slice2 r0 r1 c0 c1 a) r c = cell a (r0 + r) (c0 + c).
Proof.
  intros Hr Hc. unfold cell, slice2.
  assert (Hlen : r < length (slice r0 r1 a) \/ length (slice r0 r1 a) <= r) by lia.
  destruct Hlen as [Hlt|Hge].
  - rewrite (nth_map_lt (slice c0 c1) (slice r0 r1 a) [] [] Hlt).
    rewrite nth_slice by exact Hc. now rewrite nth_slice by exact Hr.
  - rewrite (nth_overflow (map (slice c0 c1) (slice r0 r1 a)) [])
      by (rewrite length_map; exact Hge).
    assert (Hrow : nth (r0 + r) a [] = []).
    { rewrite <- (@nth_slice _ r0 r1 r a [] Hr).
      now apply nth_overflow. }
    rewrite Hrow. generalize (c0 + c). intros n. now destruct c, n.
Qed.

(** Weights that vanish outside a window add up to the sum over the window. *)
Lemma list_sum_slice {A} (f : A -> nat) (s e : nat) (v : list A) (d : A) :
  s <= e ->
  (forall k, k < length v -> k < s \/ e <= k -> f (nth k v d) = 0) ->
  list_sum (map f v) = list_sum (map f (slice s e v)).
Proof.
  intros Hse Hout. unfold slice.
  assert (Hzero : forall l : list A,
             (forall x, In x l -> f x = 0) -> list_sum (map f l) = 0).
  { induction l as [|x l IH]; intros Hl; simpl; [reflexivity|].
    rewrite (Hl x (or_introl eq_refl)), IH; [reflexivity|].
    intros y Hy. apply Hl. now right. }
  rewrite <- (firstn_skipn s v) at 1.
  rewrite <- (firstn_skipn (e - s) (skipn s v)) at 1.
  rewrite !map_app, !list_sum_app.
  rewrite (Hzero (firstn s v)), (Hzero (skipn (e - s) (skipn s v))); [lia| |].
  - intros x Hx. destruct (In_nth _ _ d Hx) as [k [Hk <-]].
    rewrite skipn_skipn in *. rewrite length_skipn in Hk.
    rewrite nth_skipn. apply Hout; lia.
  - intros x Hx. destruct (In_nth _ _ d Hx) as [k [Hk <-]].
    rewrite length_firstn in Hk. rewrite nth_firstn.
    assert (Hks : (k <? s) = true) by (apply Nat.ltb_lt; lia).
    rewrite Hks. apply Hout; lia.
Qed.

Lemma count_true_sum (row : list bool) :
  count_occ bool_dec row true
  = list_sum (map (fun b : bool => if b then 1 else 0) row).
Proof.
  induction row as [|b row IH]; simpl; [reflexivity|].
  destruct b; simpl; now rewrite IH.
Qed.

Lemma polygon_pixels_sum (mask : array2 bool) :
  polygon_pixels mask
  = list_sum (map (fun row => count_occ bool_dec row true) mask).
Proof.
  unfold polygon_pixels. induction mask as [|row mask IH]; simpl; [reflexivity|].
  now rewrite count_occ_app, IH.
Qed.

Lemma count_true_none (row : list bool) :
  (forall c, nth c row false = false) -> count_occ bool_dec row true = 0.
Proof.
  intros Hrow. induction row as [|b row IH]; simpl; [reflexivity|].
  pose proof (Hrow 0) as H0. simpl in H0. subst b. simpl.
  apply IH. intros c. exact (Hrow (S c)).
Qed.

(** A window that holds every True cell holds as many True cells as the
    whole array. *)
Lemma polygon_pixels_window (mask : array2 bool) (r0 r1 c0 c1 : nat) :
  r0 <= r1 -> c0 <= c1 ->
  (forall r c, cell mask r c = true -> r0 <= r < r1 /\ c0 <= c < c1) ->
  polygon_pixels (slice2 r0 r1 c0 c1 mask) = polygon_pixels mask.
Proof.
  intros Hr Hc Hin. rewrite !polygon_pixels_sum. unfold slice2.
  rewrite map_map.
  rewrite (list_sum_slice (fun row => count_occ bool_dec row true) mask [] Hr).
  - f_equal. apply map_ext_in. intros row Hrow.
    apply in_slice in Hrow. destruct (In_nth _ _ [] Hrow) as [r [_ Hnth]].
    rewrite !count_true_sum. symmetry.
    apply (list_sum_slice (fun b : bool => if b then 1 else 0) row false Hc).
    intros c _ Hout. destruct (nth c row false) eqn:E; [|reflexivity].
    exfalso. specialize (Hin r c). unfold cell in Hin. rewrite Hnth in Hin.
    specialize (Hin E). lia.
  - intros r _ Hout. apply count_true_none. intros c.
    destruct (nth c (nth r mask []) false) eqn:E; [|reflexivity].
    exfalso. specialize (Hin r c E). lia.
Qed.

Context {V C : Type}.

(** X1. The four results of the clipper fit together: the clipped data and
    the clipped mask have as many rows as there are clipped latitudes and
    as many columns as there are clipped longitudes. *)
Theorem clip_results_have_one_shape :
  forall (data : array2 V) (mask : array2 bool) (lons lats : list C),
    has_shape (length lats) (length lons) data ->
    has_shape (length lats) (length lons) mask ->
    let '(clipped_data, clipped_mask, clipped_lons, clipped_lats) :=
      clip_to_polygon_bounds data mask lons lats in
    has_shape (length clipped_lats) (length clipped_lons) clipped_data /\
    has_shape (length clipped_lats) (length clipped_lons) clipped_mask.
Proof.
  intros data mask lons lats Hd Hm.
  destruct (any (any_axis1 mask)) eqn:Er.
  - apply any_true_iff in Er. destruct Er as [r Hr].
    apply nth_any_axis1 in Hr.
    destruct (clip_bounds Hm (ex_intro _ r Hr)) as [Hrow [Hcol _]].
    destruct Hr as [c Hrc].
    destruct (flags_of_true_cell _ _ Hm Hrc) as [Hrows Hcols].
    rewrite (clip_of_flagged data mask lons lats Hrows Hcols).
    rewrite !slice_length by lia.
    split; [eapply slice2_shape; [exact Hd|lia|lia]
           |eapply slice2_shape; [exact Hm|lia|lia]].
  - rewrite clip_of_unflagged by exact Er. now split.
Qed.

(** X2. Clipping loses no cell of the region: the clipped mask has as many
    True cells as the mask. *)
Theorem clip_keeps_every_true_cell :
  forall (data : array2 V) (mask : array2 bool) (lons lats : list C) (h w : nat),
    has_shape h w mask ->
    let '(_, clipped_mask, _, _) := clip_to_polygon_bounds data mask lons lats in
    polygon_pixels clipped_mask = polygon_pixels mask.
Proof.
  intros data mask lons lats h w Hm.
  destruct (any (any_axis1 mask)) eqn:Er.
  - apply any_true_iff in Er. destruct Er as [r Hr].
    apply nth_any_axis1 in Hr.
    destruct (clip_bounds Hm (ex_intro _ r Hr)) as [Hrow [Hcol [Hin _]]].
    destruct Hr as [c Hrc].
    destruct (flags_of_true_cell _ _ Hm Hrc) as [Hrows Hcols].
    rewrite (clip_of_flagged data mask lons lats Hrows Hcols).
    apply polygon_pixels_window; try lia. exact Hin.
  - now rewrite clip_of_unflagged by exact Er.
Qed.

(** X3. Clipping twice is clipping once: on its own results the clipper
    changes nothing. *)
Theorem clip_is_idempotent :
  forall (data : array2 V) (mask : array2 bool) (lons lats : list C) (h w : nat),
    has_shape h w mask ->
    let '(clipped_data, clipped_mask, clipped_lons, clipped_lats) :=
      clip_to_polygon_bounds data mask lons lats in
    clip_to_polygon_bounds clipped_data clipped_mask clipped_lons clipped_lats
    = (clipped_data, clipped_mask, clipped_lons, clipped_lats).
Proof.
  intros data mask lons lats h w Hm.
  destruct (any (any_axis1 mask)) eqn:Er.
  2: { rewrite clip_of_unflagged by exact Er. now apply clip_of_unflagged. }
  apply any_true_iff in Er. destruct Er as [r Hr].
  apply nth_any_axis1 in Hr.
  destruct (clip_bounds Hm (ex_intro _ r Hr))
    as [Hrow [Hcol [Hin [[ca Ha] [[cb Hb] [[rc Hcc] [rd Hd]]]]]]].
  destruct Hr as [c Hrc].
  destruct (flags_of_true_cell _ _ Hm Hrc) as [Hrows Hcols].
  rewrite (clip_of_flagged data mask lons lats Hrows Hcols).
  set (r0 := argmax (any_axis1 mask)) in *.
  set (r1 := length (any_axis1 mask) - argmax (rev (any_axis1 mask))) in *.
  set (c0 := argmax (any_axis0 mask)) in *.
  set (c1 := length (any_axis0 mask) - argmax (rev (any_axis0 mask))) in *.
  set (cm := slice2 r0 r1 c0 c1 mask).
  assert (Hcm : has_shape (r1 - r0) (c1 - c0) cm)
    by (eapply slice2_shape; [exact Hm|lia|lia]).
  (* every border of the clipped mask holds a True cell *)
  destruct (Hin _ _ Ha) as [_ Hca]. destruct (Hin _ _ Hb) as [_ Hcb].
  destruct (Hin _ _ Hcc) as [Hrc' _]. destruct (Hin _ _ Hd) as [Hrd _].
  assert (Htop : cell cm 0 (ca - c0) = true).
  { unfold cm. rewrite cell_slice2 by lia.
    now replace (r0 + 0) with r0 by lia; replace (c0 + (ca - c0)) with ca by lia. }
  assert (Hbottom : cell cm (r1 - r0 - 1) (cb - c0) = true).
  { unfold cm. rewrite cell_slice2 by lia.
    now replace (r0 + (r1 - r0 - 1)) with (r1 - 1) by lia;
        replace (c0 + (cb - c0)) with cb by lia. }
  assert (Hleft : cell cm (rc - r0) 0 = true).
  { unfold cm. rewrite cell_slice2 by lia.
    now replace (r0 + (rc - r0)) with rc by lia; replace (c0 + 0) with c0 by lia. }
  assert (Hright : cell cm (rd - r0) (c1 - c0 - 1) = true).
  { unfold cm. rewrite cell_slice2 by lia.
    now replace (r0 + (rd - r0)) with rd by lia;
        replace (c0 + (c1 - c0 - 1)) with (c1 - 1) by lia. }
  destruct (clip_bounds Hcm (ex_intro _ 0 (ex_intro _ _ Htop)))
    as [Hrow' [Hcol' [Hin' _]]].
  destruct (flags_of_true_cell _ _ Hcm Htop) as [Hrows' Hcols'].
  rewrite (clip_of_flagged _ cm _ _ Hrows' Hcols').
  pose proof (Hin' _ _ Htop) as [Ht _]. pose proof (Hin' _ _ Hbottom) as [Hbt _].
  pose proof (Hin' _ _ Hleft) as [_ Hl]. pose proof (Hin' _ _ Hright) as [_ Hrt].
  replace (argmax (any_axis1 cm)) with 0 by lia.
  replace (argmax (any_axis0 cm)) with 0 by lia.
  replace (length (any_axis1 cm) - argmax (rev (any_axis1 cm)))
    with (r1 - r0) by lia.
  replace (length (any_axis0 cm) - argmax (rev (any_axis0 cm)))
    with (c1 - c0) by lia.
  assert (Hid : forall (A : Type) (x : array2 A),
             slice2 0 (r1 - r0) 0 (c1 - c0) (slice2 r0 r1 c0 c1 x)
             = slice2 r0 r1 c0 c1 x).
  { intros A x. unfold slice2 at 1.
    rewrite slice_all by (unfold slice2; rewrite length_map; apply slice_length_le).
    unfold slice2. rewrite map_map. apply map_ext. intros row.
    apply slice_all, slice_length_le. }
  unfold cm. rewrite !Hid.
  now rewrite !slice_all by apply slice_length_le.
Qed.

End ClipMore.

Lemma clip_results_have_one_shape_witness :
  has_shape 2 2 [[11; 12]; [21; 22]] /\
  has_shape 2 2 [[true; false]; [false; true]].
Proof.
  exact (@clip_results_have_one_shape nat nat
           Scenario.small_data Scenario.small_mask [0; 1; 2; 3] [0; 1; 2]
           ltac:(split; [reflexivity | repeat constructor])
           ltac:(split; [reflexivity | repeat constructor])).
Defined.

Lemma clip_keeps_every_true_cell_witness :
  polygon_pixels [[true; false]; [false; true]] = polygon_pixels Scenario.small_mask.
Proof.
  exact (@clip_keeps_every_true_cell nat nat
           Scenario.small_data Scenario.small_mask [0; 1; 2; 3] [0; 1; 2] 3 4
           ltac:(split; [reflexivity | repeat constructor])).
Defined.

Lemma clip_is_idempotent_witness :
  clip_to_polygon_bounds [[11; 12]; [21; 22]] [[true; false]; [false; true]]
      [1; 2] [1; 2]
  = ([[11; 12]; [21; 22]], [[true; false]; [false; true]], [1; 2], [1; 2]).
Proof.
  exact (@clip_is_idempotent nat nat
           Scenario.small_data Scenario.small_mask [0; 1; 2; 3] [0; 1; 2] 3 4
           ltac:(split; [reflexivity | repeat constructor])).
Defined.

(** ** Files written and lines printed *)

Section RunInvariants.

Context {G : Type} `{Geometry G}.

Lemma written_paths_app (a b : list (Event G)) :
  written_paths (a ++ b) = written_paths a ++ written_paths b.
Proof. apply flat_map_app. Qed.

Lemma reported_nil : reported (@nil (Event G)).
Proof. reflexivity. Qed.

Lemma reported_app (a b : list (Event G)) :
  reported a -> reported b -> reported (a ++ b).
Proof.
  unfold reported. intros Ha Hb.
  now rewrite written_paths_app, artifact_paths_app, Ha, Hb.
Qed.

Lemma reported_silent (evs : list (Event G)) : Forall silent evs -> reported evs.
Proof.
  unfold reported. induction 1 as [|ev evs Hev _ IH]; [reflexivity|].
  change (ev :: evs) with ([ev] ++ evs).
  rewrite written_paths_app, artifact_paths_app, IH. f_equal.
  destruct ev as [l| | | | | | | | |]; try destruct l; simpl in *;
    (reflexivity || contradiction).
Qed.

Lemma reported_cons (ev : Event G) (evs : list (Event G)) :
  silent ev -> reported evs -> reported (ev :: evs).
Proof.
  intros Hs Hr. change (reported ([ev] ++ evs)).
  apply reported_app; [|exact Hr]. apply reported_silent. now constructor.
Qed.

End RunInvariants.

Section RunInvariantsOfMain.

Context {G : Type} `{Geometry G}.

Lemma map_opt_length {X Y} (f : X -> option Y) (xs : list X) (ys : list Y) :
  map_opt f xs = Some ys -> length ys = length xs.
Proof.
  revert ys. induction xs as [|x rest IH]; intros ys; simpl.
  - now intros [= <-].
  - destruct (f x) as [y|]; [|discriminate].
    destruct (map_opt f rest) as [zs|]; [|discriminate].
    intros [= <-]. simpl. now rewrite (IH zs eq_refl).
Qed.

Lemma save_raster_cases (env : Env) (data : array2 fval) (path : string)
    (lons lats : list Q) :
  (outcome (save_raster (G := G) env data path lons lats) = inr tt /\
   written_paths (events (save_raster (G := G) env data path lons lats)) = [path] /\
   Forall (fun ev => raster_only ev = true /\ aligned_columns ev)
          (events (save_raster (G := G) env data path lons lats)))
  \/ save_raster (G := G) env data path lons lats = ([], inl ValueError).
Proof.
  destruct (np_min lons) as [a|] eqn:Ha; [destruct (np_max lats) as [b|] eqn:Hb|].
  - left. rewrite (save_raster_run env data path lons lats Ha Hb). simpl.
    split; [reflexivity|].
    destruct (16 <? _); destruct (overviews_raise env path);
      destruct (gdal_raise env path); simpl; split;
      (reflexivity || (repeat constructor)).
  - right. unfold save_raster. now rewrite Ha, Hb.
  - right. unfold save_raster. now rewrite Ha.
Qed.

(** One turn of the raster loop: the file it creates is the file it
    announces, it counts what it announces, and it touches no layer. *)
Lemma raster_step_summary (env : Env) (ds : Dataset) (mask : array2 bool)
    (var vname : string) (selected : list Z) (out : string)
    (step : nat * Timestamp) :
  let m := raster_step (G := G) env ds mask var vname selected out step in
  reported (events m) /\
  (forall k, outcome m = inr k -> length (artifact_paths (events m)) = k) /\
  Forall (fun ev => of_format raster ev /\ aligned_columns ev) (events m).
Proof.
  unfold raster_step.
  destruct (hour_selected (snd step) selected).
  2: { repeat split; [now intros k [= <-]|constructor]. }
  destruct (isel_time ds var (fst step)) as [e|data].
  { repeat split; [discriminate|constructor]. }
  rewrite !bind_lift_ok.
  destruct (clip_to_polygon_bounds data mask (longitude ds) (latitude ds))
    as [[[cd cm] cl] clat].
  set (path := Str.path_join out _).
  destruct (save_raster_cases env (np_where cm cd NaN) path cl clat)
    as [[Hok [Hw Hall]]|Hfail].
  - pose proof (@save_raster_no_paths G env (np_where cm cd NaN) path cl clat) as Hnp.
    destruct (save_raster env (np_where cm cd NaN) path cl clat) as [es r].
    unfold events, outcome in *. simpl in Hok, Hw, Hnp, Hall. subst r. simpl.
    split; [|split].
    + unfold reported. rewrite written_paths_app, artifact_paths_app, Hw, Hnp.
      reflexivity.
    + intros k [= <-]. now rewrite artifact_paths_app, Hnp.
    + apply Forall_app. split; [|now repeat constructor].
      eapply Forall_impl; [|exact Hall]. intros ev [Hr Ha]. split; [|exact Ha].
      simpl. destruct ev as [l| | | | | | | | |]; try destruct l;
        simpl in *; (reflexivity || discriminate).
  - rewrite Hfail. simpl. repeat split; [discriminate|constructor].
Qed.

(** One turn of the vector loop. *)
Lemma vector_step_summary (ds : Dataset) (cells : list (G * (nat * nat)))
    (var vname : string) (selected : list Z) (out : string)
    (step : nat * Timestamp) :
  let m := vector_step ds cells var vname selected out step in
  reported (events m) /\
  (forall ys, outcome m = inr ys -> artifact_paths (events m) = ys) /\
  Forall (fun ev => of_format vector ev /\ aligned_columns ev) (events m).
Proof.
  unfold vector_step.
  destruct (hour_selected (snd step) selected).
  2: { repeat split; [now intros k [= <-]|constructor]. }
  destruct (isel_time ds var (fst step)) as [e|data].
  { repeat split; [discriminate|constructor]. }
  rewrite !bind_lift_ok. cbv beta iota zeta.
  destruct (map_opt (fun ij => getitem2 data (fst ij) (snd ij)) (map snd cells))
    as [values|] eqn:Ev.
  2: { simpl. repeat split; [discriminate|constructor]. }
  apply map_opt_length in Ev. simpl.
  split; [reflexivity|]. split; [now intros ys [= <-]|].
  repeat constructor; simpl; rewrite ?length_map in *; (exact Ev || reflexivity).
Qed.

Lemma create_vector_grid_summary (ds : Dataset) (polygons : list G)
    (var vname : string) (selected : list Z) (out : string) :
  let m := create_vector_grid ds polygons var vname selected out in
  reported (events m) /\
  (forall ys, outcome m = inr ys -> length (artifact_paths (events m)) = length ys) /\
  Forall (fun ev => of_format vector ev /\ aligned_columns ev) (events m).
Proof.
  unfold create_vector_grid.
  set (cells := vector_cells (longitude ds) (latitude ds) (union_all polygons)).
  set (body := vector_step ds cells var vname selected out).
  assert (Hbody : forall step,
             reported (events (body step)) /\
             (forall ys, outcome (body step) = inr ys ->
                         artifact_paths (events (body step)) = ys) /\
             Forall (fun ev => of_format vector ev /\ aligned_columns ev)
                    (events (body step)))
    by (intros step; apply vector_step_summary).
  destruct (map fst cells) as [|g gs].
  { simpl. repeat split; [now intros ys [= <-]|repeat constructor..]. }
  destruct (time_values ds) as [e|times].
  { simpl. repeat split; [discriminate|repeat constructor..]. }
  rewrite !bind_lift_ok.
  destruct (for_append (enumerate times) body) as [es r] eqn:Ef.
  assert (Hes : reported es /\ Forall (fun ev => of_format vector ev /\ aligned_columns ev) es).
  { change es with (events (es, r)). rewrite <- Ef. split.
    - apply (events_for_append_closed reported reported_nil reported_app).
      intros step _. apply Hbody.
    - apply events_for_append_Forall. intros step _. apply Hbody. }
  destruct Hes as [Hrep Hall]. simpl.
  split; [|split].
  - exact Hrep.
  - intros ys Hys. subst r.
    assert (Ho : outcome (for_append (enumerate times) body) = inr ys)
      by now rewrite Ef.
    destruct (for_append_inr _ _ Ho) as [Hok [Hev Hlen]].
    rewrite Ef in Hev. simpl in Hev. rewrite Hev, Hlen.
    rewrite artifact_paths_flat_map, length_flat_map. f_equal.
    apply map_ext_in. intros step Hin.
    destruct (Hok step Hin) as [k Hk]. rewrite Hk.
    now rewrite (proj1 (proj2 (Hbody step)) k Hk).
  - constructor; [now split|exact Hall].
Qed.

Lemma process_variable_summary (env : Env) (fmt : OutputFormat) (out : string)
    (polygons : list G) (ds : Dataset) (mask : array2 bool)
    (selected : list Z) (v : string) :
  let m := process_variable env fmt out polygons ds mask selected v in
  reported (events m) /\
  (forall k, outcome m = inr k -> length (artifact_paths (events m)) = k) /\
  Forall (fun ev => of_format fmt ev /\ aligned_columns ev) (events m).
Proof.
  unfold process_variable.
  destruct (resolve_variable ds v) as [var|].
  2: { simpl. repeat split; [now intros k [= <-]|destruct fmt; repeat constructor]. }
  destruct fmt.
  - unfold emit_rasters.
    set (body := raster_step env ds mask var v selected out).
    assert (Hbody : forall step,
               reported (events (body step)) /\
               (forall k, outcome (body step) = inr k ->
                          length (artifact_paths (events (body step))) = k) /\
               Forall (fun ev => of_format raster ev /\ aligned_columns ev)
                      (events (body step)))
      by (intros step; apply raster_step_summary).
    destruct (time_values ds) as [e|times].
    { simpl. repeat split; [discriminate|repeat constructor]. }
    rewrite !bind_lift_ok.
    destruct (for_count (enumerate times) body) as [es r] eqn:Ef.
    assert (Hes : reported es /\
                  Forall (fun ev => of_format raster ev /\ aligned_columns ev) es).
    { change es with (events (es, r)). rewrite <- Ef. split.
      - apply (events_for_count_closed reported reported_nil reported_app).
        intros step _. apply Hbody.
      - apply events_for_count_Forall. intros step _. apply Hbody. }
    destruct Hes as [Hrep Hall]. simpl.
    split; [|split].
    + exact Hrep.
    + intros k Hk. subst r.
      assert (Ho : outcome (for_count (enumerate times) body) = inr k)
        by now rewrite Ef.
      destruct (for_count_inr _ _ Ho) as [Hok [Hev Hsum]].
      rewrite Ef in Hev. simpl in Hev. rewrite Hev, Hsum.
      rewrite artifact_paths_flat_map, length_flat_map. f_equal.
      apply map_ext_in. intros step Hin.
      destruct (Hok step Hin) as [j Hj]. unfold count_of. rewrite Hj.
      now apply Hbody.
    + constructor; [now split|exact Hall].
  - destruct (create_vector_grid_summary ds polygons var v selected out)
      as [Hrep [Hlen Hall]].
    destruct (create_vector_grid ds polygons var v selected out) as [es [e|ys]].
    + simpl in *. split; [|split].
      * now apply reported_cons.
      * discriminate.
      * constructor; [now split|exact Hall].
    + simpl in *. rewrite app_nil_r. split; [|split].
      * now apply reported_cons.
      * intros k [= <-]. now apply Hlen.
      * constructor; [now split|exact Hall].
Qed.

(** The variable loop of [main]. *)
Lemma variables_summary (env : Env) (fmt : OutputFormat) (out : string)
    (polygons : list G) (ds : Dataset) (mask : array2 bool)
    (selected : list Z) (variables : list string) :
  let m := for_count variables
             (process_variable env fmt out polygons ds mask selected) in
  reported (events m) /\
  (forall n, outcome m = inr n -> length (artifact_paths (events m)) = n) /\
  Forall (fun ev => of_format fmt ev /\ aligned_columns ev) (events m).
Proof.
  cbv zeta. split; [|split].
  - apply (events_for_count_closed reported reported_nil reported_app).
    intros v _. apply process_variable_summary.
  - intros n Hn. destruct (for_count_inr _ _ Hn) as [Hok [Hev Hsum]].
    rewrite Hev, Hsum, artifact_paths_flat_map, length_flat_map. f_equal.
    apply map_ext_in. intros v Hin. destruct (Hok v Hin) as [k Hk].
    unfold count_of. rewrite Hk. now apply process_variable_summary.
  - apply events_for_count_Forall. intros v _. apply process_variable_summary.
Qed.

(** The try block, as far as files and artifact lines go: a silent
    prelude, the variable loop, and the closing line. *)
Lemma main_try_shape (env : Env) (hours variables : list string) (out : string)
    (fmt : OutputFormat) (polygons : list G) (raw : Dataset) :
  let run := main_try env hours variables out fmt polygons raw in
  (exists pre, events run = pre /\ Forall silent pre /\
               Forall (of_format fmt) pre /\ exists e, outcome run = inl e)
  \/
  (exists pre ds mask selected,
      Forall silent pre /\ Forall (of_format fmt) pre /\
      align_grid raw = inr ds /\
      create_polygon_mask polygons ds = inr mask /\
      map_opt Str.int hours = Some selected /\
      let loop := for_count variables
                    (process_variable env fmt out polygons ds mask selected) in
      events run = pre ++ events loop
                   ++ match outcome loop with
                      | inr n => [Print (finished_line fmt n)]
                      | inl _ => []
                      end /\
      outcome run = match outcome loop with
                    | inr _ => inr tt
                    | inl e => inl e
                    end).
Proof.
  unfold main_try.
  destruct (align_grid raw) as [e|ds].
  { left. eexists. simpl. repeat split; [| |now exists e];
      destruct fmt; repeat constructor. }
  destruct (create_polygon_mask polygons ds) as [e|mask] eqn:Em.
  { left. eexists. simpl. rewrite Em. simpl.
    repeat split; [| |now exists e]; destruct fmt; repeat constructor. }
  destruct (map_opt Str.int hours) as [selected|] eqn:Eh.
  2: { left. eexists. simpl. rewrite Em. simpl.
       repeat split; [| |now exists ValueError]; destruct fmt; repeat constructor. }
  right.
  exists [Print (Available_variables (map fst (data_vars raw)));
          Print Generating_mask;
          Print (Mask_generated (count_occ bool_dec (concat mask) true)
                                (length (concat mask)))], ds, mask, selected.
  split; [repeat constructor|]. split; [destruct fmt; repeat constructor|].
  repeat split; try assumption; try reflexivity.
  - simpl. rewrite Em. simpl.
    destruct (for_count variables _) as [es [e|n]]; simpl;
      [now rewrite app_nil_r|].
    destruct fmt; reflexivity.
  - simpl. rewrite Em. simpl.
    destruct (for_count variables _) as [es [e|n]]; simpl; [reflexivity|].
    destruct fmt; reflexivity.
Qed.

Lemma silent_aligned (ev : Event G) : silent ev -> aligned_columns ev.
Proof. destruct ev; simpl; tauto. Qed.

Lemma main_try_summary (env : Env) (hours variables : list string) (out : string)
    (fmt : OutputFormat) (polygons : list G) (raw : Dataset) :
  let run := main_try env hours variables out fmt polygons raw in
  reported (events run) /\
  Forall (fun ev => of_format fmt ev /\ aligned_columns ev) (events run).
Proof.
  intros run.
  destruct (main_try_shape env hours variables out fmt polygons raw)
    as [[pre [Hev [Hs [Hf _]]]]
       |[pre [ds [mask [selected [Hs [Hf [_ [_ [_ [Hev _]]]]]]]]]]];
    fold run in Hev; rewrite Hev.
  - split; [now apply reported_silent|].
    apply Forall_forall. intros ev Hin. rewrite Forall_forall in Hs, Hf.
    split; [now apply Hf|now apply silent_aligned, Hs].
  - destruct (variables_summary env fmt out polygons ds mask selected variables)
      as [Hrep [_ Hall]].
    assert (Htail : Forall silent
              match outcome (for_count variables
                      (process_variable env fmt out polygons ds mask selected)) with
              | inr n => [Print (finished_line fmt n)]
              | inl _ => @nil (Event G)
              end /\
            Forall (of_format fmt)
              match outcome (for_count variables
                      (process_variable env fmt out polygons ds mask selected)) with
              | inr n => [Print (finished_line fmt n)]
              | inl _ => @nil (Event G)
              end).
    { destruct (outcome _); destruct fmt; repeat constructor. }
    destruct Htail as [Hts Htf]. split.
    + apply reported_app; [now apply reported_silent|].
      apply reported_app; [exact Hrep|now apply reported_silent].
    + rewrite !Forall_app. repeat split; try exact Hall;
        apply Forall_forall; intros ev Hin;
        rewrite Forall_forall in Hs, Hf, Hts, Htf;
        (split; [auto|apply silent_aligned; auto]).
Qed.

(** X4. Every file the worker creates is announced on its standard output
    and nothing else is: in every run, failing or not, in either mode and
    up to the last line of [main], the paths handed to [rasterio.open] and
    to [to_file] are the paths of the RASTER_PATH and VECTOR_PATH lines, in
    the same order. (A write that itself fails is not among the failures
    considered.) *)
Theorem every_written_file_is_reported :
  forall (env : Env) (args : Args) (polygons : list G) (raw : Dataset),
    written_paths (events (main env args polygons raw))
    = artifact_paths (events (main env args polygons raw)).
Proof.
  intros env args polygons raw. fold (reported (events (main env args polygons raw))).
  unfold main.
  destruct (main_try_summary env (Str.split ","%char (a_hours args))
              (Str.split ","%char (a_vars args)) (a_out args)
              (a_output_format args) polygons raw) as [Hrep _].
  destruct (outcome _) as [e|u]; simpl; apply reported_app; try exact Hrep;
    apply reported_silent; destruct (temp_file_removed env); repeat constructor.
Qed.

(** X5. The output format decides what a run can do: in raster mode no
    layer is written and no line of the vector branch is printed, in vector
    mode no raster file is opened, written or updated and no line of the
    raster branch is printed; and whatever layer is written has its value
    column and its two centre columns as long as its geometry column. *)
Theorem run_keeps_to_its_format :
  forall (env : Env) (args : Args) (polygons : list G) (raw : Dataset),
    Forall (fun ev => of_format (a_output_format args) ev /\ aligned_columns ev)
           (events (main env args polygons raw)).
Proof.
  intros env args polygons raw. unfold main.
  destruct (main_try_summary env (Str.split ","%char (a_hours args))
              (Str.split ","%char (a_vars args)) (a_out args)
              (a_output_format args) polygons raw) as [_ Hall].
  destruct (outcome _) as [e|u]; simpl; rewrite !Forall_app;
    repeat split; try exact Hall;
    destruct (a_output_format args); destruct (temp_file_removed env);
    repeat constructor.
Qed.

(** X6. The closing line counts what was announced: when the try block of
    [main] ends normally its last line is the report of the mode, and the
    number in it is the number of RASTER_PATH and VECTOR_PATH lines printed
    before it, which is the number of files created. *)
Theorem final_report_counts_the_artifacts :
  forall (env : Env) (hours variables : list string) (out : string)
         (fmt : OutputFormat) (polygons : list G) (raw : Dataset),
    let run := main_try env hours variables out fmt polygons raw in
    outcome run = inr tt ->
    exists pre,
      events run
      = pre ++ [Print (finished_line fmt (length (artifact_paths pre)))] /\
      length (written_paths pre) = length (artifact_paths pre).
Proof.
  intros env hours variables out fmt polygons raw run Hok.
  destruct (main_try_shape env hours variables out fmt polygons raw)
    as [[pre [_ [_ [_ [e He]]]]]
       |[pre [ds [mask [selected [Hs [_ [_ [_ [_ [Hev Hout]]]]]]]]]]].
  { fold run in He. congruence. }
  fold run in Hev, Hout.
  destruct (variables_summary env fmt out polygons ds mask selected variables)
    as [Hrep [Hcount _]].
  destruct (outcome (for_count variables _)) as [e|n] eqn:Eo; [congruence|].
  specialize (Hcount n eq_refl).
  exists (pre ++ events (for_count variables
                           (process_variable env fmt out polygons ds mask selected))).
  assert (Hpre : artifact_paths pre = [] /\ written_paths pre = []).
  { clear -Hs. induction Hs as [|ev evs Hev _ [IHa IHw]]; [now split|].
    change (ev :: evs) with ([ev] ++ evs).
    rewrite artifact_paths_app, written_paths_app, IHa, IHw.
    destruct ev as [l| | | | | | | | |]; try destruct l; simpl in *;
      (now split) || contradiction. }
  destruct Hpre as [Hpa Hpw].
  rewrite artifact_paths_app, written_paths_app, Hpa, Hpw, Hrep. simpl.
  rewrite Hcount. split; [|reflexivity].
  rewrite Hev. now rewrite app_assoc.
Qed.

(** X7. A run that cannot get past its preparations creates nothing: with
    an hour that is not a number the conversion raises, and with no polygon
    the rasterization raises where the rasterizer is one that raises when
    it is given no shape; either way the exit status is 1, no file is
    created and no path is announced. (Under a rasterizer that returns the
    fill array for no shape, a run without polygons goes on with a mask
    without True cells.) *)
Theorem no_file_without_polygons_or_hours :
  forall (env : Env) (args : Args) (polygons : list G) (raw : Dataset),
    (polygons = [] /\ no_shape_raises (G := G) = true)
    \/ map_opt Str.int (Str.split ","%char (a_hours args)) = None ->
    let run := main env args polygons raw in
    exit_status run = 1 /\ written_paths (events run) = [] /\
    artifact_paths (events run) = [].
Proof.
  intros env args polygons raw Hbad run.
  assert (Hmask : polygons = [] -> no_shape_raises (G := G) = true ->
                  forall ds, create_polygon_mask polygons ds = inl ValueError).
  { intros -> Hraises ds. unfold create_polygon_mask, rasterize.
    rewrite Hraises.
    destruct (np_min (longitude ds)); [|reflexivity].
    destruct (np_max (latitude ds)); reflexivity. }
  unfold run, main, exit_status, main_try.
  destruct (temp_file_removed env);
    (destruct (align_grid raw) as [e|ds]; [simpl; now repeat split|]);
    (destruct (create_polygon_mask polygons ds) as [e|mask] eqn:Em;
     [simpl; rewrite Em; simpl; now repeat split|]);
    (destruct Hbad as [[Hp Hraises]|Hh];
     [rewrite (Hmask Hp Hraises ds) in Em; discriminate|]);
    simpl; rewrite Em; simpl; rewrite Hh; simpl; now repeat split.
Qed.

End RunInvariantsOfMain.

Lemma final_report_counts_the_artifacts_witness :
  last (events (main_try Scenario.calm ["00"]%string ["2m_temperature"]%string
                  "out" raster Scenario.near_origin Scenario.from_provider))
       (Print Generating_mask)
  = Print (Finished_raster 1).
Proof.
  destruct (@final_report_counts_the_artifacts Rect.region Rect.rect_geometry
              Scenario.calm ["00"]%string ["2m_temperature"]%string
              "out"%string raster Scenario.near_origin Scenario.from_provider
              eq_refl) as [pre [Hev _]].
  pose proof (f_equal (@removelast _) Hev) as Hpre.
  rewrite removelast_last in Hpre.
  rewrite Hev, last_last, <- Hpre. reflexivity.
Defined.

(** An hour that is not a number; and no polygon, under a rasterizer that
    raises on no shape. *)
Lemma no_file_without_polygons_or_hours_witness :
  (let run := main (G := Rect.region) Scenario.calm
                (Scenario.args_of "00,noon" "2m_temperature" raster)
                Scenario.near_origin Scenario.hourly in
   exit_status run = 1 /\ written_paths (events run) = [] /\
   artifact_paths (events run) = []) /\
  (let run := main (H := Rect.raising_geometry) Scenario.calm
                (Scenario.args_of "00" "2m_temperature" raster)
                [] Scenario.hourly in
   exit_status run = 1 /\ written_paths (events run) = [] /\
   artifact_paths (events run) = []).
Proof.
  split.
  - exact (@no_file_without_polygons_or_hours Rect.region Rect.rect_geometry
             Scenario.calm (Scenario.args_of "00,noon" "2m_temperature" raster)
             Scenario.near_origin Scenario.hourly (or_intror eq_refl)).
  - exact (@no_file_without_polygons_or_hours Rect.region Rect.raising_geometry
             Scenario.calm (Scenario.args_of "00" "2m_temperature" raster)
             [] Scenario.hourly (or_introl (conj eq_refl eq_refl))).
Defined.

(** The cast of a written band: a tenth is rounded to the nearest
    float32, NaN becomes the sentinel. *)
Example scenario_float32_band :
  written_bands
    (events (save_raster (G := Rect.region) Scenario.calm [[Num (1 # 10); NaN]]
               "out/a.tif" [0; 1]%Q [0]%Q))
  = [ [[F32 (13421773 # 134217728); F32 nodata_value]] ].
Proof. vm_compute. reflexivity. Qed.

(** No polygon, under a rasterizer that returns the fill array for no
    shape: the run ends normally with two rasters of NoData. *)
Example scenario_no_polygon :
  let run := main (G := Rect.region) Scenario.calm
               (Scenario.args_of "00" "2m_temperature" raster)
               [] Scenario.hourly in
  exit_status run = 0 /\
  artifact_paths (events run)
  = [ "out/2m_temperature_20240101_0000.tif";
      "out/2m_temperature_20240102_0000.tif" ]%string /\
  written_bands (events run)
  = [ [[F32 nodata_value; F32 nodata_value]; [F32 nodata_value; F32 nodata_value]];
      [[F32 nodata_value; F32 nodata_value]; [F32 nodata_value; F32 nodata_value]] ].
Proof. vm_compute. repeat split; reflexivity. Qed.

(** ** Where the pixels lie *)

Section PixelGeometry.

Local Open Scope Q_scope.

Context {G : Type} `{GeometryLaws G}.

(** X8. The transform of a written raster puts row 0 in the north: for
    evenly spaced ascending axes, [save_raster] opens the file with a
    transform under which the centre of pixel [(r, c)] is the longitude
    [lons[c]] and the latitude [lats[n - 1 - r]], [n] being the number of
    latitudes; the band it writes is [data] row for row, with NaN replaced
    by the sentinel and every value rounded to float32. *)
Theorem save_raster_pixel_centres :
  forall (env : Env) (data : array2 fval) (output_path : string)
         (lons lats : list Q),
    lons <> [] -> lats <> [] -> regular_axis lons -> regular_axis lats ->
    exists profile rest,
      events (save_raster (G := G) env data output_path lons lats)
      = Rio_open output_path profile
        :: Rio_write 1
             (map (map (fun v => Float32.of_Q match v with
                                 | NaN => nodata_value
                                 | Num q => q
                                 end)) data)
        :: rest /\
      forall r c : nat,
        (r < length lats)%nat -> (c < length lons)%nat ->
        fst (pixel_centre (p_transform profile) r c) == nth c lons 0 /\
        snd (pixel_centre (p_transform profile) r c)
        == nth (length lats - 1 - r) lats 0.
Proof.
  intros env data path lons lats Hlon Hlat Hrlon Hrlat.
  destruct (np_min_nonempty Hlon) as [lon_min Hmin].
  destruct (np_max_nonempty Hlat) as [lat_max Hmax].
  rewrite (save_raster_run env data path lons lats Hmin Hmax).
  eexists. eexists. split; [reflexivity|].
  intros r c Hr Hc. unfold pixel_centre, affine_apply, from_origin. simpl.
  pose proof (@regular_from_min lons lon_min c Hrlon Hmin Hc) as Hx.
  pose proof (@regular_from_max lats lat_max (length lats - 1 - r)%nat
                Hrlat Hmax ltac:(lia)) as Hy.
  replace (length lats - 1 - (length lats - 1 - r))%nat with r in Hy by lia.
  rewrite Hx, Hy. split; field.
Qed.

(** X9. The vector grid keeps no cell that the mask leaves out: on evenly
    spaced ascending axes, a cell [(i, j)] for which [create_vector_grid]
    keeps a clipped square is True in the mask of [create_polygon_mask],
    in the row counted from the other end, [n - 1 - i]. *)
Theorem vector_cells_are_masked :
  forall (polygons : list G) (ds : Dataset) (mask : array2 bool)
         (g : G) (i j : nat),
    create_polygon_mask polygons ds = inr mask ->
    regular_axis (longitude ds) -> regular_axis (latitude ds) ->
    In (g, (i, j))
       (vector_cells (longitude ds) (latitude ds) (union_all polygons)) ->
    cell mask (length (latitude ds) - 1 - i) j = true.
Proof.
  intros polygons ds mask g i j Hmask Hlon Hlat Hin.
  apply vector_cells_spec in Hin. destruct Hin as (Hi & Hj & _ & -> & _ & Harea).
  erewrite mask_rows_from_the_north by eassumption.
  unfold cell_burnt. unfold pixel_poly in *. now apply overlap_is_touched.
Qed.

End PixelGeometry.

Section EmptyAxes.

Context {G : Type} `{Geometry G}.

(** X10. An axis without entries is a ValueError, raised before anything
    is written: [create_polygon_mask] returns no mask, and [save_raster]
    opens no file and prints nothing. *)
Theorem empty_axis_is_a_value_error :
  forall (env : Env) (polygons : list G) (ds : Dataset)
         (data : array2 fval) (output_path : string) (lons lats : list Q),
    (longitude ds = [] \/ latitude ds = [] -> 
     create_polygon_mask polygons ds = inl ValueError) /\
    (lons = [] \/ lats = [] ->
     save_raster (G := G) env data output_path lons lats = ([], inl ValueError)).
Proof.
  intros env polygons ds data path lons lats. split.
  - unfold create_polygon_mask. intros [-> | ->]; [reflexivity|].
    now destruct (np_min (longitude ds)).
  - unfold save_raster. intros [-> | ->]; [reflexivity|].
    now destruct (np_min lons).
Qed.

End EmptyAxes.

(** ** More on the alignment of the grid *)

Section AlignMore.

Local Open Scope Q_scope.

Lemma insert_key_last (k : Q) (i : nat) (l : list (Q * nat)) :
  Forall (fun p => fst p < k) l -> insert_key k i l = l ++ [(k, i)].
Proof.
  induction 1 as [|[k' i'] l Hlt _ IH]; simpl; [reflexivity|].
  simpl in Hlt. destruct (Qle_bool k k') eqn:E.
  - apply Qle_bool_iff in E. lra.
  - now rewrite IH.
Qed.

(** Sorting keys that come in strictly descending order reverses them. *)
Lemma sort_keys_descending (l : list (Q * nat)) :
  strictly_descending (map fst l) -> sort_keys l = rev l.
Proof.
  unfold strictly_descending. induction l as [|[k i] l IH]; simpl; [reflexivity|].
  intros Hs. apply StronglySorted_inv in Hs. destruct Hs as [Hs Hall].
  rewrite (IH Hs). apply insert_key_last.
  apply Forall_rev. rewrite Forall_map in Hall. exact Hall.
Qed.

Lemma map_fst_combine_seq (keys : list Q) (s : nat) :
  map fst (combine keys (seq s (length keys))) = keys.
Proof.
  revert s. induction keys as [|k keys IH]; intros s; simpl; [reflexivity|].
  now rewrite IH.
Qed.

Lemma argsort_descending (keys : list Q) :
  strictly_descending keys -> argsort keys = rev (seq 0 (length keys)).
Proof.
  intros Hs. unfold argsort. rewrite sort_keys_descending.
  - now rewrite map_rev, map_snd_combine_seq.
  - now rewrite map_fst_combine_seq.
Qed.

Lemma take_rev_seq {A} (l : list A) (d : A) :
  map (fun i => nth i l d) (rev (seq 0 (length l))) = rev l.
Proof.
  rewrite map_rev. f_equal.
  induction l as [|x l IH]; [reflexivity|].
  simpl length. change (seq 0 (S (length l))) with (0%nat :: seq 1 (length l)).
  rewrite <- seq_shift. simpl. rewrite map_map. simpl. now rewrite IH.
Qed.

Lemma sorted_first_le_last (x : Q) (l : list Q) :
  StronglySorted Qle (x :: l) -> x <= last (x :: l) x.
Proof.
  intros Hs. apply StronglySorted_inv in Hs. destruct Hs as [_ Hall].
  destruct l as [|y l]; [simpl; lra|].
  rewrite Forall_forall in Hall. apply Hall.
  change (In (last (x :: y :: l) x) (y :: l)).
  assert (Hl : forall (a : Q) (m : list Q), In (last (a :: m) x) (a :: m)).
  { intros a m. revert a. induction m as [|b m IH]; intros a; [now left|].
    right. exact (IH b). }
  exact (Hl y l).
Qed.

Lemma descending_last_lt_first (x y : Q) (l : list Q) :
  strictly_descending (x :: y :: l) -> last (x :: y :: l) x < x.
Proof.
  intros Hs. apply StronglySorted_inv in Hs. destruct Hs as [_ Hall].
  rewrite Forall_forall in Hall. apply Hall.
  assert (Hl : forall (a : Q) (m : list Q), In (last (a :: m) x) (a :: m)).
  { intros a m. revert a. induction m as [|b m IH]; intros a; [now left|].
    right. exact (IH b). }
  exact (Hl y l).
Qed.

Lemma descending_rev_ascending (l : list Q) :
  strictly_descending l -> strictly_ascending (rev l).
Proof.
  unfold strictly_descending, strictly_ascending.
  induction l as [|x l IH]; intros Hs; simpl; [constructor|].
  apply StronglySorted_inv in Hs. destruct Hs as [Hs Hall].
  specialize (IH Hs). clear Hs.
  revert IH. generalize (rev l) (Forall_rev Hall). clear.
  intros m. induction m as [|a m IH]; intros Hall Hm; simpl.
  - repeat constructor.
  - apply StronglySorted_inv in Hm. destruct Hm as [Hm Ha].
    inversion Hall as [|? ? Hax Hall']; subst.
    constructor; [now apply IH|].
    apply Forall_app. split; [exact Ha|now constructor].
Qed.

(** X11. Latitudes that come from north to south are turned round: when
    the latitude axis is strictly descending and has two entries or more,
    [align_latitude] returns the grid upside down, with the latitudes
    reversed, hence strictly ascending, every array reversed row by row
    and the longitudes and times untouched. *)
Theorem align_latitude_turns_the_grid :
  forall ds : Dataset,
    strictly_descending (latitude ds) ->
    (2 <= length (latitude ds))%nat ->
    (forall name slices, In (name, slices) (data_vars ds) ->
       Forall (fun a => length a = length (latitude ds)) slices) ->
    align_latitude ds = inr (reverse_latitude ds) /\
    strictly_ascending (latitude (reverse_latitude ds)).
Proof.
  intros ds Hs Hlen Hrows. split; [|now apply descending_rev_ascending].
  unfold align_latitude.
  destruct (latitude ds) as [|x [|y l]] eqn:El; simpl in Hlen; try lia.
  pose proof (descending_last_lt_first Hs) as Hlt.
  apply Qltb_lt in Hlt. rewrite Hlt. f_equal.
  unfold sortby_latitude, isel_latitude, reverse_latitude.
  rewrite El, (argsort_descending Hs), take_rev_seq. f_equal.
  apply map_ext_in. intros [name slices] Hin. f_equal.
  apply map_ext_in. intros a Ha.
  specialize (Hrows name slices Hin). rewrite Forall_forall in Hrows.
  rewrite <- (Hrows a Ha). apply take_rev_seq.
Qed.

Lemma align_longitude_settled (raw ds : Dataset) :
  align_longitude raw = inr ds ->
  longitude ds <> [] /\ forall x, In x (longitude ds) -> x <= 180.
Proof.
  unfold align_longitude.
  destruct (np_max (longitude raw)) as [m|] eqn:Emax; [|discriminate].
  destruct (Qltb 180 m) eqn:E; intros [= <-].
  - simpl. split.
    + intros Hnil. apply (f_equal (@length Q)) in Hnil.
      rewrite length_map, argsort_length, length_map in Hnil.
      destruct (longitude raw); [discriminate|]. simpl in Hnil. lia.
    + intros x Hx. apply in_map_iff in Hx. destruct Hx as [j [<- Hj]].
      assert (Hjlt : (j < length (longitude raw))%nat).
      { pose proof (argsort_perm (map wrap_longitude (longitude raw))) as Hp.
        apply (Permutation_in _ Hp) in Hj. apply in_seq in Hj.
        rewrite length_map in Hj. lia. }
      rewrite (nth_wrapped _ Hjlt).
      destruct (wrap_longitude_range (nth j (longitude raw) 0)). lra.
  - apply Qltb_ge in E. destruct (np_max_spec _ Emax) as [Hin Hall]. split.
    + intros Hnil. rewrite Hnil in Hin. contradiction.
    + intros x Hx. rewrite Forall_forall in Hall. specialize (Hall x Hx). lra.
Qed.

Lemma align_latitude_settled (mid ds : Dataset) :
  align_latitude mid = inr ds ->
  longitude ds = longitude mid /\ align_latitude ds = inr ds.
Proof.
  unfold align_latitude at 1.
  destruct (latitude mid) as [|first rest] eqn:El; [discriminate|].
  destruct (Qltb (last (first :: rest) first) first) eqn:E; intros [= <-].
  - split; [reflexivity|]. unfold align_latitude.
    pose proof (sorted_axis_ascending (latitude mid)) as Hs.
    change (latitude (sortby_latitude mid))
      with (map (fun i => nth i (latitude mid) 0) (argsort (latitude mid))).
    destruct (map (fun i => nth i (latitude mid) 0) (argsort (latitude mid)))
      as [|a l] eqn:Em.
    + apply (f_equal (@length Q)) in Em.
      rewrite length_map, argsort_length, El in Em. discriminate.
    + pose proof (sorted_first_le_last Hs) as Hle.
      apply Qltb_ge in Hle. now rewrite Hle.
  - split; [reflexivity|]. unfold align_latitude. now rewrite El, E.
Qed.

(** X12. Aligning an aligned grid changes nothing: what the two alignment
    steps of [main] return, they return unchanged when applied to it. *)
Theorem align_grid_is_idempotent :
  forall raw ds : Dataset,
    align_grid raw = inr ds -> align_grid ds = inr ds.
Proof.
  intros raw ds. unfold align_grid at 1.
  destruct (align_longitude raw) as [e|mid] eqn:Elon; [discriminate|].
  intros Hlat.
  destruct (align_longitude_settled _ Elon) as [Hne Hle].
  destruct (align_latitude_settled _ Hlat) as [Hsame Hfix].
  unfold align_grid.
  rewrite align_longitude_within_180; rewrite ?Hsame; assumption.
Qed.

End AlignMore.

Lemma save_raster_pixel_centres_witness :
  (fst (pixel_centre (from_origin (-(1 # 2)) (5 # 2) 1 1) 0 1) == 1)%Q /\
  (snd (pixel_centre (from_origin (-(1 # 2)) (5 # 2) 1 1) 0 1) == 2)%Q.
Proof.
  destruct (@save_raster_pixel_centres Rect.region
              Scenario.calm (Scenario.square 2) "out/a.tif"%string
              [0; 1]%Q [0; 1; 2]%Q
              ltac:(discriminate) ltac:(discriminate)
              ltac:(exists 1%Q; split; [reflexivity|];
                    intros [|[|k]] Hk; simpl in Hk; try lia; reflexivity)
              ltac:(exists 1%Q; split; [reflexivity|];
                    intros [|[|[|k]]] Hk; simpl in Hk; try lia; reflexivity))
    as [profile [rest [Hev Hc]]].
  injection Hev as Hp _. subst profile.
  exact (Hc 0%nat 1%nat ltac:(simpl; lia) ltac:(simpl; lia)).
Defined.

Lemma vector_cells_are_masked_witness :
  cell [[false; false]; [true; false]] 1 0 = true.
Proof.
  exact (@vector_cells_are_masked Rect.region Rect.rect_geometry rect_laws
           Scenario.near_origin Scenario.hourly [[false; false]; [true; false]]
           _ 0%nat 0%nat eq_refl
           ltac:(exists 1%Q; split; [reflexivity|];
                 intros [|[|k]] Hk; simpl in Hk; try lia; reflexivity)
           ltac:(exists 1%Q; split; [reflexivity|];
                 intros [|[|k]] Hk; simpl in Hk; try lia; reflexivity)
           ltac:(left; reflexivity)).
Defined.

Lemma align_latitude_turns_the_grid_witness :
  align_latitude Scenario.from_provider
  = inr (reverse_latitude Scenario.from_provider) /\
  strictly_ascending (latitude (reverse_latitude Scenario.from_provider)).
Proof.
  apply (@align_latitude_turns_the_grid Scenario.from_provider).
  - repeat constructor.
  - simpl. lia.
  - intros name slices [Heq|[]]. inversion Heq; subst. repeat constructor.
Defined.

Lemma align_grid_is_idempotent_witness :
  align_grid Scenario.two_rows = inr Scenario.two_rows.
Proof.
  apply (@align_grid_is_idempotent Scenario.from_provider Scenario.two_rows).
  vm_compute. reflexivity.
Defined.

Lemma empty_axis_is_a_value_error_witness :
  create_polygon_mask Scenario.near_origin
    {| longitude := []; latitude := [0%Q]; coords_time := None;
       coords_valid_time := None; data_vars := [] |}
  = inl ValueError /\
  save_raster (G := Rect.region) Scenario.calm (Scenario.square 2)
    "out/a.tif"%string [0%Q] []
  = ([], inl ValueError).
Proof.
  destruct (@empty_axis_is_a_value_error Rect.region Rect.rect_geometry
              Scenario.calm Scenario.near_origin
              {| longitude := []; latitude := [0%Q]; coords_time := None;
                 coords_valid_time := None; data_vars := [] |}
              (Scenario.square 2) "out/a.tif"%string [0%Q] []) as [Hm Hs].
  split; [apply Hm; now left|apply Hs; now right].
Defined.

(** ** The arguments the callers build and the worker splits *)

Section SplitJoin.

Lemma split_without_separator (sep : ascii) (s : string) :
  has_char sep s = false -> Str.split sep s = [s].
Proof.
  induction s as [|c t IH]; simpl; [reflexivity|].
  intros Hc. apply orb_false_iff in Hc. destruct Hc as [Hc Ht].
  now rewrite Hc, (IH Ht).
Qed.

Lemma split_at_separator (sep : ascii) (a b : string) :
  has_char sep a = false ->
  Str.split sep (a ++ String sep b) = a :: Str.split sep b.
Proof.
  induction a as [|c t IH]; simpl.
  - intros _. now rewrite Ascii.eqb_refl.
  - intros Hc. apply orb_false_iff in Hc. destruct Hc as [Hc Ht].
    now rewrite Hc, (IH Ht).
Qed.

Lemma split_of_join (sep : ascii) (xs : list string) :
  xs <> [] -> Forall (fun x => has_char sep x = false) xs ->
  Str.split sep (String.concat (String sep EmptyString) xs) = xs.
Proof.
  intros Hne Hall. induction Hall as [|x rest Hx Hrest IH]; [congruence|].
  destruct rest as [|y rest].
  - simpl. now apply split_without_separator.
  - change (String.concat (String sep EmptyString) (x :: y :: rest))
      with (x ++ String sep (String.concat (String sep EmptyString) (y :: rest)))%string.
    rewrite split_at_separator by exact Hx. f_equal. apply IH. discriminate.
Qed.

(** X13. Splitting undoes joining: the list a caller joins with commas
    for [--hours] or [--vars] is the list the worker gets back from
    [split(",")], provided the list is not empty and no entry holds a
    comma; from the empty list the worker gets one empty entry. *)
Theorem split_undoes_join :
  forall xs : list string,
    (xs <> [] -> Forall (fun x => has_char ","%char x = false) xs ->
     Str.split ","%char (String.concat "," xs) = xs) /\
    Str.split ","%char (String.concat "," []) = [EmptyString].
Proof.
  intros xs. split; [apply split_of_join|reflexivity].
Qed.

Lemma map_opt_map {X Y Z'} (f : Y -> option Z') (g : X -> Y) (h : X -> Z')
    (xs : list X) :
  (forall x, In x xs -> f (g x) = Some (h x)) ->
  map_opt f (map g xs) = Some (map h xs).
Proof.
  induction xs as [|x rest IH]; intros Hall; simpl; [reflexivity|].
  rewrite (Hall x (or_introl eq_refl)), IH; [reflexivity|].
  intros y Hy. apply Hall. now right.
Qed.

Lemma hour_texts :
  forall i, i < 24 ->
    has_char ","%char (Text.format_02d i) = false /\
    Str.int (Text.format_02d i) = Some (Z.of_nat i).
Proof.
  assert (Hall : forallb (fun i =>
                    negb (has_char ","%char (Text.format_02d i)) &&
                    match Str.int (Text.format_02d i) with
                    | Some z => Z.eqb z (Z.of_nat i)
                    | None => false
                    end) (seq 0 24) = true) by (vm_compute; reflexivity).
  intros i Hi. rewrite forallb_forall in Hall.
  specialize (Hall i ltac:(apply in_seq; lia)).
  apply andb_true_iff in Hall. destruct Hall as [Hc Hint].
  apply negb_true_iff in Hc. split; [exact Hc|].
  destruct (Str.int (Text.format_02d i)) as [z|]; [|discriminate].
  apply Z.eqb_eq in Hint. now subst z.
Qed.

(** X14. The hours ticked in the dialog are the hours the worker keeps:
    for a non-empty choice of hour indices below 24, the worker reads back
    from the [--hours] argument exactly these numbers, so that a time step
    is selected exactly when its hour is among them. *)
Theorem chosen_hours_are_selected :
  forall (hour_indices : list nat),
    hour_indices <> [] -> Forall (fun i => i < 24) hour_indices ->
    map_opt Str.int (Str.split ","%char (hours_argument hour_indices))
    = Some (map Z.of_nat hour_indices) /\
    forall t : Timestamp,
      hour_selected t (map Z.of_nat hour_indices) = true
      <-> In (hour t) hour_indices.
Proof.
  intros idx Hne Hall. rewrite Forall_forall in Hall. split.
  - unfold hours_argument. rewrite split_of_join.
    + apply map_opt_map. intros i Hi. now apply hour_texts, Hall.
    + destruct idx; [congruence|discriminate].
    + apply Forall_forall. intros x Hx. apply in_map_iff in Hx.
      destruct Hx as [i [<- Hi]]. now apply hour_texts, Hall.
  - intros t. unfold hour_selected. rewrite existsb_exists. split.
    + intros [z [Hz Heq]]. apply in_map_iff in Hz. destruct Hz as [i [<- Hi]].
      apply Z.eqb_eq, Nat2Z.inj in Heq. now rewrite Heq.
    + intros Hin. exists (Z.of_nat (hour t)). split; [now apply in_map|].
      apply Z.eqb_refl.
Qed.

End SplitJoin.

Lemma split_undoes_join_witness :
  Str.split ","%char (String.concat "," ["2m_temperature"; "total_precipitation"]%string)
  = ["2m_temperature"; "total_precipitation"]%string.
Proof.
  apply (proj1 (split_undoes_join ["2m_temperature"; "total_precipitation"]%string));
    [discriminate|repeat constructor].
Defined.

Lemma chosen_hours_are_selected_witness :
  map_opt Str.int (Str.split ","%char (hours_argument [0; 12]))
  = Some [0%Z; 12%Z].
Proof.
  apply (proj1 (@chosen_hours_are_selected [0; 12] ltac:(discriminate)
                  ltac:(repeat constructor; lia))).
Defined.

(** ** What the caller reads from the output of the worker *)

Section MarkerLines.

Local Open Scope string_scope.

Lemma rstrip_keeps_head (c : ascii) (s : string) :
  Str.is_space c = false -> Str.rstrip (String c s) = String c (Str.rstrip s).
Proof. intros Hc. simpl. rewrite Hc. now destruct (Str.rstrip s). Qed.

Lemma rstrip_app_space (s : string) (c : ascii) :
  Str.is_space c = true ->
  Str.rstrip (s ++ String c EmptyString) = Str.rstrip s.
Proof.
  intros Hc. induction s as [|x t IH]; simpl.
  - now rewrite Hc.
  - now rewrite IH.
Qed.

Lemma rstrip_idempotent (s : string) : Str.rstrip (Str.rstrip s) = Str.rstrip s.
Proof.
  induction s as [|c t IH]; simpl; [reflexivity|].
  destruct (Str.rstrip t) as [|c' t'] eqn:Et.
  - destruct (Str.is_space c) eqn:Ec; simpl; [reflexivity|]. now rewrite Ec.
  - simpl. simpl in IH. rewrite IH. reflexivity.
Qed.

Lemma rstrip_all_space (s : string) :
  Str.rstrip s = EmptyString -> Str.lstrip s = EmptyString.
Proof.
  induction s as [|c t IH]; simpl; [reflexivity|].
  destruct (Str.rstrip t) as [|c' t'] eqn:Et; [|discriminate].
  destruct (Str.is_space c); [intros _; now apply IH|discriminate].
Qed.

(** Stripping on the left and stripping on the right do not disturb each
    other. *)
Lemma lstrip_rstrip (s : string) :
  Str.lstrip (Str.rstrip s) = Str.rstrip (Str.lstrip s).
Proof.
  induction s as [|c t IH]; [reflexivity|].
  change (Str.lstrip (String c t))
    with (if Str.is_space c then Str.lstrip t else String c t).
  destruct (Str.is_space c) eqn:Ec.
  - rewrite <- IH. simpl. destruct (Str.rstrip t) as [|c' t'] eqn:Et.
    + now rewrite Ec.
    + simpl. now rewrite Ec.
  - rewrite rstrip_keeps_head by exact Ec. simpl. now rewrite Ec.
Qed.

Lemma strip_rstrip (s : string) : Text.strip (Str.rstrip s) = Text.strip s.
Proof.
  unfold Text.strip. now rewrite lstrip_rstrip, rstrip_idempotent.
Qed.

Lemma rstrip_is_prefix (s : string) : exists w, s = Str.rstrip s ++ w.
Proof.
  induction s as [|c t [w Hw]]; [now exists EmptyString|].
  simpl. destruct (Str.rstrip t) as [|c' t'] eqn:Et.
  - destruct (Str.is_space c).
    + now exists (String c t).
    + exists t. reflexivity.
  - exists w.
    change (String c (String c' t') ++ w) with (String c (String c' t' ++ w)).
    f_equal. exact Hw.
Qed.

Lemma prefix_app (m a w : string) :
  String.prefix m a = true -> String.prefix m (a ++ w) = true.
Proof.
  revert m. induction a as [|x a IH]; intros m.
  - destruct m; [|discriminate]. intros _. now destruct (EmptyString ++ w).
  - change (String x a ++ w) with (String x (a ++ w)).
    destruct m as [|c m]; [reflexivity|]. simpl.
    destruct (ascii_dec c x); [apply IH|discriminate].
Qed.

Lemma contains_app (m a w : string) :
  Text.contains m a = true -> Text.contains m (a ++ w) = true.
Proof.
  induction a as [|x a IH].
  - simpl. rewrite orb_false_r. intros Hp. destruct m; [|discriminate].
    change (EmptyString ++ w) with w. now destruct w.
  - change (String x a ++ w) with (String x (a ++ w)).
    intros Hc. simpl in Hc. apply orb_true_iff in Hc.
    change (String.prefix m (String x (a ++ w))
            || Text.contains m (a ++ w) = true).
    apply orb_true_iff.
    destruct Hc as [Hp|Hc]; [left|right; now apply IH].
    change (String x (a ++ w)) with (String x a ++ w). now apply prefix_app.
Qed.

Lemma contains_rstrip (m s : string) :
  Text.contains m s = false -> Text.contains m (Str.rstrip s) = false.
Proof.
  intros Hs. destruct (Text.contains m (Str.rstrip s)) eqn:E; [|reflexivity].
  destruct (rstrip_is_prefix s) as [w Hw].
  apply contains_app with (w := w) in E. rewrite <- Hw in E. congruence.
Qed.

Lemma split_without_marker (m s : string) :
  Text.contains m s = false -> Text.split_by m s = [s].
Proof.
  unfold Text.split_by. induction s as [|c t IH]; intros Hc; [reflexivity|].
  simpl in Hc. apply orb_false_iff in Hc. destruct Hc as [Hp Ht].
  simpl Text.split_from. simpl in Hp. rewrite Hp, (IH Ht). reflexivity.
Qed.

Lemma split_skips (m a s : string) :
  Text.split_from m (String.length a) (a ++ s) = Text.split_from m 0 s.
Proof.
  induction a as [|c a IH]; [reflexivity|].
  change (String c a ++ s) with (String c (a ++ s)). simpl. exact IH.
Qed.

Lemma prefix_self_app (m s : string) : String.prefix m (m ++ s) = true.
Proof.
  induction m as [|c m IH].
  - change (EmptyString ++ s) with s. now destruct s.
  - change (String c m ++ s) with (String c (m ++ s)). simpl.
    destruct (ascii_dec c c); [exact IH|congruence].
Qed.

Lemma contains_prefix (m s : string) :
  String.prefix m s = true -> Text.contains m s = true.
Proof.
  intros Hp. destruct s as [|c t].
  - destruct m; [reflexivity|discriminate Hp].
  - change (Text.contains m (String c t))
      with (String.prefix m (String c t) || Text.contains m t).
    now rewrite Hp.
Qed.

Lemma split_at_marker (c : ascii) (a q : string) :
  Text.split_by (String c a) (String c a ++ q)
  = EmptyString :: Text.split_by (String c a) q.
Proof.
  unfold Text.split_by.
  pose proof (prefix_self_app (String c a) q) as Hp.
  change (String c a ++ q) with (String c (a ++ q)) in *.
  simpl Text.split_from. simpl in Hp. rewrite Hp.
  rewrite Nat.sub_0_r. f_equal. apply split_skips.
Qed.

Lemma contains_lstrip (m s : string) :
  Text.contains m s = false -> Text.contains m (Str.lstrip s) = false.
Proof.
  induction s as [|c t IH]; [trivial|].
  intros Hc. change (Str.lstrip (String c t))
    with (if Str.is_space c then Str.lstrip t else String c t).
  destruct (Str.is_space c); [|exact Hc].
  apply IH. simpl in Hc. now apply orb_false_iff in Hc.
Qed.

Lemma unmarked_strip (s : string) : unmarked s -> unmarked (Text.strip s).
Proof.
  intros [Hr Hv]. unfold Text.strip.
  split; now apply contains_rstrip, contains_lstrip.
Qed.

Lemma append_cons (c : ascii) (a b : string) :
  String c a ++ b = String c (a ++ b).
Proof. reflexivity. Qed.

(** The stripped text of a structured line: the marker and the path
    without the blanks at its end. *)
Lemma strip_marker_line (path : string) :
  Text.strip (marker_line "RASTER_PATH:" path) = "RASTER_PATH:" ++ Str.rstrip path /\
  Text.strip (marker_line "VECTOR_PATH:" path) = "VECTOR_PATH:" ++ Str.rstrip path.
Proof.
  unfold Text.strip, marker_line. rewrite !append_cons.
  change (EmptyString ++ path ++ String (ascii_of_nat 10) EmptyString)
    with (path ++ String (ascii_of_nat 10) EmptyString).
  simpl Str.lstrip.
  rewrite !rstrip_keeps_head by reflexivity.
  rewrite rstrip_app_space by reflexivity. now split.
Qed.

Lemma read_other_line (acc : Collected) (text : string) :
  unmarked text -> read_line acc text = acc.
Proof.
  intros Hu. apply unmarked_strip in Hu. destruct Hu as [Hr Hv].
  unfold read_line. now rewrite Hr, Hv.
Qed.

Lemma read_raster_line (acc : Collected) (path : string) :
  unmarked path ->
  read_line acc (marker_line "RASTER_PATH:" path)
  = {| raster_paths := raster_paths acc ++ [Text.strip path];
       vector_paths := vector_paths acc |}.
Proof.
  intros [Hr Hv]. unfold read_line.
  rewrite (proj1 (strip_marker_line path)).
  rewrite (contains_prefix _ _ (prefix_self_app _ _)).
  rewrite split_at_marker, (split_without_marker _ _ (contains_rstrip _ _ Hr)).
  simpl nth. rewrite strip_rstrip.
  assert (Hno : Text.contains "VECTOR_PATH:" ("RASTER_PATH:" ++ Str.rstrip path)
                = false).
  { rewrite !append_cons. simpl. now apply contains_rstrip. }
  now rewrite Hno.
Qed.

Lemma read_vector_line (acc : Collected) (path : string) :
  unmarked path ->
  read_line acc (marker_line "VECTOR_PATH:" path)
  = {| raster_paths := raster_paths acc;
       vector_paths := vector_paths acc ++ [Text.strip path] |}.
Proof.
  intros [Hr Hv]. unfold read_line.
  rewrite (proj2 (strip_marker_line path)).
  assert (Hno : Text.contains "RASTER_PATH:" ("VECTOR_PATH:" ++ Str.rstrip path)
                = false).
  { rewrite !append_cons. simpl. now apply contains_rstrip. }
  rewrite Hno.
  rewrite (contains_prefix _ _ (prefix_self_app _ _)).
  rewrite split_at_marker, (split_without_marker _ _ (contains_rstrip _ _ Hv)).
  simpl nth. now rewrite strip_rstrip.
Qed.

Lemma read_lines_from (ls : list Printed) (acc : Collected) :
  Forall well_marked ls ->
  fold_left read_line (map printed_text ls) acc
  = {| raster_paths := raster_paths acc ++ map Text.strip (raster_lines ls);
       vector_paths := vector_paths acc ++ map Text.strip (vector_lines ls) |}.
Proof.
  intros Hall. revert acc.
  induction Hall as [|l ls Hl _ IH]; intros acc.
  - simpl. rewrite !app_nil_r. now destruct acc.
  - simpl fold_left. rewrite IH. destruct l as [s|p|p]; simpl in Hl.
    + rewrite (read_other_line _ Hl). reflexivity.
    + rewrite (read_raster_line _ Hl). simpl. now rewrite <- app_assoc.
    + rewrite (read_vector_line _ Hl). simpl. now rewrite <- app_assoc.
Qed.

(** X15. The caller gets back the paths the worker announces: from an
    output in which the markers occur only at the head of the structured
    lines, the loop of [process_polygons] collects the paths of the
    RASTER_PATH lines and those of the VECTOR_PATH lines, each list in the
    order of the lines and each path stripped of the blanks around it;
    every other line is passed over. *)
Theorem announced_paths_are_read_back :
  forall ls : list Printed,
    Forall well_marked ls ->
    read_output (map printed_text ls)
    = {| raster_paths := map Text.strip (raster_lines ls);
         vector_paths := map Text.strip (vector_lines ls) |}.
Proof.
  intros ls Hall. unfold read_output. now rewrite read_lines_from.
Qed.

End MarkerLines.

Lemma announced_paths_are_read_back_witness :
  read_output
    (map printed_text
       [ Other_line "Procesando variable: t2m (2m_temperature)";
         Raster_line "out/2m_temperature_20240101_0000.tif";
         Vector_line "out/2m_temperature_20240101_0000_grid.geojson" ]%string)
  = {| raster_paths := ["out/2m_temperature_20240101_0000.tif"%string];
       vector_paths := ["out/2m_temperature_20240101_0000_grid.geojson"%string] |}.
Proof.
  apply (@announced_paths_are_read_back
           [ Other_line "Procesando variable: t2m (2m_temperature)";
             Raster_line "out/2m_temperature_20240101_0000.tif";
             Vector_line "out/2m_temperature_20240101_0000_grid.geojson" ]%string).
  repeat constructor.
Defined.


(** ** The tables of variable names *)

Section NameTables.

Local Open Scope string_scope.

(** X16. The two name tables fit the list of the dialog: every variable
    the algorithm offers has a short name in [VARIABLE_NAME_MAP], and
    [VARIABLE_REVERSE_MAP] leads from that short name back to it. Of the
    keys of [VARIABLE_NAME_MAP] only [snowmelt] is not recovered: it shares
    its short name with [snow_melt], which comes later and wins. *)
Theorem name_tables_agree :
  (forall v, In v ERA5_VARIABLES ->
     exists short, dict_get VARIABLE_NAME_MAP v = Some short /\
                   dict_get VARIABLE_REVERSE_MAP short = Some v) /\
  (forall k short, dict_get VARIABLE_NAME_MAP k = Some short ->
     dict_get VARIABLE_REVERSE_MAP short = Some k \/ k = "snowmelt") /\
  dict_get VARIABLE_REVERSE_MAP "smlt" = Some "snow_melt".
Proof.
  split; [|split; [|reflexivity]].
  - assert (Hall : forallb (fun v =>
                      match dict_get VARIABLE_NAME_MAP v with
                      | Some short =>
                          match dict_get VARIABLE_REVERSE_MAP short with
                          | Some v' => String.eqb v' v
                          | None => false
                          end
                      | None => false
                      end) ERA5_VARIABLES = true) by (vm_compute; reflexivity).
    intros v Hv. rewrite forallb_forall in Hall. specialize (Hall v Hv). cbv beta in Hall.
    destruct (dict_get VARIABLE_NAME_MAP v) as [short|]; [|discriminate].
    exists short. split; [reflexivity|].
    destruct (dict_get VARIABLE_REVERSE_MAP short) as [v'|]; [|discriminate].
    apply String.eqb_eq in Hall. now subst v'.
  - assert (Hall : forallb (fun kv =>
                      match dict_get VARIABLE_REVERSE_MAP (snd kv) with
                      | Some k' => String.eqb k' (fst kv) || String.eqb (fst kv) "snowmelt"
                      | None => false
                      end) VARIABLE_NAME_MAP = true) by (vm_compute; reflexivity).
    intros k short Hk. apply dict_get_In in Hk.
    rewrite forallb_forall in Hall. specialize (Hall (k, short) Hk). cbv beta in Hall. simpl fst in Hall. simpl snd in Hall.
    destruct (dict_get VARIABLE_REVERSE_MAP short) as [k'|]; [|discriminate].
    apply orb_true_iff in Hall. destruct Hall as [He|He]; apply String.eqb_eq in He.
    + left. now subst k'.
    + now right.
Qed.

End NameTables.

(** ** The names of the files *)

Section FileNames.

Local Open Scope string_scope.

Lemma append_inv_head (a b1 b2 : string) : a ++ b1 = a ++ b2 -> b1 = b2.
Proof.
  induction a as [|c a IH]; [trivial|].
  rewrite !append_cons. intros [= Heq]. now apply IH.
Qed.

Lemma append_length (a b : string) :
  String.length (a ++ b) = String.length a + String.length b.
Proof.
  induction a as [|c a IH]; [reflexivity|].
  rewrite append_cons. simpl. now rewrite IH.
Qed.

(** Two texts that end in tails of one length agree part by part. *)
Lemma append_inv_tail (a1 a2 b1 b2 : string) :
  String.length b1 = String.length b2 -> a1 ++ b1 = a2 ++ b2 ->
  a1 = a2 /\ b1 = b2.
Proof.
  intros Hlen. revert a2. induction a1 as [|c a1 IH]; intros [|c2 a2] Heq.
  - now split.
  - exfalso. apply (f_equal String.length) in Heq.
    change (EmptyString ++ b1) with b1 in Heq.
    rewrite append_length in Heq. simpl in Heq. lia.
  - exfalso. apply (f_equal String.length) in Heq.
    change (EmptyString ++ b2) with b2 in Heq.
    rewrite append_length in Heq. simpl in Heq. lia.
  - rewrite !append_cons in Heq. injection Heq as Hc Heq.
    destruct (IH a2 Heq) as [Ha Hb]. now subst.
Qed.

Lemma path_join_relative (a b : string) :
  is_absolute b = false ->
  Str.path_join a b
  = if (a =? "") || Str.ends_with "/"%char a then a ++ b else a ++ "/" ++ b.
Proof.
  unfold Str.path_join, is_absolute. destruct b as [|c b]; [reflexivity|].
  destruct c as [[] [] [] [] [] [] [] []]; (reflexivity || discriminate).
Qed.

Lemma path_join_inv (a b1 b2 : string) :
  is_absolute b1 = false -> is_absolute b2 = false ->
  Str.path_join a b1 = Str.path_join a b2 -> b1 = b2.
Proof.
  intros H1 H2. rewrite !path_join_relative by assumption.
  destruct ((a =? "") || Str.ends_with "/"%char a); intros Heq.
  - now apply append_inv_head in Heq.
  - apply append_inv_head in Heq. now apply append_inv_head in Heq.
Qed.

Lemma digit_char_inv (n m : nat) :
  Str.digit_char n = Str.digit_char m -> n mod 10 = m mod 10.
Proof.
  unfold Str.digit_char. intros Heq.
  apply (f_equal nat_of_ascii) in Heq.
  pose proof (Nat.mod_upper_bound n 10 ltac:(lia)).
  pose proof (Nat.mod_upper_bound m 10 ltac:(lia)).
  rewrite !nat_ascii_embedding in Heq by lia. lia.
Qed.

Lemma last_digit_inv (n m : nat) :
  n / 10 = m / 10 -> n mod 10 = m mod 10 -> n = m.
Proof.
  intros Hq Hr. rewrite (Nat.div_mod_eq n 10), (Nat.div_mod_eq m 10).
  now rewrite Hq, Hr.
Qed.

Lemma two_digits_inv (n m : nat) :
  n < 100 -> m < 100 ->
  (n / 10) mod 10 = (m / 10) mod 10 -> n mod 10 = m mod 10 -> n = m.
Proof.
  intros Hn Hm Ht Hu. apply last_digit_inv; [|exact Hu].
  assert (n / 10 < 10) by (apply Nat.Div0.div_lt_upper_bound; lia).
  assert (m / 10 < 10) by (apply Nat.Div0.div_lt_upper_bound; lia).
  now rewrite (Nat.mod_small (n / 10)), (Nat.mod_small (m / 10)) in Ht by lia.
Qed.

Lemma four_digits_inv (n m : nat) :
  n < 100 * 100 -> m < 100 * 100 ->
  (n / 1000) mod 10 = (m / 1000) mod 10 ->
  (n / 100) mod 10 = (m / 100) mod 10 ->
  (n / 10) mod 10 = (m / 10) mod 10 -> n mod 10 = m mod 10 -> n = m.
Proof.
  intros Hn Hm H3 H2 H1 H0.
  replace (n / 1000) with (n / 10 / 10 / 10) in H3
    by (rewrite !Nat.Div0.div_div; reflexivity).
  replace (m / 1000) with (m / 10 / 10 / 10) in H3
    by (rewrite !Nat.Div0.div_div; reflexivity).
  replace (n / 100) with (n / 10 / 10) in H2
    by (rewrite !Nat.Div0.div_div; reflexivity).
  replace (m / 100) with (m / 10 / 10) in H2
    by (rewrite !Nat.Div0.div_div; reflexivity).
  assert (Hn1 : n / 10 < 1000)
    by (apply Nat.Div0.div_lt_upper_bound; simpl in Hn; lia).
  assert (Hm1 : m / 10 < 1000)
    by (apply Nat.Div0.div_lt_upper_bound; simpl in Hm; lia).
  assert (Hn2 : n / 10 / 10 < 100) by (apply Nat.Div0.div_lt_upper_bound; lia).
  assert (Hm2 : m / 10 / 10 < 100) by (apply Nat.Div0.div_lt_upper_bound; lia).
  apply last_digit_inv; [|exact H0].
  apply last_digit_inv; [|exact H1].
  now apply two_digits_inv.
Qed.

Lemma strftime_length (t : Timestamp) : String.length (strftime t) = 13.
Proof. reflexivity. Qed.

Lemma strftime_inv (t1 t2 : Timestamp) :
  calendar_time t1 -> calendar_time t2 ->
  strftime t1 = strftime t2 -> same_minute t1 t2.
Proof.
  intros [Hy1 [Hm1 [Hd1 [Hh1 Hn1]]]] [Hy2 [Hm2 [Hd2 [Hh2 Hn2]]]].
  unfold strftime, Str.pad4, Str.pad2. rewrite !append_cons.
  intros Heq. injection Heq as Y3 Y2 Y1 Y0 M1 M0 D1 D0 H1 H0 N1 N0.
  apply digit_char_inv in Y3, Y2, Y1, Y0, M1, M0, D1, D0, H1, H0, N1, N0.
  unfold same_minute. repeat split.
  - now apply four_digits_inv.
  - apply two_digits_inv; (assumption || lia).
  - apply two_digits_inv; (assumption || lia).
  - apply two_digits_inv; (assumption || lia).
  - apply two_digits_inv; (assumption || lia).
Qed.

Lemma same_minute_strftime (t1 t2 : Timestamp) :
  same_minute t1 t2 -> strftime t1 = strftime t2.
Proof.
  intros [Hy [Hm [Hd [Hh Hn]]]]. unfold strftime.
  now rewrite Hy, Hm, Hd, Hh, Hn.
Qed.

(** X17. Two artifacts of one run share a file exactly when they are of
    the same variable and of the same minute: for variable names that do
    not begin with a slash and time stamps with fields in the ranges of the
    calendar, the file names of [(v1, t1)] and [(v2, t2)] in one output
    directory and one format are equal if and only if [v1 = v2] and the
    time stamps agree down to the minute; the seconds do not count. *)
Theorem artifacts_share_a_file_iff :
  forall (fmt : OutputFormat) (out v1 v2 : string) (t1 t2 : Timestamp),
    is_absolute v1 = false -> is_absolute v2 = false ->
    calendar_time t1 -> calendar_time t2 ->
    (artifact_name fmt out v1 t1 = artifact_name fmt out v2 t2
     <-> v1 = v2 /\ same_minute t1 t2).
Proof.
  intros fmt out v1 v2 t1 t2 Hv1 Hv2 Ht1 Ht2. unfold artifact_name. split.
  - intros Heq.
    set (ext := match fmt with raster => ".tif" | vector => "_grid.geojson" end) in *.
    assert (Hrel : forall v t, is_absolute v = false ->
                     is_absolute (v ++ "_" ++ strftime t ++ ext) = false).
    { intros [|c v] t Hv; [reflexivity|exact Hv]. }
    apply path_join_inv in Heq; try now apply Hrel.
    apply append_inv_tail in Heq.
    + destruct Heq as [Hv Htail]. split; [exact Hv|].
      apply append_inv_head in Htail.
      apply append_inv_tail in Htail; [|reflexivity].
      now apply strftime_inv.
    + rewrite !append_length, !strftime_length. reflexivity.
  - intros [-> Hsame]. now rewrite (same_minute_strftime Hsame).
Qed.

End FileNames.

Lemma artifacts_share_a_file_iff_witness :
  artifact_name raster "out" "2m_temperature" (Scenario.at_hour 1 0)
  = artifact_name raster "out" "2m_temperature"
      {| year := 2024; month := 1; day := 1; hour := 0; minute := 0; second := 30 |}.
Proof.
  apply (@artifacts_share_a_file_iff raster "out" "2m_temperature" "2m_temperature"
           (Scenario.at_hour 1 0)
           {| year := 2024; month := 1; day := 1; hour := 0; minute := 0;
              second := 30 |}
           eq_refl eq_refl).
  - unfold calendar_time. simpl. lia.
  - unfold calendar_time. simpl. lia.
  - split; [reflexivity|]. unfold same_minute. simpl. repeat split.
Defined.

(** ** The values of the vector layers *)

Section LayerValues.

Context {G : Type} `{Geometry G}.

Lemma getitem2_nth (data : array2 fval) (h w i j : nat) :
  has_shape h w data -> i < h -> j < w ->
  getitem2 data i j = Some (nth j (nth i data []) NaN).
Proof.
  intros [Hh Hw] Hi Hj. unfold getitem2.
  assert (Hlt : i < length data) by lia.
  rewrite (nth_error_nth' data [] Hlt).
  apply nth_error_nth'. rewrite Forall_forall in Hw.
  rewrite (Hw (nth i data [])); [exact Hj|]. apply nth_In. lia.
Qed.

Lemma vector_step_layer (ds : Dataset) (cells : list (G * (nat * nat)))
    (var vname : string) (selected : list Z) (out : string)
    (idx : nat) (t : Timestamp) (data : array2 fval) :
  isel_time ds var idx = inr data ->
  has_shape (length (latitude ds)) (length (longitude ds)) data ->
  (forall g i j, In (g, (i, j)) cells ->
                 i < length (latitude ds) /\ j < length (longitude ds)) ->
  written_layers (events (vector_step ds cells var vname selected out (idx, t)))
  = if hour_selected t selected then [grid_layer ds cells vname data] else [].
Proof.
  intros Hdata Hshape Hcells. unfold vector_step. simpl fst. simpl snd.
  destruct (hour_selected t selected); [|reflexivity].
  rewrite Hdata, bind_lift_ok.
  rewrite (map_opt_map (fun ij => getitem2 data (fst ij) (snd ij)) snd
             (fun c => nth (snd (snd c)) (nth (fst (snd c)) data []) NaN)).
  - simpl. unfold grid_layer. f_equal. f_equal. now rewrite map_map.
  - intros [g [i j]] Hin. destruct (Hcells g i j Hin) as [Hi Hj].
    exact (getitem2_nth Hshape Hi Hj).
Qed.

(** X18. Every polygon of a vector layer carries the value of its own
    cell: on a consistent dataset, [create_vector_grid] writes one layer
    per selected time step, in the order of the time axis, and the layer of
    step [k] holds for each kept cell [(i, j)] the clipped square, the
    value [data_k[i, j]] and the centre [(lats[i], lons[j])]; with no cell
    kept it writes nothing. *)
Theorem vector_layers_hold_the_cell_values :
  forall (ds : Dataset) (polygons : list G) (var vname : string)
         (selected : list Z) (out : string)
         (times : list Timestamp) (slices : list (array2 fval)),
    time_values ds = inr times ->
    dict_get (data_vars ds) var = Some slices ->
    length slices = length times ->
    Forall (has_shape (length (latitude ds)) (length (longitude ds))) slices ->
    let cells := vector_cells (longitude ds) (latitude ds) (union_all polygons) in
    written_layers (events (create_vector_grid ds polygons var vname selected out))
    = match cells with
      | [] => []
      | _ =>
          flat_map (fun step : nat * Timestamp =>
                      if hour_selected (snd step) selected
                      then [grid_layer ds cells vname (nth (fst step) slices [])]
                      else [])
                   (enumerate times)
      end.
Proof.
  intros ds polygons var vname selected out times slices Ht Hg Hlen Hshape cells.
  destruct cells as [|c0 rest] eqn:Ec.
  - unfold cells in Ec. now rewrite (create_vector_grid_empty _ _ _ _ _ _ Ec).
  - rewrite <- Ec.
    rewrite (@create_vector_grid_run _ _ ds polygons var vname selected out
               times slices Ht Hg Hlen Hshape); [|fold cells; congruence].
    fold cells. unfold events at 1. simpl fst.
    change (written_layers (Print Computing_intersections :: ?l))
      with (written_layers l).
    rewrite written_layers_flat_map. apply flat_map_ext_In.
    intros [idx t] Hin. destruct (in_enumerate _ t _ _ Hin) as [Hidx _].
    simpl fst. simpl snd. apply vector_step_layer.
    + apply isel_time_ok; [assumption|lia].
    + rewrite Forall_forall in Hshape. apply Hshape, nth_In. lia.
    + intros g i j Hc. unfold cells in Hc. now apply vector_cells_in_range in Hc.
Qed.

End LayerValues.

Lemma vector_layers_hold_the_cell_values_witness :
  map (fun layer => (l_values layer, l_lat_center layer, l_lon_center layer))
      (written_layers
         (events (create_vector_grid Scenario.two_rows Scenario.near_origin
                    "t2m" "2m_temperature" [0%Z] "out")))
  = [ ([Num 5], [0%Q], [0%Q]) ].
Proof.
  rewrite (@vector_layers_hold_the_cell_values Rect.region Rect.rect_geometry
             Scenario.two_rows Scenario.near_origin "t2m"%string
             "2m_temperature"%string [0%Z] "out"%string
             [Scenario.at_hour 1 0] [ [ [Num 5]; [Num 7] ] ]
             eq_refl eq_refl eq_refl
             ltac:(repeat constructor)).
  reflexivity.
Defined.

(** ** What the surroundings can change *)

Section SameRuns.

Context {G : Type} `{Geometry G}.

Lemma essential_app (a b : list (Event G)) :
  essential (a ++ b) = essential a ++ essential b.
Proof. apply filter_app. Qed.

Lemma same_run_refl {A} (m : M (Event G) A) : same_run m m.
Proof. now split. Qed.

Lemma same_run_bind {A B} (m1 m2 : M (Event G) A) (k1 k2 : A -> M (Event G) B) :
  same_run m1 m2 -> (forall a, same_run (k1 a) (k2 a)) ->
  same_run (bind m1 k1) (bind m2 k2).
Proof.
  intros [Ho He] Hk. unfold same_run. rewrite !events_bind, !essential_app, He.
  destruct m1 as [es1 [e1|a1]], m2 as [es2 [e2|a2]];
    unfold outcome in Ho; simpl in Ho; try discriminate;
    injection Ho as Ho; subst; simpl.
  - now split.
  - destruct (Hk a2) as [Hko Hke].
    destruct (k1 a2) as [x1 r1], (k2 a2) as [x2 r2].
    unfold outcome, events in *. simpl in *. subst. now rewrite Hke.
Qed.

Lemma same_run_for_count {X} (xs : list X) (b1 b2 : X -> M (Event G) nat) :
  (forall x, same_run (b1 x) (b2 x)) ->
  same_run (for_count xs b1) (for_count xs b2).
Proof.
  intros Hb. induction xs as [|x xs IH]; simpl; [apply same_run_refl|].
  apply same_run_bind; [apply Hb|]. intros n.
  apply same_run_bind; [exact IH|]. intros m. apply same_run_refl.
Qed.

Lemma save_raster_same_run (env1 env2 : Env) (data : array2 fval)
    (path : string) (lons lats : list Q) :
  same_run (save_raster (G := G) env1 data path lons lats)
           (save_raster (G := G) env2 data path lons lats).
Proof.
  destruct (np_min lons) as [a|] eqn:Ha; [destruct (np_max lats) as [b|] eqn:Hb|].
  - rewrite !(save_raster_run _ data path lons lats Ha Hb).
    unfold same_run, essential. simpl.
    destruct (16 <? _); destruct (overviews_raise env1 path);
      destruct (overviews_raise env2 path); destruct (gdal_raise env1 path);
      destruct (gdal_raise env2 path); now split.
  - unfold save_raster. rewrite Ha, Hb. apply same_run_refl.
  - unfold save_raster. rewrite Ha. apply same_run_refl.
Qed.

Lemma process_variable_same_run (env1 env2 : Env) (fmt : OutputFormat)
    (out : string) (polygons : list G) (ds : Dataset) (mask : array2 bool)
    (selected : list Z) (v : string) :
  same_run (process_variable env1 fmt out polygons ds mask selected v)
           (process_variable env2 fmt out polygons ds mask selected v).
Proof.
  unfold process_variable.
  destruct (resolve_variable ds v) as [var|]; [|apply same_run_refl].
  apply same_run_bind; [apply same_run_refl|]. intros _.
  destruct fmt; [|apply same_run_refl].
  unfold emit_rasters. apply same_run_bind; [apply same_run_refl|]. intros times.
  apply same_run_for_count. intros [idx t]. unfold raster_step.
  simpl fst. simpl snd.
  destruct (hour_selected t selected); [|apply same_run_refl].
  apply same_run_bind; [apply same_run_refl|]. intros data.
  destruct (clip_to_polygon_bounds _ _ _ _) as [[[cd cm] cl] clat].
  apply same_run_bind; [apply save_raster_same_run|]. intros _.
  apply same_run_refl.
Qed.

Lemma main_try_same_run (env1 env2 : Env) (hours variables : list string)
    (out : string) (fmt : OutputFormat) (polygons : list G) (raw : Dataset) :
  same_run (main_try env1 hours variables out fmt polygons raw)
           (main_try env2 hours variables out fmt polygons raw).
Proof.
  unfold main_try.
  apply same_run_bind; [apply same_run_refl|]. intros _.
  apply same_run_bind; [apply same_run_refl|]. intros ds.
  apply same_run_bind; [apply same_run_refl|]. intros _.
  apply same_run_bind; [apply same_run_refl|]. intros mask.
  apply same_run_bind; [apply same_run_refl|]. intros _.
  apply same_run_bind; [apply same_run_refl|]. intros selected.
  apply same_run_bind; [|intros n; apply same_run_refl].
  apply same_run_for_count. intros v. apply process_variable_same_run.
Qed.

Lemma flat_map_essential {B} (f : Event G -> list B) (evs : list (Event G)) :
  (forall ev, env_free ev = false -> f ev = []) ->
  flat_map f (essential evs) = flat_map f evs.
Proof.
  intros Hf. unfold essential. induction evs as [|ev evs IH]; [reflexivity|].
  simpl. destruct (env_free ev) eqn:E; simpl.
  - now rewrite IH.
  - now rewrite IH, (Hf ev E).
Qed.

(** X19. A failing [build_overviews], a failing GDAL pass and the fate of
    the temporary file change nothing else: two runs of [main] on the same
    arguments, polygons and dataset end alike and, apart from the events of
    the overviews, of the GDAL pass, their warnings and the line about the
    temporary file, do the same things in the same order; in particular
    they open the same files with the same profiles, write the same bands
    and layers and announce the same paths. *)
Theorem surroundings_change_nothing_else :
  forall (env1 env2 : Env) (args : Args) (polygons : list G) (raw : Dataset),
    let run1 := main env1 args polygons raw in
    let run2 := main env2 args polygons raw in
    outcome run1 = outcome run2 /\
    essential (events run1) = essential (events run2) /\
    opened_profiles (events run1) = opened_profiles (events run2) /\
    written_bands (events run1) = written_bands (events run2) /\
    written_layers (events run1) = written_layers (events run2) /\
    artifact_paths (events run1) = artifact_paths (events run2).
Proof.
  intros env1 env2 args polygons raw run1 run2.
  assert (Hsame : same_run run1 run2).
  { unfold run1, run2, main.
    destruct (main_try_same_run env1 env2 (Str.split ","%char (a_hours args))
                (Str.split ","%char (a_vars args)) (a_out args)
                (a_output_format args) polygons raw) as [Ho He].
    rewrite <- Ho.
    destruct (outcome (main_try env1 _ _ _ _ _ _)) as [e|u]; split;
      unfold outcome, events; simpl; try congruence;
      rewrite !essential_app; unfold events in He; rewrite He; f_equal;
      destruct (temp_file_removed env1); destruct (temp_file_removed env2);
      reflexivity. }
  destruct Hsame as [Ho He]. split; [exact Ho|]. split; [exact He|].
  unfold opened_profiles, written_bands, written_layers, artifact_paths.
  repeat split;
    (rewrite <- (flat_map_essential _ (events run1)),
             <- (flat_map_essential _ (events run2)), He; [reflexivity| |]);
    intros ev Hev; destruct ev as [l| | | | | | | | |]; try destruct l;
    simpl in Hev; (reflexivity || discriminate).
Qed.

End SameRuns.

(** ** The mask of several polygons *)

Section MaskUnion.

Context {G : Type} `{Geometry G}.

(** X20. The mask of two groups of polygons is the union of their masks:
    a cell is True in the mask of [ps ++ qs] exactly when it is True in the
    mask of [ps] or in the mask of [qs]. *)
Theorem mask_of_union :
  forall (ps qs : list G) (ds : Dataset) (m1 m2 : array2 bool),
    create_polygon_mask ps ds = inr m1 ->
    create_polygon_mask qs ds = inr m2 ->
    exists m,
      create_polygon_mask (ps ++ qs) ds = inr m /\
      forall r c, cell m r c = cell m1 r c || cell m2 r c.
Proof.
  intros ps qs ds m1 m2 H1 H2.
  assert (Hs1 : has_shape (length (latitude ds)) (length (longitude ds)) m1)
    by (eapply create_polygon_mask_shape; exact H1).
  assert (Hs2 : has_shape (length (latitude ds)) (length (longitude ds)) m2)
    by (eapply create_polygon_mask_shape; exact H2).
  unfold create_polygon_mask in *.
  destruct (np_min (longitude ds)) as [a|]; [|discriminate].
  destruct (np_max (latitude ds)) as [b|]; [|discriminate].
  set (t := from_origin _ _ _ _) in *.
  assert (Hok : exists m,
             rasterize (ps ++ qs) (length (latitude ds), length (longitude ds)) t
             = inr m).
  { destruct ps as [|p ps']; [simpl; eauto|].
    unfold rasterize in H1 |- *. simpl app.
    destruct (invertible t); [eauto|discriminate]. }
  destruct Hok as [m Em].
  exists m. split; [exact Em|]. intros r c.
  assert (Hs : has_shape (length (latitude ds)) (length (longitude ds)) m)
    by (eapply rasterize_shape; exact Em).
  destruct (Nat.lt_ge_cases r (length (latitude ds))) as [Hr|Hr];
    [destruct (Nat.lt_ge_cases c (length (longitude ds))) as [Hc|Hc]|].
  - assert (E0 : cell m r c
                 = existsb (touched (pixel_footprint t r c)) (ps ++ qs))
      by (eapply rasterize_cell; eassumption).
    assert (E1 : cell m1 r c
                 = existsb (touched (pixel_footprint t r c)) ps)
      by (eapply rasterize_cell; eassumption).
    assert (E2 : cell m2 r c
                 = existsb (touched (pixel_footprint t r c)) qs)
      by (eapply rasterize_cell; eassumption).
    rewrite E0, E1, E2. apply existsb_app.
  - destruct (cell m r c) eqn:E.
    { eapply cell_true_in_shape in E; [|exact Hs]. lia. }
    destruct (cell m1 r c) eqn:E1.
    { eapply cell_true_in_shape in E1; [|exact Hs1]. lia. }
    destruct (cell m2 r c) eqn:E2; [|reflexivity].
    eapply cell_true_in_shape in E2; [|exact Hs2]. lia.
  - destruct (cell m r c) eqn:E.
    { eapply cell_true_in_shape in E; [|exact Hs]. lia. }
    destruct (cell m1 r c) eqn:E1.
    { eapply cell_true_in_shape in E1; [|exact Hs1]. lia. }
    destruct (cell m2 r c) eqn:E2; [|reflexivity].
    eapply cell_true_in_shape in E2; [|exact Hs2]. lia.
Qed.

End MaskUnion.

Lemma mask_of_union_witness :
  create_polygon_mask (Scenario.near_origin ++ Scenario.far_away) Scenario.two_rows
  = inr [[false]; [true]].
Proof.
  destruct (@mask_of_union Rect.region Rect.rect_geometry
              Scenario.near_origin Scenario.far_away Scenario.two_rows
              [[false]; [true]] [[false]; [false]] eq_refl eq_refl)
    as [m [Hm _]].
  rewrite Hm. vm_compute in Hm. symmetry. exact Hm.
Defined.

(** ** The cells of a written band *)

Section BandCells.

Context {G : Type} `{Geometry G}.

Lemma nth_map2 {A B C} (f : A -> B -> C) (u : list A) (v : list B)
    (i : nat) (du : A) (dv : B) (d : C) :
  i < length u -> i < length v ->
  nth i (map2 f u v) d = f (nth i u du) (nth i v dv).
Proof.
  revert v i. induction u as [|x u IH]; intros [|y v] [|i] Hu Hv;
    simpl in *; try lia; [reflexivity|].
  apply IH; lia.
Qed.

Lemma shape_row {A} (h w : nat) (a : array2 A) (r : nat) :
  has_shape h w a -> r < h -> length (nth r a []) = w.
Proof.
  intros [Hh Hw] Hr. rewrite Forall_forall in Hw. apply Hw, nth_In. lia.
Qed.

Lemma map2_length {A B C} (f : A -> B -> C) (u : list A) (v : list B) :
  length (map2 f u v) = Nat.min (length u) (length v).
Proof.
  revert v. induction u as [|x u IH]; intros [|y v]; simpl; try reflexivity.
  now rewrite IH.
Qed.

Lemma where_shape {A} (mask : array2 bool) (data : array2 A) (other : A)
    (h w : nat) :
  has_shape h w mask -> has_shape h w data ->
  has_shape h w (np_where mask data other).
Proof.
  intros Hm Hd. unfold np_where. split.
  - rewrite map2_length. destruct Hm, Hd. lia.
  - apply Forall_forall. intros row Hin.
    destruct (In_nth _ _ [] Hin) as [i [Hi Hrow]]. subst row.
    rewrite map2_length in Hi.
    assert (Hih : i < h) by (destruct Hm, Hd; lia).
    rewrite (nth_map2 _ mask data [] [] []) by (destruct Hm, Hd; lia).
    rewrite map2_length, (shape_row Hm Hih), (shape_row Hd Hih). lia.
Qed.

(** A cell of [np.where(mask, data, nan)] inside the grid. *)
Lemma where_cell (mask : array2 bool) (data : array2 fval) (h w r c : nat) :
  has_shape h w mask -> has_shape h w data -> r < h -> c < w ->
  nth c (nth r (np_where mask data NaN) []) NaN
  = if cell mask r c then nth c (nth r data []) NaN else NaN.
Proof.
  intros Hm Hd Hr Hc. unfold np_where, cell.
  rewrite (nth_map2 _ mask data [] [] [])
    by (destruct Hm, Hd; lia).
  rewrite (nth_map2 _ (nth r mask []) (nth r data []) false NaN NaN);
    [reflexivity|rewrite (shape_row Hm Hr)|rewrite (shape_row Hd Hr)]; exact Hc.
Qed.

Lemma slice2_item {A} (r0 r1 c0 c1 r c h w : nat) (a : array2 A) (d : A) :
  has_shape h w a -> r1 <= h -> c1 <= w -> r < r1 - r0 -> c < c1 - c0 ->
  nth c (nth r (slice2 r0 r1 c0 c1 a) []) d = nth (c0 + c) (nth (r0 + r) a []) d.
Proof.
  intros [Hh Hw] Hr1 Hc1 Hr Hc. unfold slice2.
  rewrite (nth_map_lt (slice c0 c1) (slice r0 r1 a) [] [])
    by (rewrite slice_length; lia).
  rewrite nth_slice by exact Hc. now rewrite nth_slice by exact Hr.
Qed.

(** X21. What a raster holds: when the mask has a True cell, the turn of
    the raster loop for a selected time step writes one band, of the size
    of the bounding rectangle of the True cells, and its cell [(r, c)]
    holds the value of the data at the same place of the grid when the
    mask is True there, with NaN replaced by -9999 and the result rounded
    to float32, and -9999 when the mask is False. *)
Theorem raster_band_cells :
  forall (env : Env) (ds : Dataset) (mask : array2 bool) (var vname : string)
         (selected : list Z) (out : string) (idx : nat) (t : Timestamp)
         (data : array2 fval),
    longitude ds <> [] -> latitude ds <> [] ->
    has_shape (length (latitude ds)) (length (longitude ds)) mask ->
    has_shape (length (latitude ds)) (length (longitude ds)) data ->
    isel_time ds var idx = inr data ->
    hour_selected t selected = true ->
    (exists r c, cell mask r c = true) ->
    let r0 := argmax (any_axis1 mask) in
    let r1 := length (any_axis1 mask) - argmax (rev (any_axis1 mask)) in
    let c0 := argmax (any_axis0 mask) in
    let c1 := length (any_axis0 mask) - argmax (rev (any_axis0 mask)) in
    exists band,
      written_bands
        (events (raster_step (G := G) env ds mask var vname selected out (idx, t)))
      = [band] /\
      has_shape (r1 - r0) (c1 - c0) band /\
      forall r c, r < r1 - r0 -> c < c1 - c0 ->
        nth c (nth r band []) (F32 0)
        = if cell mask (r0 + r) (c0 + c)
          then Float32.of_Q (fill_value (nth (c0 + c) (nth (r0 + r) data []) NaN))
          else F32 nodata_value.
Proof.
  intros env ds mask var vname selected out idx t data Hlon Hlat Hm Hd Hdata
         Hsel [r' [c' Htrue]] r0 r1 c0 c1.
  destruct (clip_bounds Hm (ex_intro _ r' (ex_intro _ c' Htrue)))
    as [Hrow [Hcol _]]. fold r0 r1 in Hrow. fold c0 c1 in Hcol.
  destruct (flags_of_true_cell _ _ Hm Htrue) as [Hrows Hcols].
  rewrite (@raster_step_run _ env ds mask var vname selected out idx t data
             Hlon Hlat Hm Hdata), Hsel.
  pose proof (clip_coords_nonempty data Hm Hlon Hlat) as Hne.
  rewrite (clip_of_flagged data mask (longitude ds) (latitude ds) Hrows Hcols)
    in *.
  fold r0 r1 c0 c1 in Hne |- *. destruct Hne as [Hcl Hclat].
  destruct (np_min_nonempty Hcl) as [a Ha].
  destruct (np_max_nonempty Hclat) as [b Hb].
  rewrite (save_raster_run env _ _ _ _ Ha Hb).
  rewrite <- where_slice2.
  set (W := np_where mask data NaN).
  assert (HW : has_shape (length (latitude ds)) (length (longitude ds)) W)
    by (apply where_shape; assumption).
  eexists. split; [|split].
  - unfold events. cbn [fst]. unfold written_bands. rewrite !flat_map_app. simpl.
    repeat match goal with
           | |- context [if ?b then _ else _] => destruct b
           end; reflexivity.
  - assert (Hs : has_shape (r1 - r0) (c1 - c0) (slice2 r0 r1 c0 c1 W))
      by (eapply slice2_shape; [exact HW|lia|lia]).
    destruct Hs as [Hh Hw]. split; [now rewrite length_map|].
    rewrite Forall_map. eapply Forall_impl; [|exact Hw].
    intros row Hrow'. now rewrite length_map.
  - intros r c Hr Hc.
    assert (Hs : has_shape (r1 - r0) (c1 - c0) (slice2 r0 r1 c0 c1 W))
      by (eapply slice2_shape; [exact HW|lia|lia]).
    rewrite (nth_map_lt _ (slice2 r0 r1 c0 c1 W) [] [])
      by (destruct Hs; lia).
    rewrite (nth_map_lt _ (nth r (slice2 r0 r1 c0 c1 W) []) (F32 0) NaN)
      by (rewrite (shape_row Hs Hr); exact Hc).
    rewrite (slice2_item r0 c0 NaN HW) by lia.
    unfold W. rewrite (where_cell Hm Hd) by lia.
    destruct (cell mask (r0 + r) (c0 + c)); [reflexivity | apply float32_nodata].
Qed.

End BandCells.

Lemma raster_band_cells_witness :
  written_bands
    (events (raster_step (G := Rect.region) Scenario.calm Scenario.two_rows
               [[false]; [true]] "t2m" "2m_temperature" [0%Z] "out"
               (0, Scenario.at_hour 1 0)))
  = [ [[F32 7]] ].
Proof.
  destruct (@raster_band_cells Rect.region Scenario.calm Scenario.two_rows
              [[false]; [true]] "t2m"%string "2m_temperature"%string [0%Z]
              "out"%string 0 (Scenario.at_hour 1 0) [[Num 5]; [Num 7]]
              ltac:(discriminate) ltac:(discriminate)
              ltac:(split; [reflexivity|repeat constructor])
              ltac:(split; [reflexivity|repeat constructor])
              eq_refl eq_refl
              (ex_intro _ 1 (ex_intro _ 0 eq_refl)))
    as [band [Hb _]].
  rewrite Hb. vm_compute in Hb. symmetry. exact Hb.
Defined.

(** ** The lines of [except] and [finally] *)

Section ClosingLines.

Context {G : Type} `{Geometry G}.

Variable f : Line -> bool.
Hypothesis f_closing :
  forall l, f l = true -> is_error_line l = true \/ is_temporary_line l = true.

Lemma not_closing (l : Line) :
  is_error_line l = false -> is_temporary_line l = false ->
  no_line (G := G) f (Print l).
Proof.
  intros He Ht. simpl. destruct (f l) eqn:E; [|reflexivity].
  destruct (f_closing E); congruence.
Qed.

Lemma save_raster_no_closing (env : Env) (data : array2 fval) (path : string)
    (lons lats : list Q) :
  Forall (no_line (G := G) f) (events (save_raster env data path lons lats)).
Proof.
  apply save_raster_Forall. intros a b Ha Hb.
  rewrite (save_raster_run env data path lons lats Ha Hb). simpl.
  destruct (16 <? _); destruct (overviews_raise env path);
    destruct (gdal_raise env path);
    repeat (constructor; try exact I; try now apply not_closing).
Qed.

Lemma main_try_no_closing (env : Env) (hours variables : list string)
    (out : string) (fmt : OutputFormat) (polygons : list G) (raw : Dataset) :
  Forall (no_line (G := G) f)
         (events (main_try env hours variables out fmt polygons raw)).
Proof.
  unfold main_try.
  apply events_bind_Forall; [now apply events_emit_Forall, not_closing|]. intros _ _.
  apply events_bind_Forall; [apply events_lift_Forall|]. intros ds _.
  apply events_bind_Forall; [now apply events_emit_Forall, not_closing|]. intros _ _.
  apply events_bind_Forall; [apply events_lift_Forall|]. intros mask _.
  apply events_bind_Forall; [now apply events_emit_Forall, not_closing|]. intros _ _.
  apply events_bind_Forall; [apply events_lift_opt_Forall|]. intros selected _.
  apply events_bind_Forall.
  2: { intros n _. destruct fmt; now apply events_emit_Forall, not_closing. }
  apply events_for_count_Forall. intros v _. unfold process_variable.
  destruct (resolve_variable ds v) as [var|].
  2: { apply events_bind_Forall; [now apply events_emit_Forall, not_closing|].
       constructor. }
  apply events_bind_Forall; [now apply events_emit_Forall, not_closing|]. intros _ _.
  destruct fmt.
  - unfold emit_rasters.
    apply events_bind_Forall; [apply events_lift_Forall|]. intros times _.
    apply events_for_count_Forall. intros [idx t] _.
    unfold raster_step. simpl fst. simpl snd.
    destruct (hour_selected t selected); [|constructor].
    apply events_bind_Forall; [apply events_lift_Forall|]. intros data _.
    destruct (clip_to_polygon_bounds _ _ _ _) as [[[cd cm] cl] clat].
    apply events_bind_Forall; [apply save_raster_no_closing|]. intros _ _.
    apply events_bind_Forall; [now apply events_emit_Forall, not_closing|].
    constructor.
  - apply events_bind_Forall; [|constructor].
    unfold create_vector_grid.
    apply events_bind_Forall; [now apply events_emit_Forall, not_closing|]. intros _ _.
    destruct (map fst _) as [|g gs].
    + apply events_bind_Forall; [now apply events_emit_Forall, not_closing|].
      constructor.
    + apply events_bind_Forall; [apply events_lift_Forall|]. intros times _.
      apply events_for_append_Forall. intros [idx t] _.
      unfold vector_step. simpl fst. simpl snd.
      destruct (hour_selected t selected); [|constructor].
      apply events_bind_Forall; [apply events_lift_Forall|]. intros data _.
      apply events_bind_Forall; [apply events_lift_opt_Forall|]. intros values _.
      apply events_bind_Forall; [now apply events_emit_Forall|]. intros _ _.
      apply events_bind_Forall; [now apply events_emit_Forall, not_closing|].
      constructor.
Qed.

End ClosingLines.

Section ClosingLinesOfMain.

Context {G : Type} `{Geometry G}.

(** X22. The error line and the line about the temporary file come from
    [except] and [finally] alone: a run of [main] prints the error line
    once when an exception escapes and never otherwise, so that their
    number is the exit status; it prints the line about the temporary file
    once when the file was removed and never otherwise, and then as its
    last line. *)
Theorem closing_lines :
  forall (env : Env) (args : Args) (polygons : list G) (raw : Dataset),
    let run := main env args polygons raw in
    count_lines is_error_line (events run) = exit_status run /\
    count_lines is_temporary_line (events run)
    = (if temp_file_removed env then 1 else 0) /\
    (temp_file_removed env = true ->
     last (events run) (Print Generating_mask) = Print Temporary_file_removed).
Proof.
  intros env args polygons raw run. unfold run, main, exit_status.
  set (try_block := main_try env _ _ _ _ _ _).
  assert (He : count_lines is_error_line (events try_block) = 0).
  { apply count_lines_none, main_try_no_closing. intros l Hl. now left. }
  assert (Ht : count_lines is_temporary_line (events try_block) = 0).
  { apply count_lines_none, main_try_no_closing. intros l Hl. now right. }
  destruct (outcome try_block) as [e|u]; unfold outcome, events; simpl;
    fold (events try_block); rewrite !count_lines_app, He, Ht;
    destruct (temp_file_removed env); simpl; repeat split;
    try reflexivity; try discriminate; intros _.
  - change (events try_block ++ [Print (Processing_error e);
                                 Print Temporary_file_removed])
      with (events try_block ++ [Print (Processing_error e)]
            ++ [Print Temporary_file_removed]).
    rewrite app_assoc. apply last_last.
  - apply last_last.
Qed.

End ClosingLinesOfMain.

Lemma closing_lines_witness :
  last (events (main Scenario.calm (Scenario.args_of "00" "2m_temperature" raster)
                  (@nil Rect.region) Scenario.hourly))
       (Print Generating_mask)
  = Print Temporary_file_removed.
Proof.
  apply (@closing_lines Rect.region Rect.rect_geometry Scenario.calm
           (Scenario.args_of "00" "2m_temperature" raster) [] Scenario.hourly).
  reflexivity.
Defined.

(** ** The hours of the dialog *)

(** X23. The dialog and the algorithm send the same hours: for ticked
    hours below 24, the texts the dialog cuts out of the labels of its
    checkboxes, joined with commas, are the [--hours] argument the
    algorithm builds from the indices. *)
Theorem dialog_sends_the_same_hours :
  forall ticked : list nat,
    Forall (fun h => h < 24) ticked ->
    String.concat "," (get_selected_hours ticked) = hours_argument ticked.
Proof.
  intros ticked Hall. unfold hours_argument, get_selected_hours. f_equal.
  apply map_ext_in. intros h Hin. rewrite Forall_forall in Hall.
  specialize (Hall h Hin).
  assert (Hcheck : forallb (fun h => String.eqb (checkbox_hour h) (Text.format_02d h))
                           (seq 0 24) = true) by (vm_compute; reflexivity).
  rewrite forallb_forall in Hcheck.
  apply String.eqb_eq, Hcheck, in_seq. lia.
Qed.

Lemma dialog_sends_the_same_hours_witness :
  String.concat "," (get_selected_hours [0; 12]) = "00,12"%string.
Proof.
  rewrite (@dialog_sends_the_same_hours [0; 12] ltac:(repeat constructor; lia)).
  reflexivity.
Defined.

Lemma name_tables_agree_witness :
  dict_get VARIABLE_REVERSE_MAP "t2m" = Some "2m_temperature"%string.
Proof.
  destruct (proj1 name_tables_agree "2m_temperature"%string (or_introl eq_refl))
    as [short [Hs Hr]].
  vm_compute in Hs. injection Hs as Hs. subst short. exact Hr.
Defined.

(** ** The dialog reads like the algorithm *)

Section DialogReading.

Local Open Scope string_scope.

Lemma split_from_parts (m : string) (s : string) (skip : nat) :
  1 <= length (Text.split_from m skip s).
Proof.
  revert skip. induction s as [|c t IH]; intros skip; [simpl; lia|].
  destruct skip as [|k]; [|simpl; apply IH].
  change (Text.split_from m 0 (String c t))
    with (if String.prefix m (String c t)
          then EmptyString :: Text.split_from m (String.length m - 1) t
          else Text.cons_head c (Text.split_from m 0 t)).
  destruct (String.prefix m (String c t)); [simpl; lia|].
  specialize (IH 0). destruct (Text.split_from m 0 t); simpl in *; lia.
Qed.

(** A text that holds the marker splits into two parts or more: the
    dialog's test [len(path_parts) > 1] never fails. *)
Lemma split_parts (c : ascii) (a s : string) :
  Text.contains (String c a) s = true ->
  (1 <? length (Text.split_by (String c a) s))%nat = true.
Proof.
  unfold Text.split_by. intros Hc. apply Nat.ltb_lt.
  induction s as [|x t IH]; [discriminate|].
  change (Text.contains (String c a) (String x t))
    with (String.prefix (String c a) (String x t)
          || Text.contains (String c a) t) in Hc.
  change (Text.split_from (String c a) 0 (String x t))
    with (if String.prefix (String c a) (String x t)
          then EmptyString
               :: Text.split_from (String c a) (String.length (String c a) - 1) t
          else Text.cons_head x (Text.split_from (String c a) 0 t)).
  destruct (String.prefix (String c a) (String x t)).
  - pose proof (split_from_parts (String c a) t
                  (String.length (String c a) - 1)).
    simpl in *. lia.
  - simpl in Hc. specialize (IH Hc).
    destruct (Text.split_from (String c a) 0 t); simpl in *; lia.
Qed.

Lemma read_process_line_paths (st : DialogState) (line : string) :
  let acc := read_line {| raster_paths := output_rasters st;
                          vector_paths := output_vectors st |} line in
  output_rasters (read_process_line st line) = raster_paths acc /\
  output_vectors (read_process_line st line) = vector_paths acc.
Proof.
  unfold read_process_line, read_line.
  destruct (Text.contains "RESULT_PATH:" (Text.strip line)) eqn:E0;
    destruct (Text.contains "RASTER_PATH:" (Text.strip line)) eqn:E1;
    destruct (Text.contains "VECTOR_PATH:" (Text.strip line)) eqn:E2;
    rewrite ?(split_parts _ _ _ E0), ?(split_parts _ _ _ E1),
            ?(split_parts _ _ _ E2);
    now split.
Qed.

(** X24. The dialog collects what the algorithm collects: on the same
    lines of output, [read_process_output] of the dialog ends with the
    raster paths and the vector paths that the read loop of
    [process_polygons] ends with; its extra test on the number of parts
    never fails. *)
Theorem dialog_reads_like_the_algorithm :
  forall (csv : option string) (lines : list string),
    output_rasters (read_process_output csv lines)
    = raster_paths (read_output lines) /\
    output_vectors (read_process_output csv lines)
    = vector_paths (read_output lines).
Proof.
  intros csv lines. unfold read_process_output, read_output.
  set (st := {| final_csv_path := csv; output_rasters := [];
                output_vectors := [] |}).
  set (acc := {| raster_paths := []; vector_paths := [] |}).
  assert (Hinv : output_rasters st = raster_paths acc /\
                 output_vectors st = vector_paths acc) by now split.
  clearbody st acc. revert st acc Hinv.
  induction lines as [|line lines IH]; intros st acc Hinv; [exact Hinv|].
  simpl. apply IH.
  destruct (read_process_line_paths st line) as [Hr Hv].
  destruct Hinv as [Ha Hb]. rewrite Hr, Hv.
  destruct acc as [ar av]. simpl in Ha, Hb. now subst.
Qed.

End DialogReading.

(** ** The worker for points *)

Section PointTables.

Local Open Scope string_scope.

(** X25. The tables of the worker for points: the keys of its
    [VARIABLE_NAME_MAP] are the variables the dialog offers, in the same
    order; on them it agrees with the table of the worker for polygons;
    and [REVERSE_MAP] is its exact inverse, so that renaming the columns
    of the result loses no variable. *)
Theorem point_tables_agree :
  map fst PointWorker.VARIABLE_NAME_MAP = ERA5_VARIABLES /\
  (forall k v, dict_get PointWorker.VARIABLE_NAME_MAP k = Some v ->
     dict_get VARIABLE_NAME_MAP k = Some v /\
     dict_get PointWorker.REVERSE_MAP v = Some k) /\
  (forall v k, dict_get PointWorker.REVERSE_MAP v = Some k ->
     dict_get PointWorker.VARIABLE_NAME_MAP k = Some v).
Proof.
  split; [reflexivity|]. split.
  - assert (Hall : forallb (fun kv =>
                      match dict_get VARIABLE_NAME_MAP (fst kv),
                            dict_get PointWorker.REVERSE_MAP (snd kv) with
                      | Some v', Some k' =>
                          String.eqb v' (snd kv) && String.eqb k' (fst kv)
                      | _, _ => false
                      end) PointWorker.VARIABLE_NAME_MAP = true)
      by (vm_compute; reflexivity).
    intros k v Hk. apply dict_get_In in Hk.
    rewrite forallb_forall in Hall. specialize (Hall (k, v) Hk).
    cbv beta in Hall. simpl fst in Hall. simpl snd in Hall.
    destruct (dict_get VARIABLE_NAME_MAP k) as [v'|]; [|discriminate].
    destruct (dict_get PointWorker.REVERSE_MAP v) as [k'|]; [|discriminate].
    apply andb_true_iff in Hall. destruct Hall as [Hv' Hk'].
    apply String.eqb_eq in Hv', Hk'. now subst.
  - assert (Hall : forallb (fun vk =>
                      match dict_get PointWorker.VARIABLE_NAME_MAP (snd vk) with
                      | Some v' => String.eqb v' (fst vk)
                      | None => false
                      end) PointWorker.REVERSE_MAP = true)
      by (vm_compute; reflexivity).
    intros v k Hv. apply dict_get_In in Hv.
    rewrite forallb_forall in Hall. specialize (Hall (v, k) Hv).
    cbv beta in Hall. simpl fst in Hall. simpl snd in Hall.
    destruct (dict_get PointWorker.VARIABLE_NAME_MAP k) as [v'|]; [|discriminate].
    apply String.eqb_eq in Hall. now subst.
Qed.

End PointTables.

Section PointArea.

Local Open Scope Q_scope.

(** X26. The request of the worker for points covers every point with a
    margin: for the coordinates of at least one point, the area
    [N, W, S, E] it asks for has every point at least a tenth of a degree
    inside each side, and is at least two tenths of a degree high and
    wide, a single point included. *)
Theorem point_area_covers_the_points :
  forall (lons lats : list Q),
    lons <> [] -> lats <> [] ->
    exists north west south east,
      PointWorker.area lons lats = Some (north, west, south, east) /\
      (forall lat, In lat lats -> south + (1 # 10) <= lat <= north - (1 # 10)) /\
      (forall lon, In lon lons -> west + (1 # 10) <= lon <= east - (1 # 10)) /\
      (2 # 10) <= north - south /\ (2 # 10) <= east - west.
Proof.
  intros lons lats Hlon Hlat. unfold PointWorker.area.
  destruct (np_max_nonempty Hlat) as [lat_max Hlmax].
  destruct (np_min_nonempty Hlon) as [lon_min Hnmin].
  destruct (np_min_nonempty Hlat) as [lat_min Hlmin].
  destruct (np_max_nonempty Hlon) as [lon_max Hnmax].
  rewrite Hlmax, Hnmin, Hlmin, Hnmax.
  destruct (np_max_spec _ Hlmax) as [Ha Ha'].
  destruct (np_min_spec _ Hnmin) as [Hb Hb'].
  destruct (np_min_spec _ Hlmin) as [Hc Hc'].
  destruct (np_max_spec _ Hnmax) as [Hd Hd'].
  rewrite Forall_forall in Ha', Hb', Hc', Hd'.
  do 4 eexists. split; [reflexivity|]. repeat split.
  - specialize (Hc' lat H). lra.
  - specialize (Ha' lat H). lra.
  - specialize (Hb' lon H). lra.
  - specialize (Hd' lon H). lra.
  - specialize (Hc' lat_max Ha). lra.
  - specialize (Hb' lon_max Hd). lra.
Qed.

End PointArea.

Lemma dialog_reads_like_the_algorithm_witness :
  output_rasters
    (read_process_output None
       [marker_line "RASTER_PATH:" "out/2m_temperature_20240101_0000.tif"])
  = ["out/2m_temperature_20240101_0000.tif"%string].
Proof.
  rewrite (proj1 (dialog_reads_like_the_algorithm None
             [marker_line "RASTER_PATH:" "out/2m_temperature_20240101_0000.tif"])).
  reflexivity.
Defined.

Lemma point_tables_agree_witness :
  dict_get PointWorker.REVERSE_MAP "t2m" = Some "2m_temperature"%string.
Proof.
  exact (proj2 (proj1 (proj2 point_tables_agree) "2m_temperature"%string
                  "t2m"%string eq_refl)).
Defined.

Lemma point_area_covers_the_points_witness :
  PointWorker.area [10%Q] [45%Q]
  = Some ((451 # 10)%Q, (99 # 10)%Q, (449 # 10)%Q, (101 # 10)%Q).
Proof.
  destruct (@point_area_covers_the_points [10%Q] [45%Q]
              ltac:(discriminate) ltac:(discriminate))
    as [n [w [s [e [Ha _]]]]].
  rewrite Ha. vm_compute in Ha. symmetry. exact Ha.
Defined.
